(** * ChatClone: the streaming chat route, the thread routes, the model
      registry and the client's message handling, embedded in Rocq.

    Sources embedded here:
    - [web/src/lib/models/config.ts]   (AVAILABLE_MODELS, getModelById)
    - [src/app/api/chat/route.ts]      (POST: the chat orchestrator)
    - [app/api/threads/route.ts]       (GET, POST: list and create)
    - [app/api/threads/[id]/route.ts]  (GET, DELETE, PATCH)
    - [app/api/threads/[id]/messages/route.ts] (GET)
    - [app/api/threads/cleanup/route.ts]       (POST)
    - [web/src/lib/env.ts]             (readEnv)
    - [src/components/chat-interface.tsx] (handleModelChange)
    - [components/chat-thread.tsx]     (onNew, loadHistory)
    - [web/src/lib/db/schema.sql]      (tables, row level security,
                                        the updated_at trigger)

    The Supabase store, the auth service, the clock, [streamText] of the
    AI SDK and the title model are collaborators of the route: their
    answers for one request are collected in an environment record, and
    every call the route makes to one of them is written to an effect
    log. *)

From stdpp Require Import gmap strings list fin_maps sorting.
From Stdlib Require Import Ascii DecimalString.

Local Open Scope string_scope.
Local Open Scope list_scope.

(** ** Model registry: [web/src/lib/models/config.ts] *)

Inductive ModelProvider := openai | anthropic | openrouter.

#[global] Instance ModelProvider_eq_dec : EqDecision ModelProvider.
Proof. solve_decision. Defined.

Record ModelConfig := {
  id : string;
  name : string;
  provider : ModelProvider;
  description : string;
}.

Definition AVAILABLE_MODELS : list ModelConfig := [
  (* Latest flagship models via OpenRouter *)
  {| id := "openai/gpt-5.1";
     name := "GPT-5.1";
     provider := openrouter;
     description := "Latest generation OpenAI model" |};
  {| id := "anthropic/claude-sonnet-4.5";
     name := "Claude Sonnet 4.5";
     provider := openrouter;
     description := "Next generation Claude model" |};
  {| id := "google/gemini-3-pro-preview";
     name := "Gemini 3 Pro (Preview)";
     provider := openrouter;
     description := "Google's latest Gemini preview model" |};
  (* Direct provider models *)
  {| id := "gpt-4o";
     name := "GPT-4o";
     provider := openai;
     description :=
       "Most capable OpenAI model with vision and advanced reasoning" |};
  {| id := "gpt-4o-mini";
     name := "GPT-4o Mini";
     provider := openai;
     description := "Faster and more affordable version of GPT-4o" |};
  {| id := "haiku-4-5";
     name := "Claude Haiku 4.5";
     provider := anthropic;
     description := "Fast and efficient Claude model for quick responses" |};
  (* OpenRouter models *)
  {| id := "anthropic/claude-3.5-sonnet";
     name := "Claude 3.5 Sonnet";
     provider := openrouter;
     description := "Most capable Claude model via OpenRouter" |};
  {| id := "google/gemini-pro-1.5";
     name := "Gemini Pro 1.5";
     provider := openrouter;
     description := "Google's latest multimodal model" |};
  {| id := "meta-llama/llama-3.1-70b-instruct";
     name := "Llama 3.1 70B";
     provider := openrouter;
     description := "Meta's powerful open model" |};
  {| id := "mistralai/mistral-large";
     name := "Mistral Large";
     provider := openrouter;
     description := "Mistral's flagship model" |}
].

(** [AVAILABLE_MODELS.find((model) => model.id === id)] *)
Definition getModelById (i : string) : option ModelConfig :=
  List.find (fun model => bool_decide (id model = i)) AVAILABLE_MODELS.

(** [AVAILABLE_MODELS[0]] *)
Definition getDefaultModel : option ModelConfig := head AVAILABLE_MODELS.

(** ** JavaScript values met by the route *)

(** The result of reading a property of an object literal typed
    [Record<string, string>]: an own property gives its string; a key that
    is not an own property is looked up on [Object.prototype], whose
    members are functions or objects; any other key reads [undefined]. *)
Inductive JsValue :=
| JsString (s : string)
| JsInherited (member : string)
| JsUndefined.

Definition objectPrototypeMembers : list string := [
  "constructor"; "__proto__"; "hasOwnProperty"; "isPrototypeOf";
  "propertyIsEnumerable"; "toLocaleString"; "toString"; "valueOf";
  "__defineGetter__"; "__defineSetter__";
  "__lookupGetter__"; "__lookupSetter__"
].

Fixpoint ownProperty (o : list (string * string)) (k : string)
  : option string :=
  match o with
  | [] => None
  | (k', v) :: o' => if bool_decide (k' = k) then Some v else ownProperty o' k
  end.

(** [o[k]] *)
Definition js_get (o : list (string * string)) (k : string) : JsValue :=
  match ownProperty o k with
  | Some v => JsString v
  | None =>
      if bool_decide (k ∈ objectPrototypeMembers) then JsInherited k
      else JsUndefined
  end.

(** ToBoolean: the empty string and [undefined] are falsy. *)
Definition truthy (v : JsValue) : bool :=
  match v with
  | JsString s => negb (bool_decide (s = ""))
  | JsInherited _ => true
  | JsUndefined => false
  end.

(** [a || b] *)
Definition js_or (a b : JsValue) : JsValue := if truthy a then a else b.

(** [a || b] on optional strings ([null]/[undefined] is [None]). *)
Definition str_or (a b : option string) : option string :=
  match a with
  | Some s => if bool_decide (s = "") then b else a
  | None => b
  end.

(** ** Model resolution: [route.ts] lines 120-146 *)

Definition anthropicModelMap : list (string * string) :=
  [ ("haiku-4-5", "claude-3-5-haiku-20241022") ].

Definition openaiModelMap : list (string * string) :=
  [ ("gpt-4o", "gpt-4o"); ("gpt-4o-mini", "gpt-4o-mini") ].

(** The provider factory that is called and the value handed to it. *)
Inductive LanguageModel :=
| AnthropicModel (modelName : JsValue)
| OpenRouterModel (modelName : JsValue)
| OpenAIModel (modelName : JsValue).

Definition concreteName (m : LanguageModel) : JsValue :=
  match m with
  | AnthropicModel n | OpenRouterModel n | OpenAIModel n => n
  end.

Definition resolveModel (modelConfig : ModelConfig) (modelId : string)
  : LanguageModel :=
  match provider modelConfig with
  | anthropic =>
      let anthropicModelName :=
        js_or (js_get anthropicModelMap modelId)
              (JsString "claude-3-5-haiku-20241022") in
      AnthropicModel anthropicModelName
  | openrouter => OpenRouterModel (JsString modelId)
  | openai =>
      let openaiModelName :=
        js_or (js_get openaiModelMap modelId) (JsString "gpt-4o") in
      OpenAIModel openaiModelName
  end.

(** ** Data model: [schema.sql] and the request payload *)

(** [CHECK (role IN ('user', 'assistant', 'system'))] *)
Inductive Role := user | assistant | system.

#[global] Instance Role_eq_dec : EqDecision Role.
Proof. solve_decision. Defined.

(** A content fragment [{ type, text }]. *)
Record Part := { type : string; text : string }.

(** The JSONB [content] column: a fragment list, or the legacy flat
    string. *)
Inductive Content :=
| ContentParts (fragments : list Part)
| ContentString (s : string).

(** An inbound [UIMessage]; [content] is the legacy field read through
    [(lastMessage as any).content]. *)
Record UIMessage := {
  role : Role;
  parts : option (list Part);
  content : option Content;
}.

(** A row of table [threads] (keyed by [id] in the store below). *)
Record ThreadRow := {
  user_id : string;
  title : string;
  model_id : string;
  updated_at : N;
}.

(** A row of table [messages]. *)
Record MessageRow := {
  thread_id : string;
  m_role : Role;
  m_content : Content;
  model_name : option string;
  sequence_index : nat;
}.

Record Database := {
  threads : gmap string ThreadRow;
  messages : list MessageRow;
}.

(** The fields of a [.update({...})] on [threads]. *)
Record ThreadUpdate := {
  set_title : option string;
  set_model_id : option string;
  set_updated_at : option N;
}.

(** ** Collaborators of one request *)

(** The store calls of the two routes, by call site. *)
Inductive StoreCall :=
| FetchThread            (* route.ts 56-60 *)
| CountBeforeUser        (* route.ts 87-90 *)
| InsertUser             (* route.ts 106-111 *)
| CountBeforeAssistant   (* route.ts 164-167 *)
| InsertAssistant        (* route.ts 171-177 *)
| FetchFirstUser         (* route.ts 191-198 *)
| UpdateTitle            (* route.ts 227-233 *)
| TouchAfterTitleError   (* route.ts 240-243 *)
| TouchThread            (* route.ts 247-250 *)
| PatchThread.           (* threads/[id]/route.ts 100-106 *)

Record Env := {
  (** [supabase.auth.getUser()]: [None] on [authError] or a missing user *)
  authUser : option string;
  (** whether the store answers this call with an error *)
  storeFails : StoreCall → bool;
  (** [Date.now()] when the message id is built *)
  dateNow : N;
  (** [new Date()] in the completion callback *)
  finishDate : N;
  (** [NOW()] of the store when a thread row is updated *)
  dbNow : N;
  (** the increments that [result.textStream] yields ... *)
  textStream : list string;
  (** ... and the error it raises after them, if any *)
  streamError : option string;
  (** the [text] of the event with which [streamText] invokes [onFinish];
      [None] when it does not invoke it. The SDK decides both, whatever
      the stream above does. *)
  onFinishText : option string;
  (** [generateText(...).text] of the title model; [None] when it throws *)
  titleText : option string;
}.

(** Every call to a collaborator, in program order. *)
Inductive Effect :=
| GetUser
| SelectThread (threadId : string)
| CountMessages (threadId : string) (count : option nat)
| InsertMessage (row : MessageRow) (ok : bool)
| StreamText (model : LanguageModel) (msgs : list (Role * string))
             (sys : option string)
| SelectFirstUserMessage (threadId : string)
| GenerateText (modelName : string) (prompt : string)
| UpdateThread (threadId : string) (updates : ThreadUpdate) (ok : bool).

Record World := {
  db : Database;
  log : list Effect;
}.

(** State passing over the store and the effect log. *)
Definition M (A : Type) : Type := World → A * World.

#[global] Instance M_ret : MRet M := λ A a w, (a, w).
#[global] Instance M_bind : MBind M :=
  λ A B f m w, let '(a, w') := m w in f a w'.

Definition getDb : M Database := λ w, (db w, w).
Definition putDb (d : Database) : M unit :=
  λ w, (tt, {| db := d; log := log w |}).
Definition emit (e : Effect) : M unit :=
  λ w, (tt, {| db := db w; log := log w ++ [e] |}).

(** ** The store behind the Supabase client *)

(** Row level security on [threads] and, through it, on [messages]:
    [auth.uid() = user_id]. A message also needs its thread to exist
    ([REFERENCES threads(id)]). *)
Definition ownsThread (d : Database) (uid threadId : string) : bool :=
  match threads d !! threadId with
  | Some t => bool_decide (user_id t = uid)
  | None => false
  end.

Definition messagesOf (d : Database) (threadId : string) : list MessageRow :=
  filter (λ m, thread_id m = threadId) (messages d).

(** The answer to [.from("threads").select("model_id").eq("id", threadId)
    .single()]: no row on an error, or when none is visible. *)
Definition fetchThread (env : Env) (d : Database) (uid threadId : string)
  : option ThreadRow :=
  if storeFails env FetchThread then None
  else if ownsThread d uid threadId then threads d !! threadId
  else None.

Definition selectThread (env : Env) (uid threadId : string)
  : M (option ThreadRow) :=
  emit (SelectThread threadId);;
  d ← getDb;
  mret (fetchThread env d uid threadId).

(** The answer to [.from("messages").select("*", { count: "exact",
    head: true }).eq("thread_id", threadId)]: [null] on an error. *)
Definition countRows (env : Env) (call : StoreCall) (d : Database)
    (uid threadId : string) : option nat :=
  if storeFails env call then None
  else if ownsThread d uid threadId
       then Some (length (messagesOf d threadId))
       else Some 0.

Definition countMessages (env : Env) (call : StoreCall) (uid threadId : string)
  : M (option nat) :=
  d ← getDb;
  let count := countRows env call d uid threadId in
  emit (CountMessages threadId count);;
  mret count.

(** Whether [.from("messages").insert(row)] is accepted (no
    [insertError]), and the store after it. *)
Definition insertAccepted (env : Env) (call : StoreCall) (d : Database)
    (uid : string) (row : MessageRow) : bool :=
  negb (storeFails env call) && ownsThread d uid (thread_id row).

Definition insertRow (d : Database) (row : MessageRow) (ok : bool)
  : Database :=
  if ok then {| threads := threads d; messages := messages d ++ [row] |}
  else d.

Definition insertMessage (env : Env) (call : StoreCall) (uid : string)
    (row : MessageRow) : M bool :=
  d ← getDb;
  let ok := insertAccepted env call d uid row in
  emit (InsertMessage row ok);;
  putDb (insertRow d row ok);;
  mret ok.

(** The row after an update: the given fields are written, then the
    trigger [update_threads_updated_at] overwrites [updated_at] with
    [NOW()]. *)
Definition applyUpdate (env : Env) (u : ThreadUpdate) (t : ThreadRow)
  : ThreadRow :=
  {| user_id := user_id t;
     title := default (title t) (set_title u);
     model_id := default (model_id t) (set_model_id u);
     updated_at := dbNow env |}.

(** The row written by [.from("threads").update(updates)
    .eq("id", threadId)], if the call succeeds and a row matches. *)
Definition updatedRow (env : Env) (call : StoreCall) (d : Database)
    (uid threadId : string) (u : ThreadUpdate) : option ThreadRow :=
  if storeFails env call then None
  else if ownsThread d uid threadId
       then applyUpdate env u <$> threads d !! threadId
       else None.

Definition writeThread (d : Database) (threadId : string)
    (row : option ThreadRow) : Database :=
  match row with
  | Some t' =>
      {| threads := <[threadId := t']> (threads d); messages := messages d |}
  | None => d
  end.

Definition updateThread (env : Env) (call : StoreCall) (uid threadId : string)
    (u : ThreadUpdate) : M (option ThreadRow) :=
  d ← getDb;
  let row := updatedRow env call d uid threadId u in
  emit (UpdateThread threadId u (negb (storeFails env call)));;
  putDb (writeThread d threadId row);;
  mret row.

(** The first of the rows with the least [sequence_index]. *)
Fixpoint leastSequence (rows : list MessageRow) : option MessageRow :=
  match rows with
  | [] => None
  | r :: rest =>
      match leastSequence rest with
      | Some r' =>
          if Nat.ltb (sequence_index r') (sequence_index r)
          then Some r' else Some r
      | None => Some r
      end
  end.

(** The answer to [.from("messages").select("content")
    .eq("thread_id", threadId).eq("role", "user")
    .order("sequence_index", { ascending: true }).limit(1).single()]:
    [data] is [null] on an error or when no row is found. *)
Definition firstUserContent (env : Env) (d : Database) (uid threadId : string)
  : option Content :=
  if storeFails env FetchFirstUser then None
  else if ownsThread d uid threadId
       then m_content <$>
              leastSequence
                (filter (λ m, m_role m = user) (messagesOf d threadId))
       else None.

Definition selectFirstUserMessage (env : Env) (uid threadId : string)
  : M (option Content) :=
  emit (SelectFirstUserMessage threadId);;
  d ← getDb;
  mret (firstUserContent env d uid threadId).

(** ** The wire protocol of [customStream] *)

Inductive WireEvent :=
| Start                              (* data: {type:start} *)
| StartStep                          (* data: {type:start-step} *)
| TextStart (messageId : string)     (* data: {type:text-start,id} *)
| TextDelta (messageId delta : string) (* data: {type:text-delta,id,delta} *)
| TextEnd (messageId : string)       (* data: {type:text-end,id} *)
| FinishStep                         (* data: {type:finish-step} *)
| Finish (finishReason : string)     (* data: {type:finish,finishReason} *)
| EndMarker.                         (* data: [DONE] *)

#[global] Instance WireEvent_eq_dec : EqDecision WireEvent.
Proof. solve_decision. Defined.

(** How the byte stream ends: [controller.close()] or
    [controller.error(error)]. *)
Inductive StreamEnd :=
| Closed
| Errored (error : string).

Inductive Response :=
| JsonResponse (status : nat) (error : string)
| EventStreamResponse (events : list WireEvent) (ending : StreamEnd).

(** ** The request *)

Record RequestBody := {
  body_messages : list UIMessage;
  body_system : option string;
  body_threadId : option string;
}.

Record Request := {
  (** [url.searchParams.get("threadId")] *)
  threadIdFromQuery : option string;
  (** [await req.json()]: [None] when it throws *)
  json : option RequestBody;
}.

(** ** Helpers of the route *)

(** [strings.join("")] *)
Definition join (strings : list string) : string :=
  foldr String.append "" strings.

(** [parts.filter((p) => p.type === "text").map((p) => p.text).join("")] *)
Definition joinText (ps : list Part) : string :=
  join (text <$> filter (λ p, type p = "text") ps).

(** The projection handed to [streamText]: route.ts 150-160. *)
Definition projectMessages (msgs : list UIMessage) : list (Role * string) :=
  (λ msg, (role msg,
           match parts msg with
           | Some ps => joinText ps
           | None => ""
           end)) <$> msgs.

(** The content saved for the last user message: route.ts 95-103. An array
    is truthy even when empty; an empty legacy string is falsy. *)
Definition extractContent (lastMessage : UIMessage) : Content :=
  match parts lastMessage with
  | Some ps => ContentParts ps
  | None =>
      match content lastMessage with
      | Some (ContentString "") | None => ContentParts []
      | Some c => c
      end
  end.

Definition string_of_N (n : N) : string :=
  NilEmpty.string_of_uint (N.to_uint n).

(** ["msg_" + Date.now()] *)
Definition makeMessageId (now : N) : string := "msg_" +:+ string_of_N now.

Definition newline : string := String (ascii_of_nat 10) "".

(** The template literal of route.ts 209-212. *)
Definition titlePrompt (userText assistantText : string) : string :=
  "Based on this conversation, generate a brief, descriptive title (5-7 words max). Only respond with the title, nothing else."
  +:+ newline +:+ newline
  +:+ "User: " +:+ userText +:+ newline
  +:+ "Assistant: " +:+ assistantText.

(** [String.prototype.trim] strips WhiteSpace and LineTerminator at both
    ends. A string holds the UTF-8 bytes of its text, so these are, by
    length of their encoding:
    - U+0009 to U+000D and U+0020;
    - U+00A0;
    - U+1680, U+2000 to U+200A, U+2028, U+2029, U+202F, U+205F, U+3000 and
      U+FEFF. *)
Definition isWhiteSpace1 (a : nat) : bool :=
  bool_decide (a ∈ [9; 10; 11; 12; 13; 32]).

Definition isWhiteSpace2 (a b : nat) : bool :=
  bool_decide ((a, b) = (194, 160)).

Definition isWhiteSpace3 (a b c : nat) : bool :=
  bool_decide ((a, b, c) ∈
    [ (225, 154, 128);
      (226, 128, 128); (226, 128, 129); (226, 128, 130); (226, 128, 131);
      (226, 128, 132); (226, 128, 133); (226, 128, 134); (226, 128, 135);
      (226, 128, 136); (226, 128, 137); (226, 128, 138);
      (226, 128, 168); (226, 128, 169); (226, 128, 175);
      (226, 129, 159); (227, 128, 128); (239, 187, 191) ]).

Fixpoint trimStart (s : string) : string :=
  match s with
  | String a s1 =>
      if isWhiteSpace1 (nat_of_ascii a) then trimStart s1 else
      match s1 with
      | String b s2 =>
          if isWhiteSpace2 (nat_of_ascii a) (nat_of_ascii b)
          then trimStart s2
          else
            match s2 with
            | String c s3 =>
                if isWhiteSpace3 (nat_of_ascii a) (nat_of_ascii b)
                                 (nat_of_ascii c)
                then trimStart s3 else s
            | EmptyString => s
            end
      | EmptyString => s
      end
  | EmptyString => EmptyString
  end.

(** [trimEnd] on the reversed string: the bytes of a white space
    character arrive last byte first. *)
Fixpoint trimEndReversed (s : string) : string :=
  match s with
  | String a s1 =>
      if isWhiteSpace1 (nat_of_ascii a) then trimEndReversed s1 else
      match s1 with
      | String b s2 =>
          if isWhiteSpace2 (nat_of_ascii b) (nat_of_ascii a)
          then trimEndReversed s2
          else
            match s2 with
            | String c s3 =>
                if isWhiteSpace3 (nat_of_ascii c) (nat_of_ascii b)
                                 (nat_of_ascii a)
                then trimEndReversed s3 else s
            | EmptyString => s
            end
      | EmptyString => s
      end
  | EmptyString => EmptyString
  end.

Definition trim (s : string) : string :=
  String.rev (trimEndReversed (String.rev (trimStart s))).

(** A double or a single quote. *)
Definition isQuote (c : ascii) : bool :=
  bool_decide (nat_of_ascii c ∈ [34; 39]).

Definition dropLeadingQuote (s : string) : string :=
  match s with
  | String c s' => if isQuote c then s' else s
  | EmptyString => EmptyString
  end.

(** [.replace(/^[dq sq]|[dq sq]$/g, '')]: one quote is removed at the
    start, and one at the end of what follows it. *)
Definition stripQuotes (s : string) : string :=
  String.rev (dropLeadingQuote (String.rev (dropLeadingQuote s))).

(** ** The text of the completion event *)

(** Modelled from the spec: the text that [streamText] hands to its
    completion callback. The AI SDK, which computes it, is not among the
    sources of the repository; in the spec's streaming pipeline (steps 6
    and 7) the increments are accumulated, in arrival order, into a
    full-text buffer, and that buffer is what is persisted on
    completion. *)
Definition fullTextBuffer (increments : list string) : string :=
  join increments.

(** ** [customStream.start] *)

(** [for await (const chunk of stream)], route.ts 270-276: each increment
    is enqueued as one text-delta. *)
Fixpoint forAwait (messageId : string) (stream : list string)
    (queue : list WireEvent) : list WireEvent :=
  match stream with
  | [] => queue
  | chunk :: rest =>
      forAwait messageId rest (queue ++ [TextDelta messageId chunk])
  end.

(** What is enqueued before the loop: route.ts 261-267. *)
Definition preamble (messageId : string) : list WireEvent :=
  [Start; StartStep; TextStart messageId].

(** What is enqueued after the loop: route.ts 278-285. *)
Definition epilogue (messageId : string) : list WireEvent :=
  [TextEnd messageId; FinishStep; Finish "stop"; EndMarker].

(** ** The chat route: [src/app/api/chat/route.ts] *)

(** [supabase.auth.getUser()] *)
Definition getUser (env : Env) : M (option string) :=
  emit GetUser;; mret (authUser env).

(** route.ts 82-118: save the last message when it is a user message. *)
Definition saveLastUserMessage (env : Env) (uid currentThreadId : string)
    (msgs : list UIMessage) : M unit :=
  match last msgs with
  | Some lastMessage =>
      if bool_decide (role lastMessage = user) then
        count ← countMessages env CountBeforeUser uid currentThreadId;
        let sequenceIndex := default 0 count in
        insertMessage env InsertUser uid
          {| thread_id := currentThreadId;
             m_role := user;
             m_content := extractContent lastMessage;
             model_name := None;
             sequence_index := sequenceIndex |};;
        mret tt
      else mret tt
  | None => mret tt
  end.

(** [generateText({ model: openai("gpt-4o-mini"), prompt })] *)
Definition generateText (env : Env) (modelName prompt : string)
  : M (option string) :=
  emit (GenerateText modelName prompt);; mret (titleText env).

(** route.ts 162-252: the completion callback of [streamText], with the
    [text] of the event it is invoked with. *)
Definition onFinish (env : Env) (uid currentThreadId modelId : string)
    (text : string) : M unit :=
  count ← countMessages env CountBeforeAssistant uid currentThreadId;
  let sequenceIndex := default 0 count in
  insertMessage env InsertAssistant uid
    {| thread_id := currentThreadId;
       m_role := assistant;
       m_content := ContentParts [ {| type := "text"; text := text |} ];
       model_name := Some modelId;
       sequence_index := sequenceIndex |};;
  if bool_decide (sequenceIndex = 1) then
    (* try *)
    firstUserMessage ← selectFirstUserMessage env uid currentThreadId;
    match firstUserMessage with
    | Some c =>
        let userText :=
          match c with
          | ContentParts ps => joinText ps
          | ContentString _ => ""
          end in
        titleResult ← generateText env "gpt-4o-mini"
                        (titlePrompt userText text);
        match titleResult with
        | Some raw =>
            let generatedTitle := stripQuotes (trim raw) in
            updateThread env UpdateTitle uid currentThreadId
              {| set_title := Some generatedTitle;
                 set_model_id := None;
                 set_updated_at := Some (finishDate env) |};;
            mret tt
        | None =>
            (* catch *)
            updateThread env TouchAfterTitleError uid currentThreadId
              {| set_title := None;
                 set_model_id := None;
                 set_updated_at := Some (finishDate env) |};;
            mret tt
        end
    | None => mret tt
    end
  else
    updateThread env TouchThread uid currentThreadId
      {| set_title := None;
         set_model_id := None;
         set_updated_at := Some (finishDate env) |};;
    mret tt.

(** route.ts 148-300: [streamText] is handed the model, the projected
    messages and the completion callback; the SDK invokes the callback
    with the text of its event, or does not; the custom stream drains
    [result.textStream] into the wire events. The calls of the callback
    come after the call to [streamText]; the wire does not depend on
    them. *)
Definition streamResponse (env : Env) (uid currentThreadId modelId : string)
    (model : LanguageModel) (body : RequestBody) : M Response :=
  emit (StreamText model (projectMessages (body_messages body))
                   (body_system body));;
  match onFinishText env with
  | Some text => onFinish env uid currentThreadId modelId text
  | None => mret tt
  end;;
  let messageId := makeMessageId (dateNow env) in
  let queue := forAwait messageId (textStream env) (preamble messageId) in
  match streamError env with
  | Some error => mret (EventStreamResponse queue (Errored error))
  | None => mret (EventStreamResponse (queue ++ epilogue messageId) Closed)
  end.

Definition POST (env : Env) (req : Request) : M Response :=
  authenticated ← getUser env;
  match authenticated with
  | None => mret (JsonResponse 401 "Unauthorized")
  | Some uid =>
      match json req with
      | None => mret (JsonResponse 500 "Internal server error")
      | Some body =>
          match str_or (threadIdFromQuery req) (body_threadId body) with
          | None | Some "" =>
              mret (JsonResponse 400
                      "threadId is required. Create a thread first.")
          | Some currentThreadId =>
              thread ← selectThread env uid currentThreadId;
              match thread with
              | None => mret (JsonResponse 404 "Thread not found")
              | Some t =>
                  let modelId := model_id t in
                  match getModelById modelId with
                  | None =>
                      mret (JsonResponse 400 ("Invalid model: " +:+ modelId))
                  | Some modelConfig =>
                      saveLastUserMessage env uid currentThreadId
                        (body_messages body);;
                      let model := resolveModel modelConfig modelId in
                      streamResponse env uid currentThreadId modelId
                        model body
                  end
              end
          end
      end
  end.

(** ** The thread route: [app/api/threads/[id]/route.ts], PATCH *)

Record PatchBody := {
  patch_title : option string;
  patch_model_id : option string;
}.

Inductive PatchResponse :=
| PatchError (status : nat) (error : string)
| PatchOk (thread : ThreadRow).

(** [.update(updates).eq("id", id).eq("user_id", user.id).select()
     .single()]: an error when the call fails or no row matches. *)
Definition PATCH (env : Env) (threadId : string) (body : PatchBody)
  : M PatchResponse :=
  authenticated ← getUser env;
  match authenticated with
  | None => mret (PatchError 401 "Unauthorized")
  | Some uid =>
      let updates :=
        {| set_title := patch_title body;
           set_model_id := patch_model_id body;
           set_updated_at := None |} in
      match patch_title body, patch_model_id body with
      | None, None => mret (PatchError 400 "No valid fields to update")
      | _, _ =>
          thread ← updateThread env PatchThread uid threadId updates;
          match thread with
          | None => mret (PatchError 500 "update error")
          | Some t => mret (PatchOk t)
          end
      end
  end.

(** ** The client: [handleModelChange] of [chat-interface.tsx] *)

Record ClientState := {
  currentThreadId : option string;
  currentThreadHasMessages : bool;
}.

(** The PATCH request the handler sends, if any: the model of the current
    thread is only written while the client holds it to be empty. *)
Definition handleModelChange (st : ClientState) (newModelId : string)
  : option (string * PatchBody) :=
  match currentThreadId st with
  | Some "" => None
  | Some threadId =>
      if negb (currentThreadHasMessages st)
      then Some (threadId,
                 {| patch_title := None; patch_model_id := Some newModelId |})
      else None
  | None => None
  end.

(** Running a handler from a store, with an empty effect log. *)
Definition run {A} (m : M A) (d : Database) : A * World :=
  m {| db := d; log := [] |}.

(** ** Reading the effect log and the wire *)

(** The request passes the checks of route.ts 21-77: the user is
    authenticated, the body parses, a thread id is given, the thread is
    found for that user, and its model is in the registry. *)
Record ValidRequest (env : Env) (req : Request) (d : Database)
    (uid tid : string) (body : RequestBody) (t : ThreadRow)
    (cfg : ModelConfig) : Prop := {
  valid_auth : authUser env = Some uid;
  valid_json : json req = Some body;
  valid_threadId :
    str_or (threadIdFromQuery req) (body_threadId body) = Some tid;
  valid_nonempty : tid ≠ "";
  valid_fetch : fetchThread env d uid tid = Some t;
  valid_model : getModelById (model_id t) = Some cfg;
}.

(** The rows of the insert calls of a log, with the store's answer. *)
Definition inserts (l : list Effect) : list (MessageRow * bool) :=
  omap (λ e, match e with
             | InsertMessage row ok => Some (row, ok)
             | _ => None
             end) l.

(** The insert calls for a given role. *)
Definition insertsAs (r : Role) (l : list Effect) : list (MessageRow * bool) :=
  filter (λ x, m_role x.1 = r) (inserts l).

Definition isStreamText (e : Effect) : bool :=
  match e with StreamText _ _ _ => true | _ => false end.

Definition isGenerateText (e : Effect) : bool :=
  match e with GenerateText _ _ => true | _ => false end.

(** The calls to the provider and to the title model in a log. *)
Definition providerCalls (l : list Effect) : list Effect :=
  filter (λ e, isStreamText e = true) l.

Definition titleCalls (l : list Effect) : list Effect :=
  filter (λ e, isGenerateText e = true) l.

(** The delta payloads of the text-delta events, in emission order. *)
Definition deltas (events : list WireEvent) : list string :=
  omap (λ e, match e with TextDelta _ delta => Some delta | _ => None end)
       events.

(** The message ids carried by text-start, text-delta and text-end. *)
Definition messageIds (events : list WireEvent) : list string :=
  omap (λ e, match e with
             | TextStart i | TextDelta i _ | TextEnd i => Some i
             | _ => None
             end) events.

Definition isTextStart (e : WireEvent) : bool :=
  match e with TextStart _ => true | _ => false end.

Definition isTextEnd (e : WireEvent) : bool :=
  match e with TextEnd _ => true | _ => false end.

(** text-end, finish-step, finish and the end marker. *)
Definition isClosing (e : WireEvent) : bool :=
  match e with
  | TextEnd _ | FinishStep | Finish _ | EndMarker => true
  | _ => false
  end.

(** The world when the provider is about to be called. *)
Definition beforeProvider (env : Env) (d : Database) (uid tid : string)
    (body : RequestBody) : World :=
  (saveLastUserMessage env uid tid (body_messages body)
     {| db := d; log := [GetUser; SelectThread tid] |}).2.

(** The response of a request that reaches the provider: the opening
    events, one text-delta per increment, and the closing events unless
    the text stream raised. *)
Definition wire (env : Env) : Response :=
  let i := makeMessageId (dateNow env) in
  match streamError env with
  | Some error =>
      EventStreamResponse (preamble i ++ (TextDelta i <$> textStream env))
                          (Errored error)
  | None =>
      EventStreamResponse
        (preamble i ++ (TextDelta i <$> textStream env) ++ epilogue i) Closed
  end.

(** The row written for the last user message, given the count read. *)
Definition userRow (tid : string) (lastMessage : UIMessage)
    (count : option nat) : MessageRow :=
  {| thread_id := tid;
     m_role := user;
     m_content := extractContent lastMessage;
     model_name := None;
     sequence_index := default 0 count |}.

(** The row written for the assistant, given the count read. *)
Definition assistantRow (tid modelId text : string)
    (count : option nat) : MessageRow :=
  {| thread_id := tid;
     m_role := assistant;
     m_content := ContentParts [ {| type := "text"; text := text |} ];
     model_name := Some modelId;
     sequence_index := default 0 count |}.

(** The update that only carries the timestamp. *)
Definition touch (env : Env) : ThreadUpdate :=
  {| set_title := None;
     set_model_id := None;
     set_updated_at := Some (finishDate env) |}.

(** The update that carries the generated title. *)
Definition retitle (env : Env) (raw : string) : ThreadUpdate :=
  {| set_title := Some (stripQuotes (trim raw));
     set_model_id := None;
     set_updated_at := Some (finishDate env) |}.

(** The text of the first user message, as the title prompt reads it. *)
Definition userTextOf (c : Content) : string :=
  match c with
  | ContentParts ps => joinText ps
  | ContentString _ => ""
  end.

(** [lastMessage && lastMessage.role === "user"] *)
Definition lastIsUser (msgs : list UIMessage) : bool :=
  match last msgs with
  | Some lastMessage => bool_decide (role lastMessage = user)
  | None => false
  end.

(** The four ways the completion callback ends once the assistant row is
    written: the calls that follow the insert, from store [d] with the
    sequence number [seq] the row received, and the store they leave. *)
Inductive Completion (env : Env) (uid tid text : string)
    (d : Database) (seq : nat) : list Effect → Database → Prop :=
| CompletionTouch :
    seq ≠ 1 →
    Completion env uid tid text d seq
      [UpdateThread tid (touch env) (negb (storeFails env TouchThread))]
      (writeThread d tid (updatedRow env TouchThread d uid tid (touch env)))
| CompletionNoUserMessage :
    seq = 1 →
    firstUserContent env d uid tid = None →
    Completion env uid tid text d seq [SelectFirstUserMessage tid] d
| CompletionTitle (c : Content) (raw : string) :
    seq = 1 →
    firstUserContent env d uid tid = Some c →
    titleText env = Some raw →
    Completion env uid tid text d seq
      [SelectFirstUserMessage tid;
       GenerateText "gpt-4o-mini" (titlePrompt (userTextOf c) text);
       UpdateThread tid (retitle env raw)
         (negb (storeFails env UpdateTitle))]
      (writeThread d tid
         (updatedRow env UpdateTitle d uid tid (retitle env raw)))
| CompletionTitleError (c : Content) :
    seq = 1 →
    firstUserContent env d uid tid = Some c →
    titleText env = None →
    Completion env uid tid text d seq
      [SelectFirstUserMessage tid;
       GenerateText "gpt-4o-mini" (titlePrompt (userTextOf c) text);
       UpdateThread tid (touch env)
         (negb (storeFails env TouchAfterTitleError))]
      (writeThread d tid
         (updatedRow env TouchAfterTitleError d uid tid (touch env))).

(** Running a handler from a store: the world it leaves, and its store. *)
Definition worldAfter {A} (m : M A) (d : Database) : World := (run m d).2.

Definition after {A} (m : M A) (d : Database) : Database :=
  db (worldAfter m d).

(** The spec's sentence on the model name of the assistant turn (C9):
    the model name of every assistant row written by the request is the
    name the provider was called with. *)
Definition ModelNameIsConcreteName (env : Env) (req : Request)
    (d : Database) : Prop :=
  ∀ (row : MessageRow) (ok : bool) (model : LanguageModel)
    (msgs : list (Role * string)) (sys : option string),
    In (InsertMessage row ok) (log (worldAfter (POST env req) d)) →
    m_role row = assistant →
    In (StreamText model msgs sys) (log (worldAfter (POST env req) d)) →
    JsString <$> model_name row = Some (concreteName model).

(** The spec's sentence on title synthesis (C6): the title model is
    called exactly when the assistant row written by the request received
    sequence number 1. *)
Definition TitleIffSequenceOne (env : Env) (req : Request)
    (d : Database) : Prop :=
  ∀ (row : MessageRow) (ok : bool),
    In (InsertMessage row ok) (log (worldAfter (POST env req) d)) →
    m_role row = assistant →
    (titleCalls (log (worldAfter (POST env req) d)) ≠ []
     ↔ sequence_index row = 1).

(** The spec's model-locking invariant (C8): an operation leaves the
    model of every thread that has a message as it was. *)
Definition ModelLocked {A} (operation : M A) (d : Database) : Prop :=
  ∀ (tid : string) (t : ThreadRow),
    threads d !! tid = Some t →
    messagesOf d tid ≠ [] →
    model_id <$> threads (after operation d) !! tid = Some (model_id t).

(** ** Concrete stores, environments and requests *)

Definition alice : string := "user-alice".

(** The registry entries of gpt-4o and haiku-4-5. *)
Definition gpt_4o : ModelConfig :=
  {| id := "gpt-4o";
     name := "GPT-4o";
     provider := openai;
     description :=
       "Most capable OpenAI model with vision and advanced reasoning" |}.

Definition haiku_4_5 : ModelConfig :=
  {| id := "haiku-4-5";
     name := "Claude Haiku 4.5";
     provider := anthropic;
     description := "Fast and efficient Claude model for quick responses" |}.

Definition thread_with (modelId : string) : ThreadRow :=
  {| user_id := alice; title := "New Chat"; model_id := modelId;
     updated_at := 0%N |}.

(** One empty thread [t1] on the given model. *)
Definition db_fresh (modelId : string) : Database :=
  {| threads := {[ "t1" := thread_with modelId ]}; messages := [] |}.

(** Every collaborator answers; the text stream yields two increments and
    the callback is invoked with their concatenation. *)
Definition env_ok : Env :=
  {| authUser := Some alice;
     storeFails := λ _, false;
     dateNow := 1700000000000%N;
     finishDate := 1700000002000%N;
     dbNow := 1700000002001%N;
     textStream := ["Hel"; "lo"];
     streamError := None;
     onFinishText := Some "Hello";
     titleText := Some "Greeting" |}.

(** The text stream raises after its two increments, and the callback is
    not invoked. *)
Definition env_provider_error : Env :=
  {| authUser := Some alice;
     storeFails := λ _, false;
     dateNow := 1700000000000%N;
     finishDate := 1700000002000%N;
     dbNow := 1700000002001%N;
     textStream := ["Hel"; "lo"];
     streamError := Some "ProviderError";
     onFinishText := None;
     titleText := Some "Greeting" |}.

(** The title model throws. *)
Definition env_title_error : Env :=
  {| authUser := Some alice;
     storeFails := λ _, false;
     dateNow := 1700000000000%N;
     finishDate := 1700000002000%N;
     dbNow := 1700000002001%N;
     textStream := ["Hel"; "lo"];
     streamError := None;
     onFinishText := Some "Hello";
     titleText := None |}.

Definition hi : UIMessage :=
  {| role := user;
     parts := Some [ {| type := "text"; text := "Hi" |} ];
     content := None |}.

Definition body_hi : RequestBody :=
  {| body_messages := [hi]; body_system := None; body_threadId := None |}.

(** [POST /api/chat?threadId=t1] with one user message. *)
Definition req_hi : Request :=
  {| threadIdFromQuery := Some "t1"; json := Some body_hi |}.

Definition hello : UIMessage :=
  {| role := assistant;
     parts := Some [ {| type := "text"; text := "Hello" |} ];
     content := None |}.

Definition body_replay : RequestBody :=
  {| body_messages := [hi; hello]; body_system := None;
     body_threadId := None |}.

(** [POST /api/chat?threadId=t1] with a history that ends in an assistant
    message. *)
Definition req_replay : Request :=
  {| threadIdFromQuery := Some "t1"; json := Some body_replay |}.


(** A thread whose only row is an assistant row: the store after one chat
    call with that history on the fresh thread. *)
Definition db_assistant_only : Database :=
  after (POST env_ok req_replay) (db_fresh "gpt-4o").

(** The store after one exchange on the fresh thread. *)
Definition db_one_exchange : Database :=
  after (POST env_ok req_hi) (db_fresh "gpt-4o").

(** ** Further readings of the log and the store *)

(** The thread updates of a log. *)
Definition updates (l : list Effect) : list (string * ThreadUpdate) :=
  omap (λ e, match e with
             | UpdateThread tid u _ => Some (tid, u)
             | _ => None
             end) l.

(** The rows of a thread carry the sequence numbers 0, 1, 2, ... in
    insertion order. *)
Definition WellSequenced (d : Database) (tid : string) : Prop :=
  sequence_index <$> messagesOf d tid = seq 0 (length (messagesOf d tid)).

(** Nobody is signed in. *)
Definition env_anonymous : Env :=
  {| authUser := None;
     storeFails := λ _, false;
     dateNow := 1700000000000%N;
     finishDate := 1700000002000%N;
     dbNow := 1700000002001%N;
     textStream := ["Hel"; "lo"];
     streamError := None;
     onFinishText := Some "Hello";
     titleText := Some "Greeting" |}.

(** The count before the assistant insert fails; all else answers. *)
Definition env_count_error : Env :=
  {| authUser := Some alice;
     storeFails := λ call,
       match call with CountBeforeAssistant => true | _ => false end;
     dateNow := 1700000000000%N;
     finishDate := 1700000002000%N;
     dbNow := 1700000002001%N;
     textStream := ["Hel"; "lo"];
     streamError := None;
     onFinishText := Some "Hello";
     titleText := Some "Greeting" |}.

(** U+00A0 and U+3000 in UTF-8. *)
Definition noBreakSpace : string :=
  String (ascii_of_nat 194) (String (ascii_of_nat 160) "").

Definition ideographicSpace : string :=
  String (ascii_of_nat 227)
    (String (ascii_of_nat 128) (String (ascii_of_nat 128) "")).

(** The title model answers with a quoted title, padded with a no-break
    space, spaces and an ideographic space. *)
Definition env_quoted_title : Env :=
  {| authUser := Some alice;
     storeFails := λ _, false;
     dateNow := 1700000000000%N;
     finishDate := 1700000002000%N;
     dbNow := 1700000002001%N;
     textStream := ["Hel"; "lo"];
     streamError := None;
     onFinishText := Some "Hello";
     titleText :=
       Some (noBreakSpace +:+ " 'Greeting' " +:+ ideographicSpace) |}.

Definition bob : string := "user-bob".

(** Thread [t1] belongs to bob. *)
Definition db_of_bob : Database :=
  {| threads := {[ "t1" := {| user_id := bob; title := "New Chat";
                              model_id := "gpt-4o"; updated_at := 0%N |} ]};
     messages := [] |}.

(** No thread at all. *)
Definition db_empty : Database := {| threads := ∅; messages := [] |}.

(** ** The thread routes: [app/api/threads/route.ts],
       [app/api/threads/[id]/route.ts],
       [app/api/threads/[id]/messages/route.ts] and
       [app/api/threads/cleanup/route.ts] *)

(** The store calls of these routes, by call site. *)
Inductive ThreadsCall :=
| ListThreads                       (* threads/route.ts 18-22 *)
| CreateThread                      (* threads/route.ts 51-59 *)
| ReadThread                        (* threads/[id]/route.ts 29-34 *)
| DeleteThread                      (* threads/[id]/route.ts 60-64 *)
| VerifyThread                      (* messages/route.ts 22-27 *)
| ListMessages                      (* messages/route.ts 34-38 *)
| CleanupList                       (* cleanup/route.ts 19-22 *)
| CleanupCount (threadId : string)  (* cleanup/route.ts 36-39 *)
| CleanupDelete.                    (* cleanup/route.ts 48-51 *)

Record ThreadsEnv := {
  (** [supabase.auth.getUser()]: [None] on [authError] or a missing user *)
  signedIn : option string;
  (** whether the store answers this call with an error ... *)
  callFails : ThreadsCall → bool;
  (** ... and the [error.message] it gives then, or when [.single()]
      finds no row *)
  storeMessage : ThreadsCall → string;
  (** [uuid_generate_v4()], the default of [threads.id] *)
  newThreadId : string;
  (** [NOW()], the default of [threads.updated_at] *)
  insertedAt : N;
}.

Inductive ApiResponse (A : Type) :=
| ApiError (status : nat) (error : string)
| ApiData (data : A).

Arguments ApiError {A} status error.
Arguments ApiData {A} data.

(** [a || b] with a string default. *)
Definition str_or_default (a : option string) (b : string) : string :=
  match a with
  | Some s => if bool_decide (s = "") then b else s
  | None => b
  end.

(** The threads of a user, as [.eq("user_id", user.id)] selects them. *)
Definition ownThreads (d : Database) (uid : string)
  : list (string * ThreadRow) :=
  filter (λ kt, user_id kt.2 = uid) (map_to_list (threads d)).

(** [.order("updated_at", { ascending: false })] *)
Definition newestFirst (x y : string * ThreadRow) : Prop :=
  (updated_at y.2 ≤ updated_at x.2)%N.

#[global] Instance newestFirst_dec : RelDecision newestFirst.
Proof. intros x y. unfold newestFirst. apply _. Defined.

(** [.order("sequence_index", { ascending: true })] *)
Definition bySequence (x y : MessageRow) : Prop :=
  (sequence_index x ≤ sequence_index y)%nat.

#[global] Instance bySequence_dec : RelDecision bySequence.
Proof. intros x y. unfold bySequence. apply _. Defined.

(** GET /api/threads: the caller's threads that have a message, newest
    first. The embedded [messages(count)] of a thread is the number of
    its rows. *)
Definition threads_GET (tenv : ThreadsEnv) (d : Database)
  : ApiResponse (list (string * ThreadRow)) :=
  match signedIn tenv with
  | None => ApiError 401 "Unauthorized"
  | Some uid =>
      if callFails tenv ListThreads
      then ApiError 500 (storeMessage tenv ListThreads)
      else
        let threads := merge_sort newestFirst (ownThreads d uid) in
        let threadsWithMessages :=
          filter (λ kt, (0 < length (messagesOf d kt.1))%nat) threads in
        ApiData threadsWithMessages
  end.

Record CreateBody := {
  new_title : option string;
  new_model_id : option string;
}.

(** POST /api/threads: [id] is the primary key, so the insert fails when
    the generated id is taken. *)
Definition threads_POST (tenv : ThreadsEnv) (body : CreateBody)
    (d : Database) : ApiResponse ThreadRow * Database :=
  match signedIn tenv with
  | None => (ApiError 401 "Unauthorized", d)
  | Some uid =>
      let thread :=
        {| user_id := uid;
           title := str_or_default (new_title body) "New Chat";
           model_id := str_or_default (new_model_id body) "gpt-4o";
           updated_at := insertedAt tenv |} in
      if callFails tenv CreateThread
      then (ApiError 500 (storeMessage tenv CreateThread), d)
      else
        match threads d !! newThreadId tenv with
        | Some _ => (ApiError 500 (storeMessage tenv CreateThread), d)
        | None =>
            (ApiData thread,
             {| threads := <[newThreadId tenv := thread]> (threads d);
                messages := messages d |})
        end
  end.

(** GET /api/threads/[id] *)
Definition thread_GET (tenv : ThreadsEnv) (threadId : string) (d : Database)
  : ApiResponse ThreadRow :=
  match signedIn tenv with
  | None => ApiError 401 "Unauthorized"
  | Some uid =>
      if callFails tenv ReadThread
      then ApiError 404 (storeMessage tenv ReadThread)
      else
        match threads d !! threadId with
        | Some t =>
            if bool_decide (user_id t = uid) then ApiData t
            else ApiError 404 (storeMessage tenv ReadThread)
        | None => ApiError 404 (storeMessage tenv ReadThread)
        end
  end.

(** [.from("threads").delete()] on the ids given, for the rows the user
    owns; [ON DELETE CASCADE] removes the messages of the deleted
    threads. *)
Definition deleteOwned (d : Database) (uid : string) (ids : list string)
  : Database :=
  {| threads :=
       filter (λ kt, ¬ (kt.1 ∈ ids ∧ user_id kt.2 = uid)) (threads d);
     messages :=
       filter (λ m, ¬ (thread_id m ∈ ids
                       ∧ ownsThread d uid (thread_id m) = true))
              (messages d) |}.

(** DELETE /api/threads/[id]: a delete that matches no row is no error. *)
Definition thread_DELETE (tenv : ThreadsEnv) (threadId : string)
    (d : Database) : ApiResponse unit * Database :=
  match signedIn tenv with
  | None => (ApiError 401 "Unauthorized", d)
  | Some uid =>
      if callFails tenv DeleteThread
      then (ApiError 500 (storeMessage tenv DeleteThread), d)
      else (ApiData tt, deleteOwned d uid [threadId])
  end.

(** GET /api/threads/[id]/messages *)
Definition messages_GET (tenv : ThreadsEnv) (threadId : string)
    (d : Database) : ApiResponse (list MessageRow) :=
  match signedIn tenv with
  | None => ApiError 401 "Unauthorized"
  | Some uid =>
      if callFails tenv VerifyThread || negb (ownsThread d uid threadId)
      then ApiError 404 "Thread not found"
      else if callFails tenv ListMessages
      then ApiError 500 (storeMessage tenv ListMessages)
      else ApiData (merge_sort bySequence (messagesOf d threadId))
  end.

(** The loop of cleanup/route.ts 35-44: a thread is collected when its
    count is read without error and is 0. *)
Definition collectEmpty (tenv : ThreadsEnv) (d : Database)
    (allThreads : list string) : list string :=
  filter (λ threadId, callFails tenv (CleanupCount threadId) = false
                      ∧ length (messagesOf d threadId) = 0)
         allThreads.

(** POST /api/threads/cleanup *)
Definition cleanup_POST (tenv : ThreadsEnv) (d : Database)
  : ApiResponse nat * Database :=
  match signedIn tenv with
  | None => (ApiError 401 "Unauthorized", d)
  | Some uid =>
      if callFails tenv CleanupList
      then (ApiError 500 (storeMessage tenv CleanupList), d)
      else
        let allThreads := (ownThreads d uid).*1 in
        match allThreads with
        | [] => (ApiData 0, d)
        | _ =>
            let emptyThreadIds := collectEmpty tenv d allThreads in
            match emptyThreadIds with
            | [] => (ApiData 0, d)
            | _ =>
                if callFails tenv CleanupDelete
                then (ApiError 500 (storeMessage tenv CleanupDelete), d)
                else (ApiData (length emptyThreadIds),
                      deleteOwned d uid emptyThreadIds)
            end
        end
  end.

(** ** Environment variables: [web/src/lib/env.ts] *)

Definition REQUIRED_ENV_VARS : list string :=
  [ "NEXT_PUBLIC_SUPABASE_URL";
    "NEXT_PUBLIC_SUPABASE_PUBLISHABLE_KEY";
    "SUPABASE_SECRET_KEY" ].

(** [keys.map((key) => ...)]: the callback throws at the first key whose
    value is missing or empty. *)
Fixpoint readEntries (processEnv : gmap string string) (keys : list string)
  : string + list (string * string) :=
  match keys with
  | [] => inr []
  | key :: rest =>
      match processEnv !! key with
      | Some (String c v) =>
          match readEntries processEnv rest with
          | inr entries => inr ((key, String c v) :: entries)
          | inl thrown => inl thrown
          end
      | _ => inl ("Missing required environment variable: " +:+ key)
      end
  end.

(** [readEnv()]: the thrown message, or [Object.fromEntries(entries)]. *)
Definition readEnv (processEnv : gmap string string)
  : string + gmap string string :=
  match readEntries processEnv REQUIRED_ENV_VARS with
  | inr entries => inr (list_to_map entries)
  | inl thrown => inl thrown
  end.

(** ** The chat thread of the client: [components/chat-thread.tsx] *)

(** [MyMessage]: every content item is [{ type: "text", text }], kept
    here as its text. *)
Record MyMessage := {
  my_role : Role;
  my_content : list string;
}.

(** [loadHistory], lines 547-569: a stored row as the client holds it. *)
Definition loadedMessage (m : MessageRow) : MyMessage :=
  {| my_role := m_role m;
     my_content :=
       match m_content m with
       | ContentParts ps => text <$> ps
       | ContentString s => [s]
       end |}.

(** The [parts] sent for a message: [m.content]. *)
Definition textParts (texts : list string) : list Part :=
  (λ s, {| type := "text"; text := s |}) <$> texts.

(** [{ id: m.id, role: m.role, parts: m.content }] *)
Definition payloadMessage (m : MyMessage) : UIMessage :=
  {| role := my_role m;
     parts := Some (textParts (my_content m));
     content := None |}.

(** [onNew], lines 373-407: the messages sent to the chat route for a new
    message with the given content items; the thrown message when the
    first item is not text. [currentMessages] starts empty and is assigned
    inside the updater handed to [setMessages], which React calls with the
    messages held, either at once or at the next render: [held] is
    [Some prev] when the updater has run by the time the payload is built,
    and [None] when it has not. *)
Definition onNew_payload (held : option (list MyMessage))
    (items : list Part) : string + list UIMessage :=
  match items with
  | first :: _ =>
      if bool_decide (type first = "text") then
        let userMessage :=
          {| my_role := user;
             my_content :=
               (λ c, if bool_decide (type c = "text") then text c else "")
                 <$> items |} in
        let currentMessages :=
          match held with
          | Some prev => prev ++ [userMessage]
          | None => []
          end in
        inr (payloadMessage <$> currentMessages)
      else inl "Only text messages are supported"
  | [] => inl "Only text messages are supported"
  end.

(** ** Concrete inputs for the thread routes *)

(** alice is signed in and every call is answered. *)
Definition tenv_alice : ThreadsEnv :=
  {| signedIn := Some alice;
     callFails := λ _, false;
     storeMessage := λ _, "store error";
     newThreadId := "t9";
     insertedAt := 1700000003000%N |}.

(** Thread [t1] of alice with two rows, thread [t2] of alice without
    rows, thread [t3] of bob without rows. *)
Definition db_three_threads : Database :=
  {| threads :=
       <[ "t3" := {| user_id := bob; title := "New Chat";
                     model_id := "gpt-4o"; updated_at := 5%N |} ]>
       (<[ "t2" := {| user_id := alice; title := "New Chat";
                      model_id := "gpt-4o"; updated_at := 7%N |} ]>
        (threads (after (POST env_ok req_hi) (db_fresh "gpt-4o"))));
     messages := messages (after (POST env_ok req_hi) (db_fresh "gpt-4o")) |}.

(** ** Proof steps for the state-passing handlers *)

Ltac simpl_world := cbn [db log threads messages fst snd].

Ltac unfold_M :=
  unfold mbind, mret, M_bind, M_ret, emit, getDb, putDb; simpl_world.

(** ** Strings and the stream loop *)

Lemma append_nil_r (s : string) : s +:+ "" = s.
Proof.
  induction s as [|c s IH]; [done |].
  change (String c (s +:+ "") = String c s). by f_equal.
Qed.

Lemma append_assoc (s1 s2 s3 : string) :
  (s1 +:+ s2) +:+ s3 = s1 +:+ (s2 +:+ s3).
Proof.
  induction s1 as [|c s1 IH]; [done |].
  change (String c ((s1 +:+ s2) +:+ s3) = String c (s1 +:+ (s2 +:+ s3))).
  by f_equal.
Qed.

Lemma deltas_app (l1 l2 : list WireEvent) :
  deltas (l1 ++ l2) = deltas l1 ++ deltas l2.
Proof. unfold deltas. apply omap_app. Qed.

Lemma deltas_TextDelta (i : string) (chunks : list string) :
  deltas (TextDelta i <$> chunks) = chunks.
Proof. induction chunks as [|c l IH]; simpl; [done | by f_equal]. Qed.

Lemma deltas_stream (i : string) (chunks : list string) :
  deltas (preamble i ++ (TextDelta i <$> chunks) ++ epilogue i) = chunks.
Proof.
  rewrite !deltas_app, deltas_TextDelta. simpl. by rewrite app_nil_r.
Qed.

(** The loop appends one text-delta per increment to the queue, in
    order. *)
Lemma forAwait_spec (i : string) (stream : list string) :
  ∀ queue : list WireEvent,
    forAwait i stream queue = queue ++ (TextDelta i <$> stream).
Proof.
  induction stream as [|chunk rest IH]; intros queue.
  - by rewrite app_nil_r.
  - cbn [forAwait]. rewrite IH, fmap_cons. by rewrite <- app_assoc.
Qed.

(** ** The registry *)

Lemma getModelById_Some (i : string) (c : ModelConfig) :
  getModelById i = Some c → In c AVAILABLE_MODELS ∧ id c = i.
Proof.
  unfold getModelById. intros H. apply find_some in H as [Hin Hid].
  split; [done | by apply bool_decide_eq_true in Hid].
Qed.

(** No registry id names a member of [Object.prototype]. *)
Lemma registry_ids_plain (i : string) (c : ModelConfig) :
  getModelById i = Some c → i ∉ objectPrototypeMembers.
Proof.
  intros H. apply getModelById_Some in H as [Hin <-].
  simpl in Hin.
  repeat (destruct Hin as [<- | Hin];
          [cbn [id]; compute_done |]).
  destruct Hin.
Qed.

(** Outside [Object.prototype], a key the anthropic map lacks falls back
    to the default name. *)
Lemma resolve_anthropic_default (cfg : ModelConfig) (i : string) :
  provider cfg = anthropic →
  ownProperty anthropicModelMap i = None →
  i ∉ objectPrototypeMembers →
  resolveModel cfg i = AnthropicModel (JsString "claude-3-5-haiku-20241022").
Proof.
  intros Hp Hown Hplain. unfold resolveModel, js_get. rewrite Hp, Hown.
  by rewrite bool_decide_eq_false_2.
Qed.

Lemma resolve_openai_default (cfg : ModelConfig) (i : string) :
  provider cfg ≠ anthropic →
  provider cfg ≠ openrouter →
  ownProperty openaiModelMap i = None →
  i ∉ objectPrototypeMembers →
  resolveModel cfg i = OpenAIModel (JsString "gpt-4o").
Proof.
  intros Hp1 Hp2 Hown Hplain. unfold resolveModel, js_get.
  destruct (provider cfg); [| done | done].
  rewrite Hown. by rewrite bool_decide_eq_false_2.
Qed.

Lemma resolve_openrouter_verbatim (cfg : ModelConfig) (i : string) :
  provider cfg = openrouter →
  resolveModel cfg i = OpenRouterModel (JsString i).
Proof. intros Hp. unfold resolveModel. by rewrite Hp. Qed.

(** The anthropic and openai branches are not the identity on ids. *)
Lemma resolve_not_verbatim (cfg : ModelConfig) :
  provider cfg ≠ openrouter →
  concreteName (resolveModel cfg "haiku-4-5") ≠ JsString "haiku-4-5".
Proof.
  intros Hp. unfold resolveModel.
  destruct (provider cfg); [| | done]; vm_compute; discriminate.
Qed.

(** C10. Resolution never fails: for every model id of the registry it
    yields a model name, and no registry id names a member of
    Object.prototype. For any configuration and any id: under provider
    anthropic, an id that is no key of the anthropic map (and no member
    of Object.prototype) defaults to claude-3-5-haiku-20241022; under a
    provider that is neither anthropic nor openrouter, an id that is no
    key of the openai map (and no member of Object.prototype) defaults to
    gpt-4o; under openrouter the id is handed on verbatim, and openrouter
    is the only provider whose branch hands every id on verbatim. *)
Theorem C10_resolution_total_with_defaults
    (modelId : string) (modelConfig : ModelConfig) :
  (getModelById modelId = Some modelConfig →
   (modelId ∉ objectPrototypeMembers)
   ∧ ∃ modelName : string,
       concreteName (resolveModel modelConfig modelId) = JsString modelName)
  ∧ (provider modelConfig = anthropic →
     ownProperty anthropicModelMap modelId = None →
     modelId ∉ objectPrototypeMembers →
     resolveModel modelConfig modelId
       = AnthropicModel (JsString "claude-3-5-haiku-20241022"))
  ∧ (provider modelConfig ≠ anthropic →
     provider modelConfig ≠ openrouter →
     ownProperty openaiModelMap modelId = None →
     modelId ∉ objectPrototypeMembers →
     resolveModel modelConfig modelId = OpenAIModel (JsString "gpt-4o"))
  ∧ (provider modelConfig = openrouter →
     resolveModel modelConfig modelId = OpenRouterModel (JsString modelId))
  ∧ ((∀ anyId : string,
        concreteName (resolveModel modelConfig anyId) = JsString anyId)
     ↔ provider modelConfig = openrouter).
Proof.
  split; [| split; [| split; [| split]]].
  - intros Hreg. split; [by eapply registry_ids_plain |].
    apply getModelById_Some in Hreg as [Hin <-]. simpl in Hin.
    repeat (destruct Hin as [<- | Hin]; [by eexists; vm_compute |]).
    destruct Hin.
  - apply resolve_anthropic_default.
  - apply resolve_openai_default.
  - apply resolve_openrouter_verbatim.
  - split.
    + intros Hall. destruct (decide (provider modelConfig = openrouter)) as [|Hp];
        [done |]. destruct (resolve_not_verbatim _ Hp (Hall _)).
    + intros Hp anyId. by rewrite resolve_openrouter_verbatim.
Qed.

(** Two ids the maps lack: one under the anthropic entry of the registry,
    one under its gpt-4o entry. *)
Lemma C10_witness :
  resolveModel haiku_4_5 "claude-opus-4"
    = AnthropicModel (JsString "claude-3-5-haiku-20241022")
  ∧ resolveModel gpt_4o "gpt-5" = OpenAIModel (JsString "gpt-4o").
Proof.
  split.
  - destruct (C10_resolution_total_with_defaults "claude-opus-4" haiku_4_5)
      as (_ & Hdefault & _).
    apply Hdefault; [reflexivity | reflexivity | compute_done].
  - destruct (C10_resolution_total_with_defaults "gpt-5" gpt_4o)
      as (_ & _ & Hdefault & _).
    apply Hdefault; [discriminate | discriminate | reflexivity | compute_done].
Defined.

(** ** The checks in front of the pipeline *)

(** A request that passes the checks runs the pipeline proper, after the
    auth call and the thread fetch. *)
Lemma POST_valid (env : Env) (req : Request) (w : World)
    (uid tid : string) (body : RequestBody) (t : ThreadRow)
    (cfg : ModelConfig) :
  ValidRequest env req (db w) uid tid body t cfg →
  POST env req w =
    (saveLastUserMessage env uid tid (body_messages body);;
     streamResponse env uid tid (model_id t)
       (resolveModel cfg (model_id t)) body)
      {| db := db w; log := log w ++ [GetUser; SelectThread tid] |}.
Proof.
  intros [Hauth Hjson Htid Hne Hfetch Hmodel].
  unfold POST, getUser, selectThread. unfold_M.
  rewrite Hauth, Hjson, Htid.
  destruct tid as [|c tid']; [done |]. simpl_world.
  rewrite Hfetch, Hmodel. by rewrite <- app_assoc.
Qed.

(** ** The phases of the pipeline, as equations on the world *)

Lemma saveLastUserMessage_user (env : Env) (uid tid : string)
    (msgs : list UIMessage) (lastMessage : UIMessage) (w : World) :
  last msgs = Some lastMessage →
  role lastMessage = user →
  let count := countRows env CountBeforeUser (db w) uid tid in
  let row := userRow tid lastMessage count in
  let ok := insertAccepted env InsertUser (db w) uid row in
  saveLastUserMessage env uid tid msgs w =
    (tt, {| db := insertRow (db w) row ok;
            log := log w ++ [CountMessages tid count; InsertMessage row ok] |}).
Proof.
  intros Hlast Hrole. unfold saveLastUserMessage, countMessages, insertMessage.
  rewrite Hlast, bool_decide_eq_true_2 by done. unfold_M.
  by rewrite <- app_assoc.
Qed.

Lemma saveLastUserMessage_other (env : Env) (uid tid : string)
    (msgs : list UIMessage) (w : World) :
  lastIsUser msgs = false →
  saveLastUserMessage env uid tid msgs w = (tt, w).
Proof.
  unfold lastIsUser, saveLastUserMessage. intros H.
  destruct (last msgs) as [m|]; [| done]. by rewrite H.
Qed.

(** The response is the wire, whatever the callback does; the world is
    the one the callback leaves when the SDK invokes it. *)
Lemma streamResponse_spec (env : Env) (uid tid modelId : string)
    (model : LanguageModel) (body : RequestBody) (w : World) :
  let w1 := {| db := db w;
               log := log w ++ [StreamText model
                                  (projectMessages (body_messages body))
                                  (body_system body)] |} in
  streamResponse env uid tid modelId model body w =
    (wire env,
     match onFinishText env with
     | Some text => (onFinish env uid tid modelId text w1).2
     | None => w1
     end).
Proof.
  unfold streamResponse, wire. unfold_M. rewrite forAwait_spec.
  destruct (onFinishText env) as [text|].
  - destruct (onFinish _ _ _ _ _ _) as [[] w']. cbn [snd].
    destruct (streamError env); by rewrite <- ?app_assoc.
  - destruct (streamError env); by rewrite <- ?app_assoc.
Qed.

(** The completion callback counts, inserts the assistant row, and ends in
    one of the four ways of [Completion]. *)
Lemma onFinish_spec (env : Env) (uid tid modelId text : string)
    (w : World) :
  let count := countRows env CountBeforeAssistant (db w) uid tid in
  let row := assistantRow tid modelId text count in
  let ok := insertAccepted env InsertAssistant (db w) uid row in
  ∃ (tail : list Effect) (d' : Database),
    Completion env uid tid text (insertRow (db w) row ok)
               (sequence_index row) tail d'
    ∧ onFinish env uid tid modelId text w =
        (tt, {| db := d';
                log := log w
                       ++ [CountMessages tid count; InsertMessage row ok]
                       ++ tail |}).
Proof.
  intros count row ok.
  unfold onFinish, countMessages, insertMessage, selectFirstUserMessage,
    generateText, updateThread. unfold_M.
  fold count. change {| thread_id := tid; m_role := assistant;
                        m_content := _; model_name := _;
                        sequence_index := _ |} with row.
  fold ok. set (d1 := insertRow (db w) row ok).
  destruct (decide (default 0 count = 1)) as [Hseq | Hseq].
  - rewrite bool_decide_eq_true_2 by done. simpl_world.
    destruct (firstUserContent env d1 uid tid) as [c|] eqn:Hfirst.
    + destruct (titleText env) as [raw|] eqn:Htitle; simpl_world.
      * eexists _, _. split; [by eapply CompletionTitle |].
        rewrite <- !app_assoc. reflexivity.
      * eexists _, _. split; [by eapply CompletionTitleError |].
        rewrite <- !app_assoc. reflexivity.
    + eexists _, _. split; [by eapply CompletionNoUserMessage |].
      rewrite <- !app_assoc. reflexivity.
  - rewrite bool_decide_eq_false_2 by done. simpl_world.
    eexists _, _. split; [by eapply CompletionTouch |].
    rewrite <- !app_assoc. reflexivity.
Qed.

(** ** The whole request, for a valid request *)

Lemma POST_run (env : Env) (req : Request) (d : Database)
    (uid tid : string) (body : RequestBody) (t : ThreadRow)
    (cfg : ModelConfig) :
  ValidRequest env req d uid tid body t cfg →
  let w1 := beforeProvider env d uid tid body in
  let w2 := {| db := db w1;
               log := log w1 ++ [StreamText (resolveModel cfg (model_id t))
                                   (projectMessages (body_messages body))
                                   (body_system body)] |} in
  run (POST env req) d =
    (wire env,
     match onFinishText env with
     | Some text => (onFinish env uid tid (model_id t) text w2).2
     | None => w2
     end).
Proof.
  intros Hvalid w1 w2. unfold run.
  rewrite (POST_valid env req {| db := d; log := [] |} uid tid body t cfg
             Hvalid). unfold_M.
  subst w2 w1. unfold beforeProvider.
  destruct (saveLastUserMessage _ _ _ _ _) as [[] w1]. cbn [snd].
  apply streamResponse_spec.
Qed.

(** The response of a valid request is the wire. *)
Lemma POST_wire (env : Env) (req : Request) (d : Database)
    (uid tid : string) (body : RequestBody) (t : ThreadRow)
    (cfg : ModelConfig) :
  ValidRequest env req d uid tid body t cfg →
  (run (POST env req) d).1 = wire env.
Proof. intros Hvalid. by rewrite (POST_run _ _ _ _ _ _ _ _ Hvalid). Qed.

(** The SDK does not invoke the callback: the provider call is the last
    call of the request. *)
Lemma POST_uncalled (env : Env) (req : Request) (d : Database)
    (uid tid : string) (body : RequestBody) (t : ThreadRow)
    (cfg : ModelConfig) :
  ValidRequest env req d uid tid body t cfg →
  onFinishText env = None →
  let w1 := beforeProvider env d uid tid body in
  run (POST env req) d =
    (wire env,
     {| db := db w1;
        log := log w1 ++ [StreamText (resolveModel cfg (model_id t))
                            (projectMessages (body_messages body))
                            (body_system body)] |}).
Proof.
  intros Hvalid Hfin w1.
  rewrite (POST_run _ _ _ _ _ _ _ _ Hvalid). by rewrite Hfin.
Qed.

(** The SDK invokes the callback with [text]. *)
Lemma POST_called (env : Env) (req : Request) (d : Database)
    (uid tid : string) (body : RequestBody) (t : ThreadRow)
    (cfg : ModelConfig) (text : string) :
  ValidRequest env req d uid tid body t cfg →
  onFinishText env = Some text →
  let w1 := beforeProvider env d uid tid body in
  let count := countRows env CountBeforeAssistant (db w1) uid tid in
  let row := assistantRow tid (model_id t) text count in
  let ok := insertAccepted env InsertAssistant (db w1) uid row in
  ∃ (tail : list Effect) (d' : Database),
    Completion env uid tid text (insertRow (db w1) row ok)
               (sequence_index row) tail d'
    ∧ run (POST env req) d =
        (wire env,
         {| db := d';
            log := log w1
                   ++ StreamText (resolveModel cfg (model_id t))
                        (projectMessages (body_messages body))
                        (body_system body)
                      :: CountMessages tid count
                      :: InsertMessage row ok
                      :: tail |}).
Proof.
  intros Hvalid Hfin w1 count row ok.
  rewrite (POST_run _ _ _ _ _ _ _ _ Hvalid), Hfin.
  match goal with
  | |- context [onFinish ?e ?u ?th ?m ?tx ?w] =>
      destruct (onFinish_spec e u th m tx w) as (tail & d' & Hc & ->)
  end.
  exists tail, d'. split; [exact Hc |]. cbn [snd log db].
  by rewrite <- app_assoc.
Qed.

(** ** The wire: C3, C4 and C2 *)

Lemma filter_TextDelta (P : WireEvent → bool) (i : string)
    (chunks : list string) :
  (∀ delta, P (TextDelta i delta) = false) →
  filter (λ e, P e = true) (TextDelta i <$> chunks) = [].
Proof.
  intros HP. induction chunks as [|c l IH]; [done |].
  rewrite fmap_cons, filter_cons_False; [done |]. by rewrite HP.
Qed.

Lemma messageIds_TextDelta (i : string) (chunks : list string) :
  messageIds (TextDelta i <$> chunks) = replicate (length chunks) i.
Proof. induction chunks as [|c l IH]; simpl; [done | by f_equal]. Qed.

(** C3. When the provider stream completes without error, the events on
    the wire are exactly start, start-step, text-start, one text-delta per
    increment in arrival order, text-end, finish-step, finish and the end
    marker; there is one text-start and one text-end, and text-start,
    every text-delta and text-end carry the same message id. *)
Theorem C3_wire_sequence_on_completion
    (env : Env) (req : Request) (d : Database) (uid tid : string)
    (body : RequestBody) (t : ThreadRow) (cfg : ModelConfig) :
  ValidRequest env req d uid tid body t cfg →
  streamError env = None →
  ∃ (i : string) (events : list WireEvent),
    (run (POST env req) d).1 = EventStreamResponse events Closed
    ∧ events = [Start; StartStep; TextStart i]
               ++ (TextDelta i <$> textStream env)
               ++ [TextEnd i; FinishStep; Finish "stop"; EndMarker]
    ∧ length (filter (λ e, isTextStart e = true) events) = 1
    ∧ length (filter (λ e, isTextEnd e = true) events) = 1
    ∧ messageIds events = replicate (S (S (length (textStream env)))) i.
Proof.
  intros Hvalid He.
  rewrite (POST_wire _ _ _ _ _ _ _ _ Hvalid). unfold wire. rewrite He.
  eexists _, _. split; [reflexivity |]. split; [reflexivity |].
  split; [| split].
  - rewrite !filter_app, filter_TextDelta by done. reflexivity.
  - rewrite !filter_app, filter_TextDelta by done. reflexivity.
  - unfold messageIds at 1. rewrite !omap_app.
    fold (messageIds (TextDelta (makeMessageId (dateNow env)) <$> textStream env)).
    rewrite messageIds_TextDelta. simpl. f_equal.
    by rewrite <- replicate_cons_app.
Qed.

Lemma C3_witness :
  ∃ (i : string) (events : list WireEvent),
    (run (POST env_ok req_hi) (db_fresh "gpt-4o")).1
      = EventStreamResponse events Closed
    ∧ events = [Start; StartStep; TextStart i]
               ++ (TextDelta i <$> ["Hel"; "lo"])
               ++ [TextEnd i; FinishStep; Finish "stop"; EndMarker]
    ∧ length (filter (λ e, isTextStart e = true) events) = 1
    ∧ length (filter (λ e, isTextEnd e = true) events) = 1
    ∧ messageIds events = replicate 4 i.
Proof.
  apply (C3_wire_sequence_on_completion env_ok req_hi (db_fresh "gpt-4o")
           alice "t1" body_hi (thread_with "gpt-4o")
           gpt_4o).
  - split; reflexivity || discriminate.
  - reflexivity.
Defined.

(** C4. When the provider raises after a prefix of increments, the stream
    ends in error: the events on the wire are the three opening events
    and one text-delta per increment of the prefix, in order, and none of
    text-end, finish-step, finish or the end marker is emitted. *)
Theorem C4_abnormal_termination_on_provider_error
    (env : Env) (req : Request) (d : Database) (uid tid : string)
    (body : RequestBody) (t : ThreadRow) (cfg : ModelConfig) (error : string) :
  ValidRequest env req d uid tid body t cfg →
  streamError env = Some error →
  ∃ (i : string) (events : list WireEvent),
    (run (POST env req) d).1 = EventStreamResponse events (Errored error)
    ∧ events = [Start; StartStep; TextStart i]
               ++ (TextDelta i <$> textStream env)
    ∧ deltas events = textStream env
    ∧ filter (λ e, isClosing e = true) events = [].
Proof.
  intros Hvalid He.
  rewrite (POST_wire _ _ _ _ _ _ _ _ Hvalid). unfold wire. rewrite He.
  eexists _, _. split; [reflexivity |]. split; [reflexivity |]. split.
  - rewrite deltas_app, deltas_TextDelta. reflexivity.
  - rewrite filter_app, filter_TextDelta by done. reflexivity.
Qed.

Lemma C4_witness :
  ∃ (i : string) (events : list WireEvent),
    (run (POST env_provider_error req_hi) (db_fresh "gpt-4o")).1
      = EventStreamResponse events (Errored "ProviderError")
    ∧ events = [Start; StartStep; TextStart i]
               ++ (TextDelta i <$> ["Hel"; "lo"])
    ∧ deltas events = ["Hel"; "lo"]
    ∧ filter (λ e, isClosing e = true) events = [].
Proof.
  apply (C4_abnormal_termination_on_provider_error env_provider_error req_hi
           (db_fresh "gpt-4o") alice "t1" body_hi (thread_with "gpt-4o")
           gpt_4o).
  - split; reflexivity || discriminate.
  - reflexivity.
Defined.

(** ** What the phases leave in the store and in the log *)

Lemma beforeProvider_cases (env : Env) (d : Database) (uid tid : string)
    (body : RequestBody) :
  (∃ lastMessage : UIMessage,
      last (body_messages body) = Some lastMessage
      ∧ role lastMessage = user
      ∧ let count := countRows env CountBeforeUser d uid tid in
        let row := userRow tid lastMessage count in
        let ok := insertAccepted env InsertUser d uid row in
        beforeProvider env d uid tid body =
          {| db := insertRow d row ok;
             log := [GetUser; SelectThread tid;
                     CountMessages tid count; InsertMessage row ok] |})
  ∨ (lastIsUser (body_messages body) = false
     ∧ beforeProvider env d uid tid body =
         {| db := d; log := [GetUser; SelectThread tid] |}).
Proof.
  unfold beforeProvider.
  destruct (lastIsUser (body_messages body)) eqn:Hlast.
  - left. unfold lastIsUser in Hlast.
    destruct (last (body_messages body)) as [m|] eqn:Hm; [| done].
    apply bool_decide_eq_true in Hlast. exists m. split; [done |].
    split; [done |].
    pose proof (saveLastUserMessage_user env uid tid _ m
                  {| db := d; log := [GetUser; SelectThread tid] |}
                  Hm Hlast) as Hsave.
    cbv zeta in Hsave. by rewrite Hsave.
  - right. split; [done |]. by rewrite saveLastUserMessage_other.
Qed.

Lemma writeThread_messages (d : Database) (tid : string)
    (row : option ThreadRow) :
  messages (writeThread d tid row) = messages d.
Proof. by destruct row. Qed.

Lemma insertRow_threads (d : Database) (row : MessageRow) (ok : bool) :
  threads (insertRow d row ok) = threads d.
Proof. by destruct ok. Qed.

Lemma insertRow_messages (d : Database) (row : MessageRow) (ok : bool) :
  messages (insertRow d row ok) = messages d ++ (if ok then [row] else []).
Proof. destruct ok; simpl; [done | by rewrite app_nil_r]. Qed.

Lemma ownsThread_insertRow (d : Database) (row : MessageRow) (ok : bool)
    (uid tid : string) :
  ownsThread (insertRow d row ok) uid tid = ownsThread d uid tid.
Proof. unfold ownsThread. by rewrite insertRow_threads. Qed.

Section CompletionFacts.
Context {env : Env} {uid tid text : string} {d d' : Database}
        {seq : nat} {tail : list Effect}.
Hypothesis Hc : Completion env uid tid text d seq tail d'.

Lemma Completion_messages : messages d' = messages d.
Proof. destruct Hc; by rewrite ?writeThread_messages. Qed.

Lemma Completion_inserts : inserts tail = [].
Proof. by destruct Hc. Qed.

Lemma Completion_providerCalls : providerCalls tail = [].
Proof. by destruct Hc. Qed.

(** The title model is called exactly when the row received sequence
    number 1 and the first user message was found. *)
Lemma Completion_titleCalls :
  titleCalls tail ≠ []
  ↔ seq = 1 ∧ is_Some (firstUserContent env d uid tid).
Proof.
  destruct Hc as [Hseq | Hseq Hnone | c raw Hseq Hsome _ | c Hseq Hsome _].
  - split; [done | by intros [? _]].
  - split; [done |]. rewrite Hnone. by intros [_ [? ?]].
  - split; [by rewrite Hsome | done].
  - split; [by rewrite Hsome | done].
Qed.
End CompletionFacts.

Lemma inserts_app (l1 l2 : list Effect) :
  inserts (l1 ++ l2) = inserts l1 ++ inserts l2.
Proof. apply omap_app. Qed.

(** The inserts of a completed valid request: the user row when the last
    message is a user message, then the assistant row. *)
Lemma inserts_finished (env : Env) (d : Database) (uid tid : string)
    (body : RequestBody) (model : LanguageModel) (count : option nat)
    (row : MessageRow) (ok : bool) (tail : list Effect) :
  inserts tail = [] →
  insertsAs assistant
    (log (beforeProvider env d uid tid body)
     ++ StreamText model (projectMessages (body_messages body))
          (body_system body)
        :: CountMessages tid count
        :: InsertMessage row ok
        :: tail)
  = filter (λ x, m_role x.1 = assistant) [(row, ok)].
Proof.
  intros Htail. unfold insertsAs.
  change (StreamText model (projectMessages (body_messages body))
            (body_system body)
          :: CountMessages tid count :: InsertMessage row ok :: tail)
    with ([StreamText model (projectMessages (body_messages body))
             (body_system body);
           CountMessages tid count; InsertMessage row ok] ++ tail).
  rewrite !inserts_app, Htail, app_nil_r.
  destruct (beforeProvider_cases env d uid tid body)
    as [(m & _ & _ & ->) | [_ ->]]; reflexivity.
Qed.

(** C2. When the stream completes normally and the completion callback is
    invoked with the buffer of the increments, exactly one assistant row
    is written, and its content is one text fragment whose text is the
    concatenation, in emission order, of the delta payloads of the
    text-delta events on the wire, which are the increments; when the
    store accepts the insert, the row is the last message of the store. *)
Theorem C2_persisted_text_is_concatenated_deltas
    (env : Env) (req : Request) (d : Database) (uid tid : string)
    (body : RequestBody) (t : ThreadRow) (cfg : ModelConfig)
    (r : Response) (w' : World) :
  ValidRequest env req d uid tid body t cfg →
  streamError env = None →
  onFinishText env = Some (fullTextBuffer (textStream env)) →
  run (POST env req) d = (r, w') →
  ∃ (events : list WireEvent) (row : MessageRow) (ok : bool),
    r = EventStreamResponse events Closed
    ∧ deltas events = textStream env
    ∧ insertsAs assistant (log w') = [(row, ok)]
    ∧ m_content row
      = ContentParts [ {| type := "text"; text := join (deltas events) |} ]
    ∧ (ok = true → last (messages (db w')) = Some row).
Proof.
  intros Hvalid He Hfin Hrun.
  destruct (POST_called _ _ _ _ _ _ _ _ _ Hvalid Hfin)
    as (tail & d' & Hc & Heq).
  rewrite Heq in Hrun. injection Hrun as <- <-. unfold wire. rewrite He.
  exists (preamble (makeMessageId (dateNow env))
          ++ (TextDelta (makeMessageId (dateNow env)) <$> textStream env)
          ++ epilogue (makeMessageId (dateNow env))).
  eexists _, _. split; [reflexivity |].
  split; [apply deltas_stream |]. split; [| split].
  - cbn [log]. rewrite inserts_finished by apply (Completion_inserts Hc).
    reflexivity.
  - by rewrite deltas_stream.
  - intros Hok. cbn [db].
    rewrite (Completion_messages Hc), insertRow_messages, Hok.
    by rewrite last_snoc.
Qed.

Lemma C2_witness :
  ∃ (events : list WireEvent) (row : MessageRow) (ok : bool),
    (run (POST env_ok req_hi) (db_fresh "gpt-4o")).1
      = EventStreamResponse events Closed
    ∧ deltas events = ["Hel"; "lo"]
    ∧ insertsAs assistant (log (run (POST env_ok req_hi) (db_fresh "gpt-4o")).2)
      = [(row, ok)]
    ∧ m_content row
      = ContentParts [ {| type := "text"; text := join (deltas events) |} ]
    ∧ (ok = true →
       last (messages (db (run (POST env_ok req_hi) (db_fresh "gpt-4o")).2))
       = Some row).
Proof.
  apply (C2_persisted_text_is_concatenated_deltas env_ok req_hi
           (db_fresh "gpt-4o") alice "t1" body_hi (thread_with "gpt-4o")
           gpt_4o).
  - split; reflexivity || discriminate.
  - reflexivity.
  - reflexivity.
  - reflexivity.
Defined.

(** ** The user turn: C1 *)

(** A fetched thread is a row of the store that the user owns. *)
Lemma fetchThread_Some (env : Env) (d : Database) (uid tid : string)
    (t : ThreadRow) :
  fetchThread env d uid tid = Some t →
  threads d !! tid = Some t ∧ ownsThread d uid tid = true.
Proof.
  unfold fetchThread. destruct (storeFails env FetchThread); [done |].
  by destruct (ownsThread d uid tid).
Qed.

Lemma valid_owns (env : Env) (req : Request) (d : Database)
    (uid tid : string) (body : RequestBody) (t : ThreadRow)
    (cfg : ModelConfig) :
  ValidRequest env req d uid tid body t cfg → ownsThread d uid tid = true.
Proof. intros Hvalid. by apply (fetchThread_Some env d uid tid t), Hvalid. Qed.

Lemma valid_thread (env : Env) (req : Request) (d : Database)
    (uid tid : string) (body : RequestBody) (t : ThreadRow)
    (cfg : ModelConfig) :
  ValidRequest env req d uid tid body t cfg → threads d !! tid = Some t.
Proof. intros Hvalid. by apply (fetchThread_Some env d uid tid t), Hvalid. Qed.

(** After the provider call, a valid request writes no user row and calls
    the provider no more; the rows it adds to the store are assistant
    rows. *)
Lemma POST_after_provider (env : Env) (req : Request) (d : Database)
    (uid tid : string) (body : RequestBody) (t : ThreadRow)
    (cfg : ModelConfig) :
  ValidRequest env req d uid tid body t cfg →
  let w1 := beforeProvider env d uid tid body in
  let w' := (run (POST env req) d).2 in
  ∃ (rest : list Effect) (later : list MessageRow),
    log w' = log w1
             ++ StreamText (resolveModel cfg (model_id t))
                  (projectMessages (body_messages body)) (body_system body)
                :: rest
    ∧ insertsAs user rest = []
    ∧ providerCalls rest = []
    ∧ messages (db w') = messages (db w1) ++ later
    ∧ Forall (λ m, m_role m = assistant) later.
Proof.
  intros Hvalid w1 w'. subst w'.
  destruct (onFinishText env) as [text|] eqn:Hfin.
  2:{ rewrite (POST_uncalled _ _ _ _ _ _ _ _ Hvalid Hfin). cbn [snd log db].
      exists [], []. by rewrite app_nil_r. }
  - destruct (POST_called _ _ _ _ _ _ _ _ _ Hvalid Hfin)
      as (tail & d' & Hc & ->). cbn [snd log db].
    eexists _, _. split; [reflexivity |].
    split; [| split; [| split]].
    + match goal with
      | |- insertsAs user (?a :: ?b :: ?tl) = [] =>
          change (a :: b :: tl) with ([a; b] ++ tl)
      end.
      unfold insertsAs. rewrite inserts_app, (Completion_inserts Hc).
      reflexivity.
    + unfold providerCalls. rewrite !filter_cons_False by done.
      apply (Completion_providerCalls Hc).
    + rewrite (Completion_messages Hc). apply insertRow_messages.
    + destruct (insertAccepted _ _ _ _ _); by repeat constructor.
Qed.

Lemma insertsAs_app (r : Role) (l1 l2 : list Effect) :
  insertsAs r (l1 ++ l2) = insertsAs r l1 ++ insertsAs r l2.
Proof. unfold insertsAs. by rewrite inserts_app, filter_app. Qed.

Lemma providerCalls_app (l1 l2 : list Effect) :
  providerCalls (l1 ++ l2) = providerCalls l1 ++ providerCalls l2.
Proof. apply filter_app. Qed.

(** C1. For a request that passes the checks and whose last message has
    role user, one user row is written, by the insert that directly
    precedes the one call to the provider; its sequence number is the
    count read just before (the number of rows of the thread, and 0 when
    the count read is null); when the store accepts the insert the row is
    in the store when the provider is called, and only assistant rows
    follow it. When the last message has another role, or the list is
    empty, no user row is written. *)
Theorem C1_user_turn_written_before_provider
    (env : Env) (req : Request) (d : Database) (uid tid : string)
    (body : RequestBody) (t : ThreadRow) (cfg : ModelConfig)
    (r : Response) (w' : World) :
  ValidRequest env req d uid tid body t cfg →
  run (POST env req) d = (r, w') →
  (∀ lastMessage : UIMessage,
      last (body_messages body) = Some lastMessage →
      role lastMessage = user →
      ∃ (count : option nat) (row : MessageRow) (ok : bool)
        (call : Effect) (rest : list Effect) (later : list MessageRow),
        log w' = [GetUser; SelectThread tid; CountMessages tid count;
                  InsertMessage row ok; call] ++ rest
        ∧ isStreamText call = true
        ∧ insertsAs user (log w') = [(row, ok)]
        ∧ providerCalls (log w') = [call]
        ∧ count = (if storeFails env CountBeforeUser then None
                   else Some (length (messagesOf d tid)))
        ∧ row = {| thread_id := tid;
                   m_role := user;
                   m_content := extractContent lastMessage;
                   model_name := None;
                   sequence_index := default 0 count |}
        ∧ ok = negb (storeFails env InsertUser)
        ∧ messages (db (beforeProvider env d uid tid body))
          = messages d ++ (if ok then [row] else [])
        ∧ messages (db w')
          = messages d ++ (if ok then [row] else []) ++ later
        ∧ Forall (λ m, m_role m = assistant) later)
  ∧ (lastIsUser (body_messages body) = false →
     insertsAs user (log w') = []
     ∧ messages (db (beforeProvider env d uid tid body)) = messages d
     ∧ ∃ later : list MessageRow,
         messages (db w') = messages d ++ later
         ∧ Forall (λ m, m_role m = assistant) later).
Proof.
  intros Hvalid Hrun.
  destruct (POST_after_provider _ _ _ _ _ _ _ _ Hvalid)
    as (rest & later & Hlog & Huser & Hprov & Hmsgs & Hlater).
  rewrite Hrun in Hlog, Hmsgs. cbn [snd] in Hlog, Hmsgs.
  pose proof (valid_owns _ _ _ _ _ _ _ _ Hvalid) as Howns.
  destruct (beforeProvider_cases env d uid tid body)
    as [(m & Hm & Hrole & Hw1) | [Hno Hw1]];
    cbv zeta in Hw1; rewrite Hw1 in Hlog, Hmsgs |- *;
    cbn [log db] in Hlog, Hmsgs |- *.
  - match type of Hlog with
    | _ = ?pre ++ ?e :: rest => change (log w' = pre ++ [e] ++ rest) in Hlog
    end.
    split.
    + intros lastMessage Hlast _. rewrite Hm in Hlast. injection Hlast as ->.
      eexists _, _, _, _, rest, later.
      split; [exact Hlog |]. split; [reflexivity |].
      split; [by rewrite Hlog, !insertsAs_app, Huser |].
      split; [by rewrite Hlog, !providerCalls_app, Hprov |].
      split; [unfold countRows; by rewrite Howns |].
      split; [reflexivity |].
      split; [unfold insertAccepted; cbn [thread_id userRow];
              by rewrite Howns, andb_true_r |].
      split; [apply insertRow_messages |].
      split; [| exact Hlater].
      by rewrite Hmsgs, insertRow_messages, <- app_assoc.
    + unfold lastIsUser. rewrite Hm, bool_decide_eq_true_2; done.
  - match type of Hlog with
    | _ = ?pre ++ ?e :: rest => change (log w' = pre ++ [e] ++ rest) in Hlog
    end.
    split.
    + intros lastMessage Hlast Hrole. unfold lastIsUser in Hno.
      rewrite Hlast, bool_decide_eq_true_2 in Hno; done.
    + intros _. split; [| split; [done | by exists later]].
      by rewrite Hlog, !insertsAs_app, Huser.
Qed.

Lemma C1_witness :
  ∃ (count : option nat) (row : MessageRow) (ok : bool)
    (call : Effect) (rest : list Effect) (later : list MessageRow),
    log (worldAfter (POST env_ok req_hi) (db_fresh "gpt-4o"))
      = [GetUser; SelectThread "t1"; CountMessages "t1" count;
         InsertMessage row ok; call] ++ rest
    ∧ isStreamText call = true
    ∧ insertsAs user (log (worldAfter (POST env_ok req_hi) (db_fresh "gpt-4o")))
      = [(row, ok)]
    ∧ providerCalls (log (worldAfter (POST env_ok req_hi) (db_fresh "gpt-4o")))
      = [call]
    ∧ count = Some 0
    ∧ row = {| thread_id := "t1";
               m_role := user;
               m_content := extractContent hi;
               model_name := None;
               sequence_index := default 0 count |}
    ∧ ok = true
    ∧ messages (db (beforeProvider env_ok (db_fresh "gpt-4o") alice "t1"
                      body_hi))
      = [] ++ (if ok then [row] else [])
    ∧ messages (after (POST env_ok req_hi) (db_fresh "gpt-4o"))
      = [] ++ (if ok then [row] else []) ++ later
    ∧ Forall (λ m, m_role m = assistant) later.
Proof.
  destruct (C1_user_turn_written_before_provider env_ok req_hi
              (db_fresh "gpt-4o") alice "t1" body_hi (thread_with "gpt-4o")
              gpt_4o
              (run (POST env_ok req_hi) (db_fresh "gpt-4o")).1
              (worldAfter (POST env_ok req_hi) (db_fresh "gpt-4o")))
    as [Huser _].
  - split; reflexivity || discriminate.
  - reflexivity.
  - exact (Huser hi eq_refl eq_refl).
Defined.

(** ** The unknown model: C5 *)

(** C5. When the thread fetched for the request stores a model id that the
    registry lacks, the chat call answers 400 Invalid model; the store is
    left as it was, nothing is inserted and the provider is not called:
    the only calls made are the auth call and the thread fetch. *)
Theorem C5_unknown_model_fails_before_any_write
    (env : Env) (req : Request) (d : Database) (uid tid : string)
    (body : RequestBody) (t : ThreadRow) :
  authUser env = Some uid →
  json req = Some body →
  str_or (threadIdFromQuery req) (body_threadId body) = Some tid →
  tid ≠ "" →
  fetchThread env d uid tid = Some t →
  getModelById (model_id t) = None →
  run (POST env req) d
    = (JsonResponse 400 ("Invalid model: " +:+ model_id t),
       {| db := d; log := [GetUser; SelectThread tid] |})
  ∧ inserts (log (worldAfter (POST env req) d)) = []
  ∧ providerCalls (log (worldAfter (POST env req) d)) = []
  ∧ after (POST env req) d = d.
Proof.
  intros Hauth Hjson Htid Hne Hfetch Hmodel.
  assert (run (POST env req) d
          = (JsonResponse 400 ("Invalid model: " +:+ model_id t),
             {| db := d; log := [GetUser; SelectThread tid] |})) as Hrun.
  { unfold run, POST, getUser, selectThread. unfold_M.
    rewrite Hauth, Hjson, Htid. destruct tid as [|c tid']; [done |].
    simpl_world. rewrite Hfetch, Hmodel. reflexivity. }
  unfold after, worldAfter. rewrite Hrun. by repeat split.
Qed.

(** Thread [t1] stores a model id that is not in the registry. *)
Lemma C5_witness :
  run (POST env_ok req_hi) (db_fresh "gpt-3.5-turbo")
    = (JsonResponse 400 "Invalid model: gpt-3.5-turbo",
       {| db := db_fresh "gpt-3.5-turbo";
          log := [GetUser; SelectThread "t1"] |})
  ∧ inserts (log (worldAfter (POST env_ok req_hi) (db_fresh "gpt-3.5-turbo")))
    = []
  ∧ providerCalls
      (log (worldAfter (POST env_ok req_hi) (db_fresh "gpt-3.5-turbo"))) = []
  ∧ after (POST env_ok req_hi) (db_fresh "gpt-3.5-turbo")
    = db_fresh "gpt-3.5-turbo".
Proof.
  apply (C5_unknown_model_fails_before_any_write env_ok req_hi
           (db_fresh "gpt-3.5-turbo") alice "t1" body_hi
           (thread_with "gpt-3.5-turbo")).
  - reflexivity.
  - reflexivity.
  - reflexivity.
  - discriminate.
  - reflexivity.
  - reflexivity.
Defined.

(** ** The model name of the assistant turn: C9 *)

(** The registry maps every openai id to itself and its one anthropic id
    to another name. *)
Lemma registry_concrete_names (modelId : string) (cfg : ModelConfig) :
  getModelById modelId = Some cfg →
  match provider cfg with
  | anthropic =>
      modelId = "haiku-4-5"
      ∧ concreteName (resolveModel cfg modelId)
        = JsString "claude-3-5-haiku-20241022"
  | _ => concreteName (resolveModel cfg modelId) = JsString modelId
  end.
Proof.
  intros H. apply getModelById_Some in H as [Hin <-]. simpl in Hin.
  repeat (destruct Hin as [<- | Hin]; [by vm_compute |]).
  destruct Hin.
Qed.

(** C9, as the code has it. When the stream completes normally and the
    completion callback is invoked, the model name of the assistant row
    is the model id stored on the thread. The provider is called with the
    name resolved from that id: the same string for the openrouter and
    openai entries of the registry, and claude-3-5-haiku-20241022 for its
    anthropic entry haiku-4-5. *)
Theorem C9_model_name_is_thread_model_id
    (env : Env) (req : Request) (d : Database) (uid tid : string)
    (body : RequestBody) (t : ThreadRow) (cfg : ModelConfig)
    (text : string) (r : Response) (w' : World) :
  ValidRequest env req d uid tid body t cfg →
  streamError env = None →
  onFinishText env = Some text →
  run (POST env req) d = (r, w') →
  ∃ (row : MessageRow) (ok : bool) (model : LanguageModel),
    insertsAs assistant (log w') = [(row, ok)]
    ∧ providerCalls (log w')
      = [StreamText model (projectMessages (body_messages body))
           (body_system body)]
    ∧ model_name row = Some (model_id t)
    ∧ model = resolveModel cfg (model_id t)
    ∧ (provider cfg ≠ anthropic → concreteName model = JsString (model_id t))
    ∧ (provider cfg = anthropic →
       model_id t = "haiku-4-5"
       ∧ concreteName model = JsString "claude-3-5-haiku-20241022").
Proof.
  intros Hvalid He Hfin Hrun.
  destruct (POST_called _ _ _ _ _ _ _ _ _ Hvalid Hfin)
    as (tail & d' & Hc & Heq).
  rewrite Heq in Hrun. injection Hrun as <- <-.
  eexists _, _, (resolveModel cfg (model_id t)).
  split; [| split; [| split; [| split; [| split]]]].
  - cbn [log]. rewrite inserts_finished by apply (Completion_inserts Hc).
    reflexivity.
  - cbn [log]. unfold providerCalls. rewrite filter_app, filter_cons_True by done.
    rewrite !filter_cons_False by done.
    fold (providerCalls tail). rewrite (Completion_providerCalls Hc).
    destruct (beforeProvider_cases env d uid tid body)
      as [(m & _ & _ & ->) | [_ ->]]; reflexivity.
  - reflexivity.
  - reflexivity.
  - intros Hp. pose proof (registry_concrete_names _ _ (valid_model _ _ _ _ _ _ _ _ Hvalid)) as Hreg.
    by destruct (provider cfg).
  - intros Hp. pose proof (registry_concrete_names _ _ (valid_model _ _ _ _ _ _ _ _ Hvalid)) as Hreg.
    by rewrite Hp in Hreg.
Qed.

Lemma C9_witness :
  ∃ (row : MessageRow) (ok : bool) (model : LanguageModel),
    insertsAs assistant
      (log (worldAfter (POST env_ok req_hi) (db_fresh "haiku-4-5")))
      = [(row, ok)]
    ∧ providerCalls
        (log (worldAfter (POST env_ok req_hi) (db_fresh "haiku-4-5")))
      = [StreamText model (projectMessages [hi]) None]
    ∧ model_name row = Some "haiku-4-5"
    ∧ model = resolveModel
                haiku_4_5 "haiku-4-5"
    ∧ (anthropic ≠ anthropic → concreteName model = JsString "haiku-4-5")
    ∧ (anthropic = anthropic →
       "haiku-4-5" = "haiku-4-5"
       ∧ concreteName model = JsString "claude-3-5-haiku-20241022").
Proof.
  apply (C9_model_name_is_thread_model_id env_ok req_hi
           (db_fresh "haiku-4-5") alice "t1" body_hi
           (thread_with "haiku-4-5")
           haiku_4_5 "Hello"
           (run (POST env_ok req_hi) (db_fresh "haiku-4-5")).1).
  - split; reflexivity || discriminate.
  - reflexivity.
  - reflexivity.
  - reflexivity.
Defined.

(** On a thread whose model is haiku-4-5 the assistant row carries
    haiku-4-5 while the provider is called with
    claude-3-5-haiku-20241022. *)
Lemma C9_counterexample :
  ¬ ModelNameIsConcreteName env_ok req_hi (db_fresh "haiku-4-5").
Proof.
  intros Hclaim.
  specialize (Hclaim
    (assistantRow "t1" "haiku-4-5" "Hello" (Some 1)) true
    (AnthropicModel (JsString "claude-3-5-haiku-20241022"))
    [(user, "Hi")] None).
  assert (JsString <$> Some "haiku-4-5"
          = Some (JsString "claude-3-5-haiku-20241022")) as Habs.
  { apply Hclaim; [vm_compute; tauto | reflexivity | vm_compute; tauto]. }
  discriminate Habs.
Qed.

(** ** Title synthesis: C6 and C7 *)

Lemma leastSequence_is_Some (rows : list MessageRow) :
  is_Some (leastSequence rows) ↔ rows ≠ [].
Proof.
  destruct rows as [|r rest]; simpl.
  - split; [by intros [? ?] | done].
  - split; [done | intros _].
    destruct (leastSequence rest) as [r'|]; [| by eexists].
    destruct (Nat.ltb _ _); by eexists.
Qed.

(** The lookup of the first user message finds a row exactly when the
    store answers and the thread has a user row. *)
Lemma firstUserContent_is_Some (env : Env) (d : Database) (uid tid : string) :
  ownsThread d uid tid = true →
  is_Some (firstUserContent env d uid tid)
  ↔ storeFails env FetchFirstUser = false
    ∧ ∃ m : MessageRow, m ∈ messages d ∧ thread_id m = tid ∧ m_role m = user.
Proof.
  intros Howns. unfold firstUserContent. rewrite Howns.
  destruct (storeFails env FetchFirstUser).
  - split; [by intros [? ?] | by intros [? _]].
  - rewrite fmap_is_Some, leastSequence_is_Some. unfold messagesOf.
    split.
    + intros Hne. split; [done |].
      destruct (filter _ (filter _ _)) as [|m l] eqn:Hf; [done |].
      assert (m ∈ m :: l) as Hin by apply list_elem_of_here.
      rewrite <- Hf in Hin.
      apply list_elem_of_filter in Hin as [Hrole Hin].
      apply list_elem_of_filter in Hin as [Htid Hin]. by exists m.
    + intros [_ (m & Hin & Htid & Hrole)] Hnil.
      assert (m ∈ filter (λ m, m_role m = user)
                    (filter (λ m, thread_id m = tid) (messages d))) as Hm.
      { apply list_elem_of_filter. split; [done |].
        by apply list_elem_of_filter. }
      rewrite Hnil in Hm. by apply elem_of_nil in Hm.
Qed.

Lemma beforeProvider_threads (env : Env) (d : Database) (uid tid : string)
    (body : RequestBody) :
  threads (db (beforeProvider env d uid tid body)) = threads d.
Proof.
  destruct (beforeProvider_cases env d uid tid body)
    as [(m & _ & _ & ->) | [_ ->]]; [apply insertRow_threads | done].
Qed.

Lemma beforeProvider_titleCalls (env : Env) (d : Database) (uid tid : string)
    (body : RequestBody) :
  titleCalls (log (beforeProvider env d uid tid body)) = [].
Proof.
  destruct (beforeProvider_cases env d uid tid body)
    as [(m & _ & _ & ->) | [_ ->]]; reflexivity.
Qed.

Lemma ownsThread_writeThread (env : Env) (call : StoreCall) (d : Database)
    (uid tid : string) (u : ThreadUpdate) (uid' tid' : string) :
  ownsThread (writeThread d tid (updatedRow env call d uid tid u)) uid' tid'
  = ownsThread d uid' tid'.
Proof.
  unfold updatedRow, ownsThread at 1 3.
  destruct (storeFails env call); [done |].
  destruct (ownsThread d uid tid); [| done].
  destruct (threads d !! tid) as [t0|] eqn:Ht; [| done]. simpl.
  destruct (decide (tid = tid')) as [<- | Hne].
  - by rewrite lookup_insert_eq, Ht.
  - by rewrite lookup_insert_ne.
Qed.

(** The title calls of a completed valid request are those that follow
    the assistant insert. *)
Lemma titleCalls_finished (env : Env) (d : Database) (uid tid : string)
    (body : RequestBody) (model : LanguageModel) (count : option nat)
    (row : MessageRow) (ok : bool) (tail : list Effect) :
  titleCalls
    (log (beforeProvider env d uid tid body)
     ++ StreamText model (projectMessages (body_messages body))
          (body_system body)
        :: CountMessages tid count
        :: InsertMessage row ok
        :: tail)
  = titleCalls tail.
Proof.
  unfold titleCalls at 1. rewrite filter_app.
  fold (titleCalls (log (beforeProvider env d uid tid body))).
  rewrite beforeProvider_titleCalls, !filter_cons_False by done.
  reflexivity.
Qed.

(** C6, as the code has it. When the stream completes normally and the
    completion callback is invoked, the title model is called if and only
    if the assistant row received sequence number 1 and the lookup of the
    first user message found a row (the store answered and the thread has
    a user row); it is never called for another sequence number. *)
Theorem C6_title_iff_sequence_one_and_user_turn
    (env : Env) (req : Request) (d : Database) (uid tid : string)
    (body : RequestBody) (t : ThreadRow) (cfg : ModelConfig)
    (text : string) (r : Response) (w' : World) :
  ValidRequest env req d uid tid body t cfg →
  streamError env = None →
  onFinishText env = Some text →
  run (POST env req) d = (r, w') →
  ∃ (row : MessageRow) (ok : bool),
    insertsAs assistant (log w') = [(row, ok)]
    ∧ (titleCalls (log w') ≠ []
       ↔ sequence_index row = 1
         ∧ storeFails env FetchFirstUser = false
         ∧ ∃ m : MessageRow,
             m ∈ messages (db w') ∧ thread_id m = tid ∧ m_role m = user)
    ∧ (sequence_index row ≠ 1 → titleCalls (log w') = []).
Proof.
  intros Hvalid He Hfin Hrun.
  destruct (POST_called _ _ _ _ _ _ _ _ _ Hvalid Hfin)
    as (tail & d' & Hc & Heq).
  rewrite Heq in Hrun. injection Hrun as <- <-. cbn [log db].
  rewrite titleCalls_finished.
  pose proof (Completion_titleCalls Hc) as Htitle.
  rewrite firstUserContent_is_Some in Htitle.
  2:{ rewrite ownsThread_insertRow. unfold ownsThread.
      rewrite beforeProvider_threads.
      apply (valid_owns _ _ _ _ _ _ _ _ Hvalid). }
  rewrite <- (Completion_messages Hc) in Htitle.
  eexists _, _. split; [| split].
  - rewrite inserts_finished by apply (Completion_inserts Hc). reflexivity.
  - exact Htitle.
  - intros Hseq. destruct (titleCalls tail) as [|e l] eqn:Hcalls; [done |].
    destruct Hseq. by apply Htitle.
Qed.

Lemma C6_witness :
  ∃ (row : MessageRow) (ok : bool),
    insertsAs assistant
      (log (worldAfter (POST env_ok req_hi) (db_fresh "gpt-4o")))
      = [(row, ok)]
    ∧ (titleCalls (log (worldAfter (POST env_ok req_hi) (db_fresh "gpt-4o")))
         ≠ []
       ↔ sequence_index row = 1
         ∧ false = false
         ∧ ∃ m : MessageRow,
             m ∈ messages (after (POST env_ok req_hi) (db_fresh "gpt-4o"))
             ∧ thread_id m = "t1" ∧ m_role m = user)
    ∧ (sequence_index row ≠ 1 →
       titleCalls (log (worldAfter (POST env_ok req_hi) (db_fresh "gpt-4o")))
       = []).
Proof.
  apply (C6_title_iff_sequence_one_and_user_turn env_ok req_hi
           (db_fresh "gpt-4o") alice "t1" body_hi (thread_with "gpt-4o")
           gpt_4o "Hello"
           (run (POST env_ok req_hi) (db_fresh "gpt-4o")).1).
  - split; reflexivity || discriminate.
  - reflexivity.
  - reflexivity.
  - reflexivity.
Defined.

(** On a thread whose only row is an assistant row, a chat call whose
    last message is an assistant message writes the assistant row with
    sequence number 1, and the title model is not called: the thread has
    no user row. *)
Lemma C6_counterexample :
  ¬ TitleIffSequenceOne env_ok req_replay db_assistant_only.
Proof.
  intros Hclaim.
  specialize (Hclaim (assistantRow "t1" "gpt-4o" "Hello" (Some 1)) true).
  destruct Hclaim as [_ Hcalled].
  - vm_compute. tauto.
  - reflexivity.
  - apply Hcalled; [reflexivity | by vm_compute].
Qed.

(** C7. When title synthesis is attempted and the title model fails, the
    error stays inside the completion callback: the response is the
    complete event stream, closed normally; the call that follows the
    failed title call is the update that carries only the timestamp; and
    when the store accepts that update the thread keeps its title and
    model and has its last-activity timestamp set. *)
Theorem C7_title_failure_is_swallowed
    (env : Env) (req : Request) (d : Database) (uid tid : string)
    (body : RequestBody) (t : ThreadRow) (cfg : ModelConfig)
    (r : Response) (w' : World) :
  ValidRequest env req d uid tid body t cfg →
  streamError env = None →
  titleText env = None →
  run (POST env req) d = (r, w') →
  titleCalls (log w') ≠ [] →
  (∃ i : string,
      r = EventStreamResponse
            (preamble i ++ (TextDelta i <$> textStream env) ++ epilogue i)
            Closed)
  ∧ (∃ (before : list Effect) (prompt : string),
        log w' = before
                 ++ [GenerateText "gpt-4o-mini" prompt;
                     UpdateThread tid
                       {| set_title := None;
                          set_model_id := None;
                          set_updated_at := Some (finishDate env) |}
                       (negb (storeFails env TouchAfterTitleError))])
  ∧ (storeFails env TouchAfterTitleError = false →
     threads (db w') !! tid
     = Some {| user_id := user_id t;
               title := title t;
               model_id := model_id t;
               updated_at := dbNow env |}).
Proof.
  intros Hvalid He Htitle Hrun Hcalled.
  destruct (onFinishText env) as [text|] eqn:Hfin.
  2:{ rewrite (POST_uncalled _ _ _ _ _ _ _ _ Hvalid Hfin) in Hrun.
      injection Hrun as <- <-. cbn [log] in Hcalled.
      unfold titleCalls in Hcalled. rewrite filter_app in Hcalled.
      fold (titleCalls (log (beforeProvider env d uid tid body))) in Hcalled.
      by rewrite beforeProvider_titleCalls in Hcalled. }
  destruct (POST_called _ _ _ _ _ _ _ _ _ Hvalid Hfin)
    as (tail & d' & Hc & Heq).
  rewrite Heq in Hrun. injection Hrun as <- <-. cbn [log db] in *.
  rewrite titleCalls_finished in Hcalled.
  split; [unfold wire; rewrite He; by eexists |].
  pose proof (valid_owns _ _ _ _ _ _ _ _ Hvalid) as Howns.
  pose proof (valid_thread _ _ _ _ _ _ _ _ Hvalid) as Hthread.
  inversion Hc as [Hseq | Hseq Hnone | c raw Hseq Hsome Hraw
                  | c Hseq Hsome _]; subst tail.
  - done.
  - done.
  - by rewrite Htitle in Hraw.
  - split.
    + eexists (_ ++ [_; _; _; _]), _. rewrite <- app_assoc. reflexivity.
    + intros Hok. subst d'. unfold updatedRow.
      rewrite Hok, ownsThread_insertRow. unfold ownsThread at 1.
      rewrite insertRow_threads, beforeProvider_threads.
      fold (ownsThread d uid tid). rewrite Howns, Hthread. simpl.
      by rewrite lookup_insert_eq.
Qed.

Lemma C7_witness :
  (∃ i : string,
      (run (POST env_title_error req_hi) (db_fresh "gpt-4o")).1
      = EventStreamResponse
          (preamble i ++ (TextDelta i <$> ["Hel"; "lo"]) ++ epilogue i)
          Closed)
  ∧ (∃ (before : list Effect) (prompt : string),
        log (worldAfter (POST env_title_error req_hi) (db_fresh "gpt-4o"))
        = before
          ++ [GenerateText "gpt-4o-mini" prompt;
              UpdateThread "t1"
                {| set_title := None;
                   set_model_id := None;
                   set_updated_at := Some 1700000002000%N |}
                true])
  ∧ (false = false →
     threads (after (POST env_title_error req_hi) (db_fresh "gpt-4o")) !! "t1"
     = Some {| user_id := alice;
               title := "New Chat";
               model_id := "gpt-4o";
               updated_at := 1700000002001%N |}).
Proof.
  apply (C7_title_failure_is_swallowed env_title_error req_hi
           (db_fresh "gpt-4o") alice "t1" body_hi (thread_with "gpt-4o")
           gpt_4o
           (run (POST env_title_error req_hi) (db_fresh "gpt-4o")).1).
  - split; reflexivity || discriminate.
  - reflexivity.
  - reflexivity.
  - reflexivity.
  - by vm_compute.
Defined.

(** ** The model of a thread: C8 *)

(** An update that carries no model id leaves every model id in place. *)
Lemma writeThread_keeps_model (env : Env) (call : StoreCall) (d : Database)
    (uid tid : string) (u : ThreadUpdate) (k : string) :
  set_model_id u = None →
  model_id <$> threads (writeThread d tid (updatedRow env call d uid tid u)) !! k
  = model_id <$> threads d !! k.
Proof.
  intros Hu. unfold updatedRow.
  destruct (storeFails env call); [done |].
  destruct (ownsThread d uid tid); [| done].
  destruct (threads d !! tid) as [t0|] eqn:Ht; [| done]. simpl.
  destruct (decide (tid = k)) as [<- | Hne].
  - rewrite lookup_insert_eq, Ht. simpl. by rewrite Hu.
  - by rewrite lookup_insert_ne.
Qed.

Lemma Completion_keeps_model (env : Env) (uid tid text : string)
    (d d' : Database) (seq : nat) (tail : list Effect) (k : string) :
  Completion env uid tid text d seq tail d' →
  model_id <$> threads d' !! k = model_id <$> threads d !! k.
Proof. intros Hc. destruct Hc; by rewrite ?writeThread_keeps_model. Qed.

(** A request either passes the checks or leaves the store as it was. *)
Lemma POST_checks (env : Env) (req : Request) (d : Database) :
  (∃ (uid tid : string) (body : RequestBody) (t : ThreadRow)
     (cfg : ModelConfig), ValidRequest env req d uid tid body t cfg)
  ∨ after (POST env req) d = d.
Proof.
  unfold after, worldAfter, run, POST, getUser, selectThread. unfold_M.
  destruct (authUser env) as [uid|] eqn:Hauth; [| by right].
  destruct (json req) as [body|] eqn:Hjson; [| by right].
  destruct (str_or _ _) as [tid|] eqn:Htid; [| by right].
  destruct tid as [|c tid']; [by right |]. simpl_world.
  destruct (fetchThread _ _ _ _) as [t|] eqn:Hfetch; [| by right].
  destruct (getModelById (model_id t)) as [cfg|] eqn:Hmodel; [| by right].
  left. exists uid, (String c tid'), body, t, cfg. by split.
Qed.

(** No chat call changes the model id of any thread. *)
Lemma POST_keeps_model (env : Env) (req : Request) (d : Database)
    (k : string) :
  model_id <$> threads (after (POST env req) d) !! k
  = model_id <$> threads d !! k.
Proof.
  destruct (POST_checks env req d)
    as [(uid & tid & body & t & cfg & Hvalid) | ->]; [| done].
  unfold after, worldAfter. destruct (onFinishText env) as [text|] eqn:Hfin.
  - destruct (POST_called _ _ _ _ _ _ _ _ _ Hvalid Hfin)
      as (tail & d' & Hc & ->). cbn [snd db].
    rewrite (Completion_keeps_model _ _ _ _ _ _ _ _ _ Hc).
    by rewrite insertRow_threads, beforeProvider_threads.
  - rewrite (POST_uncalled _ _ _ _ _ _ _ _ Hvalid Hfin). cbn [snd db].
    by rewrite beforeProvider_threads.
Qed.

Lemma PATCH_without_model (env : Env) (tid : string) (body : PatchBody)
    (d : Database) (k : string) :
  patch_model_id body = None →
  model_id <$> threads (after (PATCH env tid body) d) !! k
  = model_id <$> threads d !! k.
Proof.
  intros Hbody.
  unfold after, worldAfter, run, PATCH, getUser, updateThread. unfold_M.
  destruct (authUser env) as [uid|]; [| done]. rewrite Hbody.
  destruct (patch_title body) as [newTitle|]; [| done]. simpl_world.
  match goal with
  | |- context [updatedRow ?e ?c ?d0 ?u ?th ?up] =>
      pose proof (writeThread_keeps_model e c d0 u th up k eq_refl) as Hkeep;
      destruct (updatedRow e c d0 u th up)
  end; exact Hkeep.
Qed.

Lemma PATCH_with_model (env : Env) (tid : string) (body : PatchBody)
    (d : Database) (t : ThreadRow) (newModelId : string) :
  authUser env = Some (user_id t) →
  storeFails env PatchThread = false →
  threads d !! tid = Some t →
  patch_model_id body = Some newModelId →
  model_id <$> threads (after (PATCH env tid body) d) !! tid
  = Some newModelId.
Proof.
  intros Hauth Hok Hthread Hbody.
  unfold after, worldAfter, run, PATCH, getUser, updateThread, updatedRow,
    ownsThread. unfold_M.
  rewrite Hauth, Hbody.
  destruct (patch_title body); simpl_world;
    rewrite Hok, Hthread, bool_decide_eq_true_2 by done; simpl;
    by rewrite lookup_insert_eq.
Qed.

Lemma handleModelChange_locked (st : ClientState) (newModelId : string) :
  currentThreadHasMessages st = true →
  handleModelChange st newModelId = None.
Proof.
  intros Hlocked. unfold handleModelChange. rewrite Hlocked.
  destruct (currentThreadId st) as [[|c s]|]; reflexivity.
Qed.

(** C8, as the code has it. No chat call, and so no title update, changes
    the model id of any thread. A thread update that carries no model id
    leaves every model id in place; one that carries a model id writes it
    to the caller's thread, whatever rows the thread has. The client sends
    no model update while it holds the current thread to have messages. *)
Theorem C8_model_id_changes_only_by_thread_update :
  (∀ (env : Env) (req : Request) (d : Database) (k : string),
      model_id <$> threads (after (POST env req) d) !! k
      = model_id <$> threads d !! k)
  ∧ (∀ (env : Env) (tid : string) (body : PatchBody) (d : Database)
       (k : string),
        patch_model_id body = None →
        model_id <$> threads (after (PATCH env tid body) d) !! k
        = model_id <$> threads d !! k)
  ∧ (∀ (env : Env) (tid : string) (body : PatchBody) (d : Database)
       (t : ThreadRow) (newModelId : string),
        authUser env = Some (user_id t) →
        storeFails env PatchThread = false →
        threads d !! tid = Some t →
        patch_model_id body = Some newModelId →
        model_id <$> threads (after (PATCH env tid body) d) !! tid
        = Some newModelId)
  ∧ (∀ (st : ClientState) (newModelId : string),
        currentThreadHasMessages st = true →
        handleModelChange st newModelId = None).
Proof.
  split; [exact POST_keeps_model |].
  split; [exact PATCH_without_model |].
  split; [exact PATCH_with_model |].
  exact handleModelChange_locked.
Qed.

(** The thread of [db_one_exchange] has two rows and model gpt-4o; a
    thread update that carries gpt-4o-mini changes its model. *)
Lemma C8_counterexample :
  ¬ ModelLocked
      (PATCH env_ok "t1"
         {| patch_title := None; patch_model_id := Some "gpt-4o-mini" |})
      db_one_exchange.
Proof.
  intros Hclaim.
  specialize (Hclaim "t1"
    {| user_id := alice; title := "Greeting"; model_id := "gpt-4o";
       updated_at := 1700000002001%N |}).
  assert (Some "gpt-4o-mini" = Some "gpt-4o") as Habs.
  { apply Hclaim; by vm_compute. }
  discriminate Habs.
Qed.

Lemma C8_witness :
  model_id <$>
    threads (after (PATCH env_ok "t1"
                      {| patch_title := None;
                         patch_model_id := Some "gpt-4o-mini" |})
                   (db_fresh "gpt-4o")) !! "t1"
  = Some "gpt-4o-mini"
  ∧ handleModelChange
      {| currentThreadId := Some "t1"; currentThreadHasMessages := true |}
      "gpt-4o-mini" = None.
Proof.
  destruct C8_model_id_changes_only_by_thread_update
    as (_ & _ & Hpatch & Hclient).
  split.
  - apply (Hpatch env_ok "t1" _ (db_fresh "gpt-4o") (thread_with "gpt-4o"));
      reflexivity.
  - apply Hclient. reflexivity.
Defined.

(** ** The chat route beyond the claims: rejected requests *)

(** A request passes the checks, or it is answered with a JSON error after
    the auth call and at most the thread fetch, with the store as it was. *)
Lemma POST_rejected_or_valid (env : Env) (req : Request) (d : Database) :
  (∃ (uid tid : string) (body : RequestBody) (t : ThreadRow)
     (cfg : ModelConfig), ValidRequest env req d uid tid body t cfg)
  ∨ (∃ (status : nat) (error : string) (l : list Effect),
        run (POST env req) d
        = (JsonResponse status error, {| db := d; log := l |})
        ∧ (l = [GetUser] ∨ ∃ tid : string, l = [GetUser; SelectThread tid])).
Proof.
  unfold run, POST, getUser, selectThread. unfold_M.
  destruct (authUser env) as [uid|] eqn:Hauth;
    [| right; eexists _, _, _; split; [reflexivity | by left]].
  destruct (json req) as [body|] eqn:Hjson;
    [| right; eexists _, _, _; split; [reflexivity | by left]].
  destruct (str_or _ _) as [tid|] eqn:Htid;
    [| right; eexists _, _, _; split; [reflexivity | by left]].
  destruct tid as [|c tid'];
    [right; eexists _, _, _; split; [reflexivity | by left] |].
  simpl_world.
  destruct (fetchThread _ _ _ _) as [t|] eqn:Hfetch;
    [| right; eexists _, _, _; split; [reflexivity | right; by eexists]].
  destruct (getModelById (model_id t)) as [cfg|] eqn:Hmodel;
    [| right; eexists _, _, _; split; [reflexivity | right; by eexists]].
  left. exists uid, (String c tid'), body, t, cfg. by split.
Qed.

(** A request that passes the checks is answered with the event stream. *)
Lemma POST_valid_streams (env : Env) (req : Request) (d : Database)
    (uid tid : string) (body : RequestBody) (t : ThreadRow)
    (cfg : ModelConfig) :
  ValidRequest env req d uid tid body t cfg →
  ∃ (events : list WireEvent) (ending : StreamEnd),
    (run (POST env req) d).1 = EventStreamResponse events ending.
Proof.
  intros Hvalid. rewrite (POST_wire _ _ _ _ _ _ _ _ Hvalid). unfold wire.
  destruct (streamError env) as [e|]; by eexists _, _.
Qed.

(** X1. Whenever the chat route answers with a JSON error (401, 400, 404,
    or 500 for a body that does not parse), the store is as it was:
    nothing was inserted or updated, and neither the provider nor the
    title model was called. *)
Theorem POST_error_response_leaves_no_trace
    (env : Env) (req : Request) (d : Database)
    (status : nat) (error : string) (w' : World) :
  run (POST env req) d = (JsonResponse status error, w') →
  db w' = d
  ∧ inserts (log w') = []
  ∧ updates (log w') = []
  ∧ providerCalls (log w') = []
  ∧ titleCalls (log w') = [].
Proof.
  intros Hrun.
  destruct (POST_rejected_or_valid env req d)
    as [(uid & tid & body & t & cfg & Hvalid)
       | (status' & error' & l & Heq & Hl)].
  - destruct (POST_valid_streams _ _ _ _ _ _ _ _ Hvalid)
      as (events & ending & Hstream).
    rewrite Hrun in Hstream. discriminate Hstream.
  - rewrite Heq in Hrun. injection Hrun as _ _ <-. cbn [db log].
    destruct Hl as [-> | [tid ->]]; by repeat split.
Qed.

Lemma POST_error_response_leaves_no_trace_witness :
  db (worldAfter (POST env_anonymous req_hi) (db_fresh "gpt-4o"))
  = db_fresh "gpt-4o"
  ∧ inserts (log (worldAfter (POST env_anonymous req_hi) (db_fresh "gpt-4o")))
    = []
  ∧ updates (log (worldAfter (POST env_anonymous req_hi) (db_fresh "gpt-4o")))
    = []
  ∧ providerCalls
      (log (worldAfter (POST env_anonymous req_hi) (db_fresh "gpt-4o"))) = []
  ∧ titleCalls
      (log (worldAfter (POST env_anonymous req_hi) (db_fresh "gpt-4o"))) = [].
Proof.
  apply (POST_error_response_leaves_no_trace env_anonymous req_hi
           (db_fresh "gpt-4o") 401 "Unauthorized").
  reflexivity.
Defined.

(** X2. A thread that does not exist and a thread that belongs to another
    user get the same answer from the chat route: 404 Thread not found,
    after the same two calls, with the store untouched. *)
Theorem POST_not_found_hides_ownership
    (env : Env) (req : Request) (d1 d2 : Database) (uid tid : string)
    (body : RequestBody) (t : ThreadRow) :
  authUser env = Some uid →
  json req = Some body →
  str_or (threadIdFromQuery req) (body_threadId body) = Some tid →
  tid ≠ "" →
  threads d1 !! tid = None →
  threads d2 !! tid = Some t →
  user_id t ≠ uid →
  run (POST env req) d1
  = (JsonResponse 404 "Thread not found",
     {| db := d1; log := [GetUser; SelectThread tid] |})
  ∧ run (POST env req) d2
    = (JsonResponse 404 "Thread not found",
       {| db := d2; log := [GetUser; SelectThread tid] |}).
Proof.
  intros Hauth Hjson Htid Hne Hnone Hsome Hother.
  unfold run, POST, getUser, selectThread, fetchThread, ownsThread. unfold_M.
  rewrite Hauth, Hjson, Htid. destruct tid as [|c tid']; [done |].
  simpl_world. rewrite Hnone, Hsome, bool_decide_eq_false_2 by done.
  by destruct (storeFails env FetchThread).
Qed.

Lemma POST_not_found_hides_ownership_witness :
  run (POST env_ok req_hi) db_empty
  = (JsonResponse 404 "Thread not found",
     {| db := db_empty; log := [GetUser; SelectThread "t1"] |})
  ∧ run (POST env_ok req_hi) db_of_bob
    = (JsonResponse 404 "Thread not found",
       {| db := db_of_bob; log := [GetUser; SelectThread "t1"] |}).
Proof.
  apply (POST_not_found_hides_ownership env_ok req_hi db_empty db_of_bob
           alice "t1" body_hi
           {| user_id := bob; title := "New Chat"; model_id := "gpt-4o";
              updated_at := 0%N |}).
  - reflexivity.
  - reflexivity.
  - reflexivity.
  - discriminate.
  - reflexivity.
  - reflexivity.
  - discriminate.
Defined.

(** X3. A non-empty thread id in the query string decides the thread: the
    thread id of the body is not read. Without one (absent or empty), the
    thread id of the body is used as if it had come in the query. *)
Theorem POST_query_threadId_takes_precedence
    (env : Env) (q : string) (body : RequestBody) (other : option string)
    (d : Database) :
  q ≠ "" →
  run (POST env {| threadIdFromQuery := Some q; json := Some body |}) d
  = run (POST env
           {| threadIdFromQuery := Some q;
              json := Some {| body_messages := body_messages body;
                              body_system := body_system body;
                              body_threadId := other |} |}) d
  ∧ run (POST env
           {| threadIdFromQuery := None;
              json := Some {| body_messages := body_messages body;
                              body_system := body_system body;
                              body_threadId := Some q |} |}) d
    = run (POST env {| threadIdFromQuery := Some q; json := Some body |}) d
  ∧ run (POST env
           {| threadIdFromQuery := Some "";
              json := Some {| body_messages := body_messages body;
                              body_system := body_system body;
                              body_threadId := Some q |} |}) d
    = run (POST env {| threadIdFromQuery := Some q; json := Some body |}) d.
Proof.
  intros Hq.
  unfold run, POST, getUser, selectThread, streamResponse. unfold_M.
  cbn [threadIdFromQuery json body_threadId body_messages body_system str_or].
  rewrite !bool_decide_eq_false_2 by done.
  repeat split.
Qed.

Lemma POST_query_threadId_takes_precedence_witness :
  run (POST env_ok {| threadIdFromQuery := Some "t1"; json := Some body_hi |})
      (db_fresh "gpt-4o")
  = run (POST env_ok
           {| threadIdFromQuery := Some "t1";
              json := Some {| body_messages := [hi];
                              body_system := None;
                              body_threadId := Some "t2" |} |})
        (db_fresh "gpt-4o").
Proof.
  apply (POST_query_threadId_takes_precedence env_ok "t1" body_hi
           (Some "t2") (db_fresh "gpt-4o")).
  discriminate.
Defined.

(** ** The chat route beyond the claims: what a valid request writes *)

Lemma updates_app (l1 l2 : list Effect) :
  updates (l1 ++ l2) = updates l1 ++ updates l2.
Proof. apply omap_app. Qed.

Lemma titleCalls_app (l1 l2 : list Effect) :
  titleCalls (l1 ++ l2) = titleCalls l1 ++ titleCalls l2.
Proof. apply filter_app. Qed.

Lemma beforeProvider_updates (env : Env) (d : Database) (uid tid : string)
    (body : RequestBody) :
  updates (log (beforeProvider env d uid tid body)) = [].
Proof.
  destruct (beforeProvider_cases env d uid tid body)
    as [(m & _ & _ & ->) | [_ ->]]; reflexivity.
Qed.

(** The rows a valid request adds to the store: the user row, when the
    last message is a user message and the insert is accepted, then the
    assistant row, when the callback is invoked and the insert is
    accepted. *)
Lemma POST_valid_rows (env : Env) (req : Request) (d : Database)
    (uid tid : string) (body : RequestBody) (t : ThreadRow)
    (cfg : ModelConfig) :
  ValidRequest env req d uid tid body t cfg →
  let w1 := beforeProvider env d uid tid body in
  ∃ (U A : list MessageRow),
    messages (db w1) = messages d ++ U
    ∧ messages (after (POST env req) d) = messages d ++ U ++ A
    ∧ (U = []
       ∨ ∃ m : UIMessage,
           U = [userRow tid m (countRows env CountBeforeUser d uid tid)])
    ∧ (A = []
       ∨ ∃ text : string,
           onFinishText env = Some text
           ∧ A = [assistantRow tid (model_id t) text
                    (countRows env CountBeforeAssistant (db w1) uid tid)]).
Proof.
  intros Hvalid w1.
  assert (∃ U : list MessageRow,
            messages (db w1) = messages d ++ U
            ∧ (U = []
               ∨ ∃ m : UIMessage,
                   U = [userRow tid m
                          (countRows env CountBeforeUser d uid tid)]))
    as (U & HU & HUshape).
  { subst w1. destruct (beforeProvider_cases env d uid tid body)
      as [(m & _ & _ & ->) | [_ ->]]; cbn [db].
    - rewrite insertRow_messages. destruct (insertAccepted _ _ _ _ _).
      + exists [userRow tid m (countRows env CountBeforeUser d uid tid)].
        split; [done | right; by exists m].
      + exists []. split; [done | by left].
    - exists []. split; [by rewrite app_nil_r | by left]. }
  exists U. unfold after, worldAfter.
  destruct (onFinishText env) as [text|] eqn:Hfin.
  - destruct (POST_called _ _ _ _ _ _ _ _ _ Hvalid Hfin)
      as (tail & d' & Hc & ->). cbn [snd db].
    rewrite (Completion_messages Hc), insertRow_messages. fold w1.
    rewrite HU, <- app_assoc. destruct (insertAccepted _ _ _ _ _).
    + eexists. split; [done |]. split; [done |]. split; [done |].
      right. by exists text.
    + exists []. split; [done |]. split; [done |]. split; [done | by left].
  - rewrite (POST_uncalled _ _ _ _ _ _ _ _ Hvalid Hfin). cbn [snd db].
    exists []. fold w1. rewrite app_nil_r.
    split; [done |]. split; [done |]. split; [done | by left].
Qed.

Lemma filter_all {A} (P : A → Prop) `{∀ x, Decision (P x)} (l : list A) :
  Forall P l → filter P l = l.
Proof.
  induction 1 as [|x l Hx Hl IH]; [done |].
  by rewrite filter_cons_True, IH.
Qed.

Lemma filter_none {A} (P : A → Prop) `{∀ x, Decision (P x)} (l : list A) :
  Forall (λ x, ¬ P x) l → filter P l = [].
Proof.
  induction 1 as [|x l Hx Hl IH]; [done |].
  by rewrite filter_cons_False.
Qed.

Lemma messagesOf_app_own (d d' : Database) (tid : string)
    (new : list MessageRow) :
  messages d' = messages d ++ new →
  Forall (λ m, thread_id m = tid) new →
  messagesOf d' tid = messagesOf d tid ++ new.
Proof.
  intros Hm Hnew. unfold messagesOf.
  by rewrite Hm, filter_app, (filter_all _ new).
Qed.

Lemma messagesOf_app_other (d d' : Database) (tid k : string)
    (new : list MessageRow) :
  messages d' = messages d ++ new →
  Forall (λ m, thread_id m = tid) new →
  k ≠ tid →
  messagesOf d' k = messagesOf d k.
Proof.
  intros Hm Hnew Hk. unfold messagesOf.
  rewrite Hm, filter_app, (filter_none _ new), app_nil_r; [done |].
  eapply Forall_impl; [exact Hnew |]. simpl. congruence.
Qed.

(** Appending a row whose number is the length keeps the numbering. *)
Lemma numbering_snoc (l : list MessageRow) (x : MessageRow) :
  sequence_index <$> l = seq 0 (length l) →
  sequence_index x = length l →
  sequence_index <$> (l ++ [x]) = seq 0 (length (l ++ [x])).
Proof.
  intros Hl Hx.
  rewrite fmap_app, length_app, seq_app, Hl. simpl. by rewrite Hx.
Qed.

Lemma countRows_answer (env : Env) (call : StoreCall) (d : Database)
    (uid tid : string) :
  storeFails env call = false →
  ownsThread d uid tid = true →
  countRows env call d uid tid = Some (length (messagesOf d tid)).
Proof. intros Hf Ho. unfold countRows. by rewrite Hf, Ho. Qed.

(** X5. When the two count reads of the chat route are answered, a chat
    call keeps the numbering of every thread: if the rows of a thread
    carry 0, 1, 2, ... in insertion order before the call, they do so
    after it, whatever else fails. *)
Theorem POST_keeps_sequence_numbers
    (env : Env) (req : Request) (d : Database) (k : string) :
  storeFails env CountBeforeUser = false →
  storeFails env CountBeforeAssistant = false →
  WellSequenced d k →
  WellSequenced (after (POST env req) d) k.
Proof.
  intros Hcu Hca Hseq.
  destruct (POST_checks env req d)
    as [(uid & tid & body & t & cfg & Hvalid) | ->]; [| done].
  pose proof (valid_owns _ _ _ _ _ _ _ _ Hvalid) as Howns.
  destruct (POST_valid_rows _ _ _ _ _ _ _ _ Hvalid)
    as (U & A & HU & HUA & HUshape & HAshape).
  set (w1 := beforeProvider env d uid tid body) in *.
  assert (Forall (λ m, thread_id m = tid) U) as HUtid.
  { destruct HUshape as [-> | [m ->]]; by repeat constructor. }
  assert (Forall (λ m, thread_id m = tid) A) as HAtid.
  { destruct HAshape as [-> | (text & _ & ->)]; by repeat constructor. }
  unfold WellSequenced in *.
  destruct (decide (k = tid)) as [-> | Hk].
  - rewrite (messagesOf_app_own d _ tid (U ++ A) HUA)
      by (by apply Forall_app).
    pose proof (messagesOf_app_own d (db w1) tid U HU HUtid) as Hw1.
    assert (sequence_index <$> (messagesOf d tid ++ U)
            = seq 0 (length (messagesOf d tid ++ U))) as HnumU.
    { destruct HUshape as [-> | [m ->]]; [by rewrite app_nil_r |].
      apply numbering_snoc; [done |]. cbn [sequence_index userRow].
      by rewrite countRows_answer. }
    rewrite app_assoc.
    destruct HAshape as [-> | (text & _ & ->)]; [by rewrite app_nil_r |].
    apply numbering_snoc; [done |]. cbn [sequence_index assistantRow].
    rewrite countRows_answer, Hw1; [done | done |].
    unfold ownsThread. subst w1. by rewrite beforeProvider_threads.
  - rewrite (messagesOf_app_other d _ tid k (U ++ A) HUA); [done | | done].
    by apply Forall_app.
Qed.

Lemma POST_keeps_sequence_numbers_witness :
  WellSequenced (after (POST env_ok req_hi) (db_fresh "gpt-4o")) "t1".
Proof.
  apply (POST_keeps_sequence_numbers env_ok req_hi (db_fresh "gpt-4o") "t1").
  - reflexivity.
  - reflexivity.
  - reflexivity.
Defined.

(** X6. When the completion callback is invoked and its count read fails,
    the assistant row gets sequence number 0 whatever the thread holds,
    and the title model is not called; if the insert is accepted on a
    thread that already has a row, the numbering of the thread is
    broken. *)
Theorem POST_failed_count_numbers_from_zero
    (env : Env) (req : Request) (d : Database) (uid tid : string)
    (body : RequestBody) (t : ThreadRow) (cfg : ModelConfig)
    (text : string) (r : Response) (w' : World) :
  ValidRequest env req d uid tid body t cfg →
  onFinishText env = Some text →
  storeFails env CountBeforeAssistant = true →
  run (POST env req) d = (r, w') →
  ∃ (row : MessageRow) (ok : bool),
    insertsAs assistant (log w') = [(row, ok)]
    ∧ sequence_index row = 0
    ∧ titleCalls (log w') = []
    ∧ (ok = true →
       messagesOf (db (beforeProvider env d uid tid body)) tid ≠ [] →
       ¬ WellSequenced (db w') tid).
Proof.
  intros Hvalid Hfin Hfail Hrun.
  destruct (POST_called _ _ _ _ _ _ _ _ _ Hvalid Hfin)
    as (tail & d' & Hc & Heq).
  rewrite Heq in Hrun. injection Hrun as <- <-. cbn [log db].
  assert (countRows env CountBeforeAssistant
            (db (beforeProvider env d uid tid body)) uid tid = None)
    as Hcount.
  { unfold countRows. by rewrite Hfail. }
  rewrite Hcount in Hc |- *.
  eexists _, _. split; [| split; [| split]].
  - rewrite inserts_finished by apply (Completion_inserts Hc). reflexivity.
  - reflexivity.
  - rewrite titleCalls_finished. by inversion Hc.
  - intros Hok Hne Hseq. unfold WellSequenced in Hseq.
    rewrite (messagesOf_app_own (db (beforeProvider env d uid tid body)) d'
               tid
               [assistantRow tid (model_id t) text None])
      in Hseq.
    + rewrite fmap_app, length_app, seq_app in Hseq.
      apply app_inj_tail in Hseq as [_ Hlast]. cbn in Hlast.
      destruct (messagesOf (db (beforeProvider env d uid tid body)) tid);
        [done | discriminate Hlast].
    + by rewrite (Completion_messages Hc), insertRow_messages, Hok.
    + by repeat constructor.
Qed.

Lemma POST_failed_count_numbers_from_zero_witness :
  ∃ (row : MessageRow) (ok : bool),
    insertsAs assistant
      (log (worldAfter (POST env_count_error req_hi) (db_fresh "gpt-4o")))
    = [(row, ok)]
    ∧ sequence_index row = 0
    ∧ titleCalls
        (log (worldAfter (POST env_count_error req_hi) (db_fresh "gpt-4o")))
      = []
    ∧ (ok = true →
       messagesOf (db (beforeProvider env_count_error (db_fresh "gpt-4o")
                         alice "t1" body_hi)) "t1" ≠ [] →
       ¬ WellSequenced
           (db (worldAfter (POST env_count_error req_hi) (db_fresh "gpt-4o")))
           "t1").
Proof.
  apply (POST_failed_count_numbers_from_zero env_count_error req_hi
           (db_fresh "gpt-4o") alice "t1" body_hi (thread_with "gpt-4o")
           gpt_4o "Hello"
           (run (POST env_count_error req_hi) (db_fresh "gpt-4o")).1).
  - split; reflexivity || discriminate.
  - reflexivity.
  - reflexivity.
  - reflexivity.
Defined.

Lemma writeThread_other (d : Database) (tid k : string)
    (row : option ThreadRow) :
  k ≠ tid → threads (writeThread d tid row) !! k = threads d !! k.
Proof. intros Hk. destruct row; [by apply lookup_insert_ne | done]. Qed.

Lemma Completion_other_threads (env : Env) (uid tid text : string)
    (d d' : Database) (n : nat) (tail : list Effect) (k : string) :
  Completion env uid tid text d n tail d' →
  k ≠ tid →
  threads d' !! k = threads d !! k.
Proof. intros Hc Hk. destruct Hc; by rewrite ?writeThread_other. Qed.

(** X7. The chat route only appends to the message table: after any chat
    call the rows stored before are still there, unchanged and in place,
    followed by at most two new rows, each on a thread the signed-in user
    owns. *)
Theorem POST_only_appends_messages
    (env : Env) (req : Request) (d : Database) :
  ∃ new : list MessageRow,
    messages (after (POST env req) d) = messages d ++ new
    ∧ (length new ≤ 2)%nat
    ∧ ∀ m : MessageRow, m ∈ new →
        ∃ uid : string,
          authUser env = Some uid ∧ ownsThread d uid (thread_id m) = true.
Proof.
  destruct (POST_checks env req d)
    as [(uid & tid & body & t & cfg & Hvalid) | ->].
  - pose proof (valid_owns _ _ _ _ _ _ _ _ Hvalid) as Howns.
    destruct (POST_valid_rows _ _ _ _ _ _ _ _ Hvalid)
      as (U & A & _ & HUA & HUshape & HAshape).
    exists (U ++ A). split; [done |]. split.
    + rewrite length_app.
      destruct HUshape as [-> | [m ->]], HAshape as [-> | (text & _ & ->)];
        simpl; lia.
    + intros m Hm. exists uid. split; [apply Hvalid |].
      apply elem_of_app in Hm as [Hm | Hm].
      * destruct HUshape as [-> | [m0 ->]]; [by apply elem_of_nil in Hm |].
        apply list_elem_of_singleton in Hm as ->. exact Howns.
      * destruct HAshape as [-> | (text & _ & ->)];
          [by apply elem_of_nil in Hm |].
        apply list_elem_of_singleton in Hm as ->. exact Howns.
  - exists []. split; [by rewrite app_nil_r |]. split; [simpl; lia |].
    intros m Hm. by apply elem_of_nil in Hm.
Qed.

(** X8. A chat call on one thread leaves every other thread alone: its row
    is the same and so are its messages. *)
Theorem POST_leaves_other_threads_alone
    (env : Env) (req : Request) (d : Database) (uid tid : string)
    (body : RequestBody) (t : ThreadRow) (cfg : ModelConfig) (k : string) :
  ValidRequest env req d uid tid body t cfg →
  k ≠ tid →
  threads (after (POST env req) d) !! k = threads d !! k
  ∧ messagesOf (after (POST env req) d) k = messagesOf d k.
Proof.
  intros Hvalid Hk. split.
  - unfold after, worldAfter.
    destruct (onFinishText env) as [text|] eqn:Hfin.
    + destruct (POST_called _ _ _ _ _ _ _ _ _ Hvalid Hfin)
        as (tail & d' & Hc & ->). cbn [snd db].
      rewrite (Completion_other_threads _ _ _ _ _ _ _ _ _ Hc Hk).
      by rewrite insertRow_threads, beforeProvider_threads.
    + rewrite (POST_uncalled _ _ _ _ _ _ _ _ Hvalid Hfin). cbn [snd db].
      by rewrite beforeProvider_threads.
  - destruct (POST_valid_rows _ _ _ _ _ _ _ _ Hvalid)
      as (U & A & _ & HUA & HUshape & HAshape).
    apply (messagesOf_app_other d _ tid k (U ++ A) HUA); [| done].
    apply Forall_app. split.
    + destruct HUshape as [-> | [m ->]]; by repeat constructor.
    + destruct HAshape as [-> | (text & _ & ->)]; by repeat constructor.
Qed.

Lemma POST_leaves_other_threads_alone_witness :
  threads (after (POST env_ok req_hi) (db_fresh "gpt-4o")) !! "t2"
  = threads (db_fresh "gpt-4o") !! "t2"
  ∧ messagesOf (after (POST env_ok req_hi) (db_fresh "gpt-4o")) "t2"
    = messagesOf (db_fresh "gpt-4o") "t2".
Proof.
  apply (POST_leaves_other_threads_alone env_ok req_hi (db_fresh "gpt-4o")
           alice "t1" body_hi (thread_with "gpt-4o") gpt_4o "t2").
  - split; reflexivity || discriminate.
  - discriminate.
Defined.

(** The thread updates of a completed valid request are those that follow
    the assistant insert. *)
Lemma updates_finished (env : Env) (d : Database) (uid tid : string)
    (body : RequestBody) (model : LanguageModel) (count : option nat)
    (row : MessageRow) (ok : bool) (tail : list Effect) :
  updates
    (log (beforeProvider env d uid tid body)
     ++ StreamText model (projectMessages (body_messages body))
          (body_system body)
        :: CountMessages tid count
        :: InsertMessage row ok
        :: tail)
  = updates tail.
Proof. by rewrite updates_app, beforeProvider_updates. Qed.

(** X9. When the title model answers, the title written to the thread is
    its text, trimmed and stripped of one quote at each end; the update
    carries no model id, and when the store accepts it the thread keeps
    owner and model and gets the new title and timestamp. *)
Theorem POST_writes_cleaned_title
    (env : Env) (req : Request) (d : Database) (uid tid : string)
    (body : RequestBody) (t : ThreadRow) (cfg : ModelConfig)
    (raw : string) (r : Response) (w' : World) :
  ValidRequest env req d uid tid body t cfg →
  streamError env = None →
  titleText env = Some raw →
  run (POST env req) d = (r, w') →
  titleCalls (log w') ≠ [] →
  updates (log w')
  = [(tid, {| set_title := Some (stripQuotes (trim raw));
              set_model_id := None;
              set_updated_at := Some (finishDate env) |})]
  ∧ (storeFails env UpdateTitle = false →
     threads (db w') !! tid
     = Some {| user_id := user_id t;
               title := stripQuotes (trim raw);
               model_id := model_id t;
               updated_at := dbNow env |}).
Proof.
  intros Hvalid He Htitle Hrun Hcalled.
  destruct (onFinishText env) as [text|] eqn:Hfin.
  2:{ rewrite (POST_uncalled _ _ _ _ _ _ _ _ Hvalid Hfin) in Hrun.
      injection Hrun as <- <-. cbn [log] in Hcalled.
      rewrite titleCalls_app, beforeProvider_titleCalls in Hcalled.
      done. }
  destruct (POST_called _ _ _ _ _ _ _ _ _ Hvalid Hfin)
    as (tail & d' & Hc & Heq).
  rewrite Heq in Hrun. injection Hrun as <- <-. cbn [log db] in *.
  rewrite titleCalls_finished in Hcalled. rewrite updates_finished.
  pose proof (valid_owns _ _ _ _ _ _ _ _ Hvalid) as Howns.
  pose proof (valid_thread _ _ _ _ _ _ _ _ Hvalid) as Hthread.
  inversion Hc as [Hseq | Hseq Hnone | c raw' Hseq Hsome Hraw
                  | c Hseq Hsome Hraw]; subst tail.
  - done.
  - done.
  - rewrite Htitle in Hraw. injection Hraw as <-. split; [reflexivity |].
    intros Hok. subst d'. unfold updatedRow.
    rewrite Hok, ownsThread_insertRow. unfold ownsThread at 1.
    rewrite insertRow_threads, beforeProvider_threads.
    fold (ownsThread d uid tid). rewrite Howns, Hthread. simpl.
    by rewrite lookup_insert_eq.
  - by rewrite Htitle in Hraw.
Qed.

Lemma POST_writes_cleaned_title_witness :
  updates (log (worldAfter (POST env_quoted_title req_hi) (db_fresh "gpt-4o")))
  = [("t1", {| set_title := Some "Greeting";
               set_model_id := None;
               set_updated_at := Some 1700000002000%N |})]
  ∧ (false = false →
     threads (db (worldAfter (POST env_quoted_title req_hi)
                             (db_fresh "gpt-4o"))) !! "t1"
     = Some {| user_id := alice;
               title := "Greeting";
               model_id := "gpt-4o";
               updated_at := 1700000002001%N |}).
Proof.
  apply (POST_writes_cleaned_title env_quoted_title req_hi
           (db_fresh "gpt-4o") alice "t1" body_hi (thread_with "gpt-4o")
           gpt_4o (noBreakSpace +:+ " 'Greeting' " +:+ ideographicSpace)
           (run (POST env_quoted_title req_hi) (db_fresh "gpt-4o")).1).
  - split; reflexivity || discriminate.
  - reflexivity.
  - reflexivity.
  - reflexivity.
  - by vm_compute.
Defined.

(** X10. A request whose completion callback is invoked updates its
    thread row once, with an update that carries no model id, except in
    one case: when the assistant row got sequence number 1 and the title
    model was not called (no first user message was found), no update is
    made at all and the thread table, timestamp included, is as before
    the request. *)
Theorem POST_completion_updates_thread_at_most_once
    (env : Env) (req : Request) (d : Database) (uid tid : string)
    (body : RequestBody) (t : ThreadRow) (cfg : ModelConfig)
    (text : string) (r : Response) (w' : World) :
  ValidRequest env req d uid tid body t cfg →
  onFinishText env = Some text →
  run (POST env req) d = (r, w') →
  ∃ (row : MessageRow) (ok : bool),
    insertsAs assistant (log w') = [(row, ok)]
    ∧ (sequence_index row = 1 →
       titleCalls (log w') = [] →
       updates (log w') = [] ∧ threads (db w') = threads d)
    ∧ (sequence_index row ≠ 1 ∨ titleCalls (log w') ≠ [] →
       ∃ u : ThreadUpdate,
         updates (log w') = [(tid, u)] ∧ set_model_id u = None).
Proof.
  intros Hvalid Hfin Hrun.
  destruct (POST_called _ _ _ _ _ _ _ _ _ Hvalid Hfin)
    as (tail & d' & Hc & Heq).
  rewrite Heq in Hrun. injection Hrun as <- <-. cbn [log db].
  rewrite titleCalls_finished, updates_finished.
  eexists _, _. split; [| split].
  - rewrite inserts_finished by apply (Completion_inserts Hc). reflexivity.
  - intros Hseq Hnone.
    inversion Hc as [Hne | _ _ | c raw _ _ _ | c _ _ _]; subst tail.
    + done.
    + subst d'. split; [done |].
      by rewrite insertRow_threads, beforeProvider_threads.
    + done.
    + done.
  - intros Hcase.
    inversion Hc as [Hne | Hseq Hnone | c raw _ _ _ | c _ _ _]; subst tail.
    + by eexists.
    + destruct Hcase as [Hne | Hcalled]; done.
    + by eexists.
    + by eexists.
Qed.

Lemma POST_completion_updates_thread_at_most_once_witness :
  ∃ (row : MessageRow) (ok : bool),
    insertsAs assistant
      (log (worldAfter (POST env_ok req_replay) db_assistant_only))
    = [(row, ok)]
    ∧ (sequence_index row = 1 →
       titleCalls (log (worldAfter (POST env_ok req_replay) db_assistant_only))
       = [] →
       updates (log (worldAfter (POST env_ok req_replay) db_assistant_only))
       = []
       ∧ threads (db (worldAfter (POST env_ok req_replay) db_assistant_only))
         = threads db_assistant_only)
    ∧ (sequence_index row ≠ 1
       ∨ titleCalls
           (log (worldAfter (POST env_ok req_replay) db_assistant_only)) ≠ [] →
       ∃ u : ThreadUpdate,
         updates (log (worldAfter (POST env_ok req_replay) db_assistant_only))
         = [("t1", u)] ∧ set_model_id u = None).
Proof.
  apply (POST_completion_updates_thread_at_most_once env_ok req_replay
           db_assistant_only alice "t1" body_replay
           {| user_id := alice; title := "New Chat"; model_id := "gpt-4o";
              updated_at := 1700000002001%N |}
           gpt_4o "Hello"
           (run (POST env_ok req_replay) db_assistant_only).1).
  - split; [reflexivity | reflexivity | reflexivity | discriminate
           | by vm_compute | reflexivity].
  - reflexivity.
  - reflexivity.
Defined.

(** ** The title clean-up *)

Lemma rev_app_append (s acc : string) :
  String.rev_app s acc = String.rev_app s "" +:+ acc.
Proof.
  revert acc. induction s as [|c s IH]; intros acc; [done |].
  cbn [String.rev_app]. rewrite (IH (String c acc)), (IH (String c "")).
  by rewrite append_assoc.
Qed.

Lemma rev_cons (c : ascii) (s : string) :
  String.rev (String c s) = String.rev s +:+ String c "".
Proof. unfold String.rev. cbn [String.rev_app]. apply rev_app_append. Qed.

Lemma rev_append (s1 s2 : string) :
  String.rev (s1 +:+ s2) = String.rev s2 +:+ String.rev s1.
Proof.
  induction s1 as [|c s1 IH].
  - change ("" +:+ s2) with s2. by rewrite append_nil_r.
  - change (String c s1 +:+ s2) with (String c (s1 +:+ s2)).
    by rewrite !rev_cons, IH, append_assoc.
Qed.

Lemma rev_involutive (s : string) : String.rev (String.rev s) = s.
Proof.
  induction s as [|c s IH]; [done |].
  rewrite rev_cons, rev_append, IH. reflexivity.
Qed.

(** X11. Stripping undoes quoting: a text put between two quote
    characters (double or single, in any combination) comes back as it
    was, whatever it contains; and a text with no quote at its start and
    none at its end is left as it is. *)
Theorem stripQuotes_unquotes (s : string) :
  (∀ q1 q2 : ascii,
      isQuote q1 = true → isQuote q2 = true →
      stripQuotes (String q1 (s +:+ String q2 "")) = s)
  ∧ ((∀ (c : ascii) (s' : string), s = String c s' → isQuote c = false) →
     (∀ (c : ascii) (s' : string),
         String.rev s = String c s' → isQuote c = false) →
     stripQuotes s = s).
Proof.
  split.
  - intros q1 q2 H1 H2. unfold stripQuotes. cbn [dropLeadingQuote].
    rewrite H1, rev_append. change (String.rev (String q2 "")) with (String q2 "").
    change (String q2 "" +:+ String.rev s) with (String q2 (String.rev s)).
    cbn [dropLeadingQuote]. by rewrite H2, rev_involutive.
  - intros Hfirst Hlast. unfold stripQuotes.
    assert (dropLeadingQuote s = s) as ->.
    { destruct s as [|c s']; [done |]. cbn [dropLeadingQuote].
      by rewrite (Hfirst c s'). }
    assert (dropLeadingQuote (String.rev s) = String.rev s) as ->.
    { destruct (String.rev s) as [|c s'] eqn:Hrev; [done |].
      cbn [dropLeadingQuote]. by rewrite (Hlast c s'). }
    apply rev_involutive.
Qed.

Lemma stripQuotes_unquotes_witness :
  stripQuotes (String (ascii_of_nat 39) ("New Chat" +:+ String (ascii_of_nat 34) ""))
  = "New Chat".
Proof.
  destruct (stripQuotes_unquotes "New Chat") as [Hquoted _].
  apply Hquoted; reflexivity.
Defined.

(** ** From the model picker to the chat route *)

(** Every registry entry is found under its own id. *)
Lemma getModelById_registry (c : ModelConfig) :
  In c AVAILABLE_MODELS → getModelById (id c) = Some c.
Proof.
  simpl. intros Hin.
  repeat (destruct Hin as [<- | Hin]; [reflexivity |]).
  destruct Hin.
Qed.

(** X12. Every model the picker offers works end to end: when the client
    changes the model of its current thread, held to be empty, to a
    registry entry, and the owner's thread update is accepted, the next
    chat call of the owner on that thread passes the model check with
    that entry and is answered with the event stream. *)
Theorem picked_model_passes_chat_check
    (c : ModelConfig) (st : ClientState) (tid : string)
    (env env' : Env) (d : Database) (t : ThreadRow) (body : RequestBody) :
  In c AVAILABLE_MODELS →
  currentThreadId st = Some tid →
  tid ≠ "" →
  currentThreadHasMessages st = false →
  authUser env = Some (user_id t) →
  storeFails env PatchThread = false →
  threads d !! tid = Some t →
  authUser env' = Some (user_id t) →
  storeFails env' FetchThread = false →
  ∃ (patch : PatchBody) (d' : Database),
    handleModelChange st (id c) = Some (tid, patch)
    ∧ d' = after (PATCH env tid patch) d
    ∧ ValidRequest env'
        {| threadIdFromQuery := Some tid; json := Some body |}
        d' (user_id t) tid body
        {| user_id := user_id t; title := title t; model_id := id c;
           updated_at := dbNow env |}
        c
    ∧ ∃ (events : list WireEvent) (ending : StreamEnd),
        (run (POST env' {| threadIdFromQuery := Some tid;
                           json := Some body |}) d').1
        = EventStreamResponse events ending.
Proof.
  intros Hin Hcur Hne Hempty Hauth Hok Hthread Hauth' Hfetch.
  eexists _, _. split; [| split; [reflexivity |]].
  { unfold handleModelChange. rewrite Hcur, Hempty.
    destruct tid as [|a tid']; [done | reflexivity]. }
  assert (threads (after (PATCH env tid
                            {| patch_title := None;
                               patch_model_id := Some (id c) |}) d) !! tid
          = Some {| user_id := user_id t; title := title t; model_id := id c;
                    updated_at := dbNow env |}) as Hrow.
  { unfold after, worldAfter, run, PATCH, getUser, updateThread, updatedRow,
      ownsThread. unfold_M. rewrite Hauth.
    cbn [patch_title patch_model_id]. simpl_world.
    rewrite Hok, Hthread, bool_decide_eq_true_2 by done. simpl.
    by rewrite lookup_insert_eq. }
  assert (ValidRequest env'
            {| threadIdFromQuery := Some tid; json := Some body |}
            (after (PATCH env tid
                      {| patch_title := None;
                         patch_model_id := Some (id c) |}) d)
            (user_id t) tid body
            {| user_id := user_id t; title := title t; model_id := id c;
               updated_at := dbNow env |} c) as Hvalid.
  { split; try done.
    - cbn [threadIdFromQuery str_or]. by rewrite bool_decide_eq_false_2.
    - unfold fetchThread, ownsThread. rewrite Hfetch, Hrow. cbn [user_id].
      by rewrite bool_decide_eq_true_2.
    - cbn [model_id]. by apply getModelById_registry. }
  split; [exact Hvalid |].
  exact (POST_valid_streams _ _ _ _ _ _ _ _ Hvalid).
Qed.

Lemma picked_model_passes_chat_check_witness :
  ∃ (patch : PatchBody) (d' : Database),
    handleModelChange
      {| currentThreadId := Some "t1"; currentThreadHasMessages := false |}
      "haiku-4-5" = Some ("t1", patch)
    ∧ d' = after (PATCH env_ok "t1" patch) (db_fresh "gpt-4o")
    ∧ ValidRequest env_ok
        {| threadIdFromQuery := Some "t1"; json := Some body_hi |}
        d' alice "t1" body_hi
        {| user_id := alice; title := "New Chat"; model_id := "haiku-4-5";
           updated_at := 1700000002001%N |}
        haiku_4_5
    ∧ ∃ (events : list WireEvent) (ending : StreamEnd),
        (run (POST env_ok {| threadIdFromQuery := Some "t1";
                             json := Some body_hi |}) d').1
        = EventStreamResponse events ending.
Proof.
  apply (picked_model_passes_chat_check haiku_4_5
           {| currentThreadId := Some "t1";
              currentThreadHasMessages := false |}
           "t1" env_ok env_ok (db_fresh "gpt-4o") (thread_with "gpt-4o")
           body_hi).
  - simpl. tauto.
  - reflexivity.
  - discriminate.
  - reflexivity.
  - reflexivity.
  - reflexivity.
  - reflexivity.
  - reflexivity.
  - reflexivity.
Defined.

(** ** The thread update beyond the claims *)

Ltac patch_unchanged :=
  simpl;
  repeat match goal with
         | H : threads _ !! _ = _ |- _ => rewrite H
         end;
  split; [reflexivity |]; split; [intros; reflexivity |];
  split; [reflexivity |]; let H := fresh in intros ? H; discriminate H.

(** X13. A thread update never touches the message table nor any other
    thread, and keeps the owner of its thread; when it answers with the
    updated thread, that row is the one stored, it belongs to the caller,
    and its timestamp is the store's clock although the request carries
    none. *)
Theorem PATCH_touches_one_thread_row
    (env : Env) (tid : string) (body : PatchBody) (d : Database) :
  messages (after (PATCH env tid body) d) = messages d
  ∧ (∀ k : string, k ≠ tid →
       threads (after (PATCH env tid body) d) !! k = threads d !! k)
  ∧ user_id <$> threads (after (PATCH env tid body) d) !! tid
    = user_id <$> threads d !! tid
  ∧ (∀ t' : ThreadRow,
       (run (PATCH env tid body) d).1 = PatchOk t' →
       threads (after (PATCH env tid body) d) !! tid = Some t'
       ∧ authUser env = Some (user_id t')
       ∧ updated_at t' = dbNow env).
Proof.
  unfold after, worldAfter, run, PATCH, getUser, updateThread. unfold_M.
  destruct (authUser env) as [uid|] eqn:Hauth; [| patch_unchanged].
  destruct (patch_title body) as [newTitle|] eqn:Htitle,
           (patch_model_id body) as [newModel|] eqn:Hmodel;
    simpl_world; try patch_unchanged.
  all: unfold updatedRow, ownsThread;
    destruct (storeFails env PatchThread); [patch_unchanged |];
    destruct (threads d !! tid) as [t|] eqn:Hthread; [| patch_unchanged];
    case_bool_decide as Howner; [| patch_unchanged]; simpl;
    (split; [done |]); (split; [intros k Hk; by apply lookup_insert_ne |]);
    (split; [by rewrite lookup_insert_eq |]);
    intros t' [= <-]; rewrite lookup_insert_eq; unfold applyUpdate;
    cbn [user_id updated_at]; by rewrite Howner.
Qed.

Lemma PATCH_touches_one_thread_row_witness :
  threads (after (PATCH env_ok "t1"
                    {| patch_title := Some "Plans"; patch_model_id := None |})
                 (db_fresh "gpt-4o")) !! "t1"
  = Some {| user_id := alice; title := "Plans"; model_id := "gpt-4o";
            updated_at := 1700000002001%N |}
  ∧ authUser env_ok
    = Some (user_id {| user_id := alice; title := "Plans";
                       model_id := "gpt-4o";
                       updated_at := 1700000002001%N |})
  ∧ updated_at {| user_id := alice; title := "Plans"; model_id := "gpt-4o";
                  updated_at := 1700000002001%N |}
    = dbNow env_ok.
Proof.
  destruct (PATCH_touches_one_thread_row env_ok "t1"
              {| patch_title := Some "Plans"; patch_model_id := None |}
              (db_fresh "gpt-4o")) as (_ & _ & _ & Hanswer).
  apply Hanswer. reflexivity.
Defined.

(** X14. A thread update that answers with an error has changed nothing;
    and a thread of another user cannot be updated: the answer is an
    error and the store is as it was. *)
Theorem PATCH_error_changes_nothing
    (env : Env) (tid : string) (body : PatchBody) (d : Database) :
  (∀ (status : nat) (error : string),
      (run (PATCH env tid body) d).1 = PatchError status error →
      after (PATCH env tid body) d = d)
  ∧ (∀ (uid : string) (t : ThreadRow),
       authUser env = Some uid →
       threads d !! tid = Some t →
       user_id t ≠ uid →
       (∃ (status : nat) (error : string),
           (run (PATCH env tid body) d).1 = PatchError status error)
       ∧ after (PATCH env tid body) d = d).
Proof.
  split.
  - intros status error.
    unfold after, worldAfter, run, PATCH, getUser, updateThread. unfold_M.
    destruct (authUser env) as [uid|]; [| done].
    destruct (patch_title body), (patch_model_id body); simpl_world;
      try done;
      by destruct (updatedRow _ _ _ _ _ _).
  - intros uid t Hauth Hthread Hother.
    unfold after, worldAfter, run, PATCH, getUser, updateThread, updatedRow,
      ownsThread. unfold_M. rewrite Hauth.
    destruct (patch_title body), (patch_model_id body); simpl_world;
      rewrite ?Hthread, ?bool_decide_eq_false_2 by done;
      destruct (storeFails env PatchThread);
      by split; [eexists _, _ |].
Qed.

Lemma PATCH_error_changes_nothing_witness :
  (∃ (status : nat) (error : string),
      (run (PATCH env_ok "t1"
              {| patch_title := Some "Mine now"; patch_model_id := None |})
           db_of_bob).1 = PatchError status error)
  ∧ after (PATCH env_ok "t1"
             {| patch_title := Some "Mine now"; patch_model_id := None |})
          db_of_bob
    = db_of_bob.
Proof.
  destruct (PATCH_error_changes_nothing env_ok "t1"
              {| patch_title := Some "Mine now"; patch_model_id := None |}
              db_of_bob) as [_ Hforeign].
  apply (Hforeign alice
           {| user_id := bob; title := "New Chat"; model_id := "gpt-4o";
              updated_at := 0%N |}).
  - reflexivity.
  - reflexivity.
  - discriminate.
Defined.

(** ** Creating, reading and deleting threads *)

(** X15. A thread that the create route answers with is stored under the
    generated id exactly as answered and belongs to the caller; the id was
    free, no other thread and no message changes, and reading the thread
    back gives the same row. Its title and model id are never empty. *)
Theorem threads_POST_stores_what_it_answers
    (tenv : ThreadsEnv) (body : CreateBody) (d : Database) (t : ThreadRow) :
  (threads_POST tenv body d).1 = ApiData t →
  signedIn tenv = Some (user_id t)
  ∧ threads d !! newThreadId tenv = None
  ∧ threads (threads_POST tenv body d).2 !! newThreadId tenv = Some t
  ∧ (∀ k : string, k ≠ newThreadId tenv →
       threads (threads_POST tenv body d).2 !! k = threads d !! k)
  ∧ messages (threads_POST tenv body d).2 = messages d
  ∧ (callFails tenv ReadThread = false →
     thread_GET tenv (newThreadId tenv) (threads_POST tenv body d).2
       = ApiData t)
  ∧ title t ≠ "" ∧ model_id t ≠ "".
Proof.
  unfold threads_POST, thread_GET.
  destruct (signedIn tenv) as [uid|]; [| done].
  destruct (callFails tenv CreateThread); [done |].
  destruct (threads d !! newThreadId tenv) eqn:Hfree; [done |].
  cbn [fst snd threads messages]. intros [= <-]. cbn [user_id title model_id].
  repeat split.
  - by rewrite lookup_insert_eq.
  - intros k Hk. by apply lookup_insert_ne.
  - intros ->. rewrite lookup_insert_eq. cbn [user_id].
    by rewrite bool_decide_eq_true_2.
  - unfold str_or_default. destruct (new_title body) as [s|]; [| done].
    by case_bool_decide.
  - unfold str_or_default. destruct (new_model_id body) as [s|]; [| done].
    by case_bool_decide.
Qed.

Lemma threads_POST_stores_what_it_answers_witness :
  threads (threads_POST tenv_alice
             {| new_title := None; new_model_id := Some "haiku-4-5" |}
             db_three_threads).2 !! "t9"
  = Some {| user_id := alice; title := "New Chat"; model_id := "haiku-4-5";
            updated_at := 1700000003000%N |}.
Proof.
  destruct (threads_POST_stores_what_it_answers tenv_alice
              {| new_title := None; new_model_id := Some "haiku-4-5" |}
              db_three_threads
              {| user_id := alice; title := "New Chat";
                 model_id := "haiku-4-5"; updated_at := 1700000003000%N |})
    as (_ & _ & Hstored & _).
  - reflexivity.
  - exact Hstored.
Defined.

(** X16. A thread created without a model id, or with an empty one, runs
    on gpt-4o, which the registry has: the chat route's model check
    accepts every thread created with the defaults. *)
Theorem threads_POST_default_model_is_registered
    (tenv : ThreadsEnv) (body : CreateBody) (d : Database) (t : ThreadRow) :
  (threads_POST tenv body d).1 = ApiData t →
  new_model_id body = None ∨ new_model_id body = Some "" →
  model_id t = "gpt-4o" ∧ is_Some (getModelById (model_id t)).
Proof.
  unfold threads_POST.
  destruct (signedIn tenv) as [uid|]; [| done].
  destruct (callFails tenv CreateThread); [done |].
  destruct (threads d !! newThreadId tenv); [done |].
  cbn [fst]. intros [= <-] Hmodel. cbn [model_id].
  assert (str_or_default (new_model_id body) "gpt-4o" = "gpt-4o") as ->.
  { by destruct Hmodel as [-> | ->]. }
  split; [done | by eexists].
Qed.

Lemma threads_POST_default_model_is_registered_witness :
  model_id {| user_id := alice; title := "Plans"; model_id := "gpt-4o";
              updated_at := 1700000003000%N |} = "gpt-4o"
  ∧ is_Some (getModelById
               (model_id {| user_id := alice; title := "Plans";
                            model_id := "gpt-4o";
                            updated_at := 1700000003000%N |})).
Proof.
  apply (threads_POST_default_model_is_registered tenv_alice
           {| new_title := Some "Plans"; new_model_id := Some "" |}
           db_three_threads).
  - reflexivity.
  - right. reflexivity.
Defined.

(** X17. The create route does not check the model id against the
    registry: a thread is created with any non-empty model id, and when
    that id is not in the registry every chat call on the new thread
    answers 400 Invalid model without writing anything. *)
Theorem unregistered_model_is_accepted_at_creation_and_rejected_at_chat
    (tenv : ThreadsEnv) (cbody : CreateBody) (d : Database)
    (env : Env) (req : Request) (body : RequestBody) (uid m : string) :
  signedIn tenv = Some uid →
  callFails tenv CreateThread = false →
  threads d !! newThreadId tenv = None →
  new_model_id cbody = Some m →
  m ≠ "" →
  getModelById m = None →
  authUser env = Some uid →
  storeFails env FetchThread = false →
  json req = Some body →
  str_or (threadIdFromQuery req) (body_threadId body)
    = Some (newThreadId tenv) →
  newThreadId tenv ≠ "" →
  ∃ t : ThreadRow,
    (threads_POST tenv cbody d).1 = ApiData t
    ∧ model_id t = m
    ∧ run (POST env req) (threads_POST tenv cbody d).2
      = (JsonResponse 400 ("Invalid model: " +:+ m),
         {| db := (threads_POST tenv cbody d).2;
            log := [GetUser; SelectThread (newThreadId tenv)] |}).
Proof.
  intros Hin Hcreate Hfree Hmodel Hne Hunknown Hauth Hfetch Hjson Htid Hid.
  unfold threads_POST. rewrite Hin, Hcreate, Hfree. cbn [fst snd].
  assert (str_or_default (new_model_id cbody) "gpt-4o" = m) as Hm.
  { rewrite Hmodel. unfold str_or_default. by rewrite bool_decide_eq_false_2. }
  rewrite Hm. eexists. split; [reflexivity |]. split; [reflexivity |].
  unfold run, POST, getUser, selectThread. unfold_M.
  rewrite Hauth, Hjson, Htid.
  destruct (newThreadId tenv) as [|c tid'] eqn:Hnew; [done |].
  simpl_world. unfold fetchThread, ownsThread. rewrite Hfetch.
  cbn [threads]. rewrite lookup_insert_eq. cbn [user_id].
  rewrite bool_decide_eq_true_2 by done. cbn [model_id].
  by rewrite Hunknown.
Qed.

Lemma unregistered_model_is_accepted_at_creation_and_rejected_at_chat_witness :
  ∃ t : ThreadRow,
    (threads_POST tenv_alice
       {| new_title := None; new_model_id := Some "gpt-5" |}
       db_three_threads).1 = ApiData t
    ∧ model_id t = "gpt-5"
    ∧ run (POST env_ok {| threadIdFromQuery := Some "t9";
                          json := Some body_hi |})
          (threads_POST tenv_alice
             {| new_title := None; new_model_id := Some "gpt-5" |}
             db_three_threads).2
      = (JsonResponse 400 ("Invalid model: " +:+ "gpt-5"),
         {| db := (threads_POST tenv_alice
                     {| new_title := None; new_model_id := Some "gpt-5" |}
                     db_three_threads).2;
            log := [GetUser; SelectThread "t9"] |}).
Proof.
  apply (unregistered_model_is_accepted_at_creation_and_rejected_at_chat
           tenv_alice {| new_title := None; new_model_id := Some "gpt-5" |}
           db_three_threads env_ok
           {| threadIdFromQuery := Some "t9"; json := Some body_hi |}
           body_hi alice "gpt-5").
  - reflexivity.
  - reflexivity.
  - reflexivity.
  - reflexivity.
  - discriminate.
  - reflexivity.
  - reflexivity.
  - reflexivity.
  - reflexivity.
  - reflexivity.
  - discriminate.
Defined.

(** The rows a delete keeps: those of threads it did not remove. *)
Lemma deleteOwned_threads (d : Database) (uid : string) (ids : list string)
    (k : string) :
  threads (deleteOwned d uid ids) !! k
  = if bool_decide (k ∈ ids) && ownsThread d uid k then None
    else threads d !! k.
Proof.
  unfold deleteOwned, ownsThread. cbn [threads].
  destruct (threads d !! k) as [t|] eqn:Hk.
  - case_bool_decide as Hin; cbn [andb].
    + case_bool_decide as Howner.
      * apply map_lookup_filter_None. right. intros t' Ht' Hkeep.
        rewrite Hk in Ht'. injection Ht' as <-. by apply Hkeep.
      * apply map_lookup_filter_Some. split; [done |].
        cbn. intros [_ ?]. done.
    + apply map_lookup_filter_Some. split; [done |].
      cbn. intros [? _]. done.
  - rewrite andb_false_r.
    apply map_lookup_filter_None. by left.
Qed.

Lemma deleteOwned_messagesOf (d : Database) (uid : string)
    (ids : list string) (k : string) :
  messagesOf (deleteOwned d uid ids) k
  = if bool_decide (k ∈ ids) && ownsThread d uid k then []
    else messagesOf d k.
Proof.
  unfold messagesOf, deleteOwned. cbn [messages].
  destruct (bool_decide (k ∈ ids) && ownsThread d uid k) eqn:Hgone.
  - apply andb_true_iff in Hgone as [Hin%bool_decide_eq_true Howns].
    apply filter_none, Forall_forall.
    intros m [Hkeep _]%list_elem_of_filter Hk. subst k. by apply Hkeep.
  - induction (messages d) as [|m l IH]; [done |].
    rewrite (filter_cons _ m l).
    destruct (decide (thread_id m = k)) as [Hk | Hk].
    + rewrite decide_True.
      * rewrite !filter_cons_True by done. by rewrite IH.
      * subst k. intros [Hin Howns].
        by rewrite bool_decide_eq_true_2, Howns in Hgone.
    + rewrite (filter_cons_False _ m l) by done.
      destruct (decide (¬ _)); [| done].
      by rewrite filter_cons_False.
Qed.

(** X18. When the owner deletes a thread, the thread and all its messages
    are gone, reading it or its messages answers 404, and every other
    thread keeps its row and its messages. *)
Theorem thread_DELETE_removes_thread_with_its_messages
    (tenv : ThreadsEnv) (tid : string) (d : Database) (uid : string) :
  signedIn tenv = Some uid →
  callFails tenv DeleteThread = false →
  ownsThread d uid tid = true →
  (thread_DELETE tenv tid d).1 = ApiData tt
  ∧ threads (thread_DELETE tenv tid d).2 !! tid = None
  ∧ messagesOf (thread_DELETE tenv tid d).2 tid = []
  ∧ (∀ k : string, k ≠ tid →
       threads (thread_DELETE tenv tid d).2 !! k = threads d !! k
       ∧ messagesOf (thread_DELETE tenv tid d).2 k = messagesOf d k)
  ∧ thread_GET tenv tid (thread_DELETE tenv tid d).2
    = ApiError 404 (storeMessage tenv ReadThread)
  ∧ messages_GET tenv tid (thread_DELETE tenv tid d).2
    = ApiError 404 "Thread not found".
Proof.
  intros Hin Hdelete Howns.
  unfold thread_DELETE. rewrite Hin, Hdelete. cbn [fst snd].
  assert (threads (deleteOwned d uid [tid]) !! tid = None) as Hgone.
  { rewrite deleteOwned_threads, Howns.
    by rewrite bool_decide_eq_true_2
      by (by apply list_elem_of_singleton). }
  split; [done |]. split; [done |]. split.
  { rewrite deleteOwned_messagesOf, Howns.
    by rewrite bool_decide_eq_true_2
      by (by apply list_elem_of_singleton). }
  split.
  { intros k Hk. rewrite deleteOwned_threads, deleteOwned_messagesOf.
    by rewrite bool_decide_eq_false_2
      by (by rewrite list_elem_of_singleton). }
  split.
  - unfold thread_GET. rewrite Hin, Hgone. by destruct (callFails tenv ReadThread).
  - unfold messages_GET, ownsThread. rewrite Hin, Hgone.
    by rewrite orb_true_r.
Qed.

Lemma thread_DELETE_removes_thread_with_its_messages_witness :
  threads (thread_DELETE tenv_alice "t1" db_three_threads).2 !! "t1" = None
  ∧ messagesOf (thread_DELETE tenv_alice "t1" db_three_threads).2 "t1" = [].
Proof.
  destruct (thread_DELETE_removes_thread_with_its_messages tenv_alice "t1"
              db_three_threads alice) as (_ & Hgone & Hrows & _).
  - reflexivity.
  - reflexivity.
  - reflexivity.
  - exact (conj Hgone Hrows).
Defined.

(** X19. Deleting a thread the caller does not own, or one that does not
    exist, answers success like a real deletion and leaves the store as
    it was. *)
Theorem thread_DELETE_of_foreign_thread_is_silent
    (tenv : ThreadsEnv) (tid : string) (d : Database) (uid : string) :
  signedIn tenv = Some uid →
  callFails tenv DeleteThread = false →
  ownsThread d uid tid = false →
  thread_DELETE tenv tid d = (ApiData tt, d).
Proof.
  intros Hin Hdelete Howns.
  unfold thread_DELETE. rewrite Hin, Hdelete. f_equal.
  assert (∀ k : string, k ∈ [tid] → ownsThread d uid k = false) as Hids.
  { intros k Hk. apply list_elem_of_singleton in Hk. by subst. }
  unfold deleteOwned. destruct d as [ts ms]. cbn [threads messages]. f_equal.
  - apply map_filter_id. intros k t Hk [Hin' Howner]. cbn in Hin', Howner.
    specialize (Hids k Hin'). unfold ownsThread in Hids. cbn [threads] in Hids.
    rewrite Hk in Hids. by rewrite bool_decide_eq_true_2 in Hids.
  - apply filter_all. apply Forall_forall. intros m _ [Hin' Howned].
    by rewrite (Hids _ Hin') in Howned.
Qed.

Lemma thread_DELETE_of_foreign_thread_is_silent_witness :
  thread_DELETE tenv_alice "t3" db_three_threads
  = (ApiData tt, db_three_threads).
Proof.
  apply (thread_DELETE_of_foreign_thread_is_silent tenv_alice "t3"
           db_three_threads alice).
  - reflexivity.
  - reflexivity.
  - reflexivity.
Defined.

(** ** Listing threads and messages *)

Lemma newestFirst_trans : Transitive newestFirst.
Proof. intros x y z. unfold newestFirst. lia. Qed.

Lemma newestFirst_total : Total newestFirst.
Proof. intros x y. unfold newestFirst. lia. Qed.

Lemma bySequence_trans : Transitive bySequence.
Proof. intros x y z. unfold bySequence. lia. Qed.

Lemma bySequence_total : Total bySequence.
Proof. intros x y. unfold bySequence. lia. Qed.

Lemma StronglySorted_filter {A} (R : relation A) (P : A → Prop)
    `{∀ x, Decision (P x)} (l : list A) :
  StronglySorted R l → StronglySorted R (filter P l).
Proof.
  induction 1 as [|x l Hl IH Hx]; [constructor |].
  rewrite filter_cons. destruct (decide (P x)); [| done].
  constructor; [done |].
  rewrite Forall_forall in Hx |- *.
  intros y [_ Hy]%list_elem_of_filter. by apply Hx.
Qed.

Lemma StronglySorted_lookup {A} (R : relation A) (l : list A)
    (i j : nat) (x y : A) :
  StronglySorted R l → (i < j)%nat →
  l !! i = Some x → l !! j = Some y → R x y.
Proof.
  intros Hl. revert i j.
  induction Hl as [|a l Hl IH Ha]; intros i j Hij Hi Hj; [done |].
  destruct j as [|j]; [lia |]. cbn in Hj.
  destruct i as [|i].
  - injection Hi as <-. rewrite Forall_forall in Ha.
    apply Ha. by eapply list_elem_of_lookup_2.
  - cbn in Hi. apply (IH i j); [lia | done | done].
Qed.

Lemma elem_of_ownThreads (d : Database) (uid k : string) (t : ThreadRow) :
  (k, t) ∈ ownThreads d uid ↔ threads d !! k = Some t ∧ user_id t = uid.
Proof.
  unfold ownThreads. rewrite list_elem_of_filter, elem_of_map_to_list.
  cbn. tauto.
Qed.

Lemma NoDup_ownThreads (d : Database) (uid : string) :
  NoDup (ownThreads d uid).*1.
Proof.
  apply NoDup_fmap_fst.
  - intros k t1 t2 [H1 _]%elem_of_ownThreads [H2 _]%elem_of_ownThreads.
    congruence.
  - apply NoDup_filter, NoDup_map_to_list.
Qed.

(** The entries of an answered thread list. *)
Lemma threads_GET_elem_of (tenv : ThreadsEnv) (d : Database) (uid : string)
    (l : list (string * ThreadRow)) (k : string) (t : ThreadRow) :
  signedIn tenv = Some uid →
  threads_GET tenv d = ApiData l →
  (k, t) ∈ l
  ↔ threads d !! k = Some t ∧ user_id t = uid ∧ messagesOf d k ≠ [].
Proof.
  intros Hin. unfold threads_GET. rewrite Hin.
  destruct (callFails tenv ListThreads); [done |]. intros [= <-].
  rewrite list_elem_of_filter, merge_sort_Permutation, elem_of_ownThreads.
  cbn. destruct (messagesOf d k); cbn; [| intuition (done || lia)].
  intuition (done || lia).
Qed.

Lemma threads_GET_NoDup (tenv : ThreadsEnv) (d : Database)
    (l : list (string * ThreadRow)) :
  threads_GET tenv d = ApiData l → NoDup l.*1.
Proof.
  unfold threads_GET. destruct (signedIn tenv) as [uid|] eqn:Hin; [| done].
  destruct (callFails tenv ListThreads) eqn:Hlist; [done |]. intros [= <-].
  apply NoDup_fmap_fst.
  - intros k t1 t2 [_ H1]%list_elem_of_filter [_ H2]%list_elem_of_filter.
    rewrite merge_sort_Permutation in H1, H2.
    apply elem_of_ownThreads in H1 as [H1 _], H2 as [H2 _]. congruence.
  - apply NoDup_filter. rewrite merge_sort_Permutation.
    eapply NoDup_fmap_1, NoDup_ownThreads.
Qed.

(** X20. The thread list holds exactly the caller's threads that have at
    least one message, each once, ordered from the most recently updated
    to the least. *)
Theorem threads_GET_lists_own_threads_with_messages
    (tenv : ThreadsEnv) (d : Database) (uid : string) :
  signedIn tenv = Some uid →
  callFails tenv ListThreads = false →
  ∃ l : list (string * ThreadRow),
    threads_GET tenv d = ApiData l
    ∧ (∀ (k : string) (t : ThreadRow),
         (k, t) ∈ l
         ↔ threads d !! k = Some t ∧ user_id t = uid ∧ messagesOf d k ≠ [])
    ∧ NoDup l.*1
    ∧ (∀ (i j : nat) (x y : string * ThreadRow),
         (i < j)%nat → l !! i = Some x → l !! j = Some y →
         (updated_at y.2 ≤ updated_at x.2)%N).
Proof.
  intros Hin Hlist.
  destruct (threads_GET tenv d) as [status error | l] eqn:Hget.
  { unfold threads_GET in Hget. by rewrite Hin, Hlist in Hget. }
  exists l. split; [done |]. split.
  { intros k t. by apply (threads_GET_elem_of tenv d uid). }
  split; [by apply (threads_GET_NoDup tenv d) |].
  unfold threads_GET in Hget. rewrite Hin, Hlist in Hget.
  injection Hget as <-. intros i j x y Hij Hi Hj.
  eapply (StronglySorted_lookup newestFirst); [| exact Hij | done | done].
  apply StronglySorted_filter, StronglySorted_merge_sort.
  - apply newestFirst_trans.
  - apply newestFirst_total.
Qed.

Lemma threads_GET_lists_own_threads_with_messages_witness :
  ∃ l : list (string * ThreadRow),
    threads_GET tenv_alice db_three_threads = ApiData l
    ∧ (∀ (k : string) (t : ThreadRow),
         (k, t) ∈ l
         ↔ threads db_three_threads !! k = Some t ∧ user_id t = alice
           ∧ messagesOf db_three_threads k ≠ [])
    ∧ NoDup l.*1
    ∧ (∀ (i j : nat) (x y : string * ThreadRow),
         (i < j)%nat → l !! i = Some x → l !! j = Some y →
         (updated_at y.2 ≤ updated_at x.2)%N).
Proof.
  apply (threads_GET_lists_own_threads_with_messages tenv_alice
           db_three_threads alice).
  - reflexivity.
  - reflexivity.
Defined.

Lemma numbered_StronglySorted (l : list MessageRow) (a : nat) :
  sequence_index <$> l = seq a (length l) →
  StronglySorted bySequence l.
Proof.
  revert a. induction l as [|m l IH]; intros a Hl; [constructor |].
  cbn in Hl. injection Hl as Hm Hl. constructor; [by eapply IH |].
  apply Forall_forall. intros y Hy. unfold bySequence.
  apply (list_elem_of_fmap_2 sequence_index) in Hy.
  rewrite Hl in Hy. apply elem_of_seq in Hy. lia.
Qed.

Lemma numbered_inj (l : list MessageRow) (a : nat) (x y : MessageRow) :
  sequence_index <$> l = seq a (length l) →
  x ∈ l → y ∈ l → sequence_index x = sequence_index y → x = y.
Proof.
  intros Hl [i Hi]%list_elem_of_lookup [j Hj]%list_elem_of_lookup Hxy.
  assert (i = j) as ->; [| congruence].
  apply (NoDup_lookup (sequence_index <$> l) i j (sequence_index x)).
  - rewrite Hl. apply NoDup_seq.
  - by rewrite list_lookup_fmap, Hi.
  - by rewrite list_lookup_fmap, Hj, Hxy.
Qed.

(** X21. For the owner of a thread, the messages route returns the rows
    of the thread and no others, each as often as stored, in ascending
    order of their sequence numbers; when the rows are numbered
    0, 1, 2, ... this is the order in which they were written. *)
Theorem messages_GET_returns_thread_in_sequence_order
    (tenv : ThreadsEnv) (tid : string) (d : Database) (uid : string) :
  signedIn tenv = Some uid →
  callFails tenv VerifyThread = false →
  callFails tenv ListMessages = false →
  ownsThread d uid tid = true →
  ∃ l : list MessageRow,
    messages_GET tenv tid d = ApiData l
    ∧ l ≡ₚ messagesOf d tid
    ∧ (∀ (i j : nat) (x y : MessageRow),
         (i < j)%nat → l !! i = Some x → l !! j = Some y →
         (sequence_index x ≤ sequence_index y)%nat)
    ∧ (WellSequenced d tid → l = messagesOf d tid).
Proof.
  intros Hin Hverify Hlist Howns.
  unfold messages_GET. rewrite Hin, Hverify, Hlist, Howns. cbn [orb negb].
  eexists. split; [reflexivity |].
  assert (StronglySorted bySequence
            (merge_sort bySequence (messagesOf d tid))) as Hsorted.
  { apply StronglySorted_merge_sort;
      [apply bySequence_trans | apply bySequence_total]. }
  split; [apply merge_sort_Permutation |]. split.
  - intros i j x y Hij Hi Hj.
    by apply (StronglySorted_lookup bySequence _ i j x y Hsorted).
  - intros Hseq. unfold WellSequenced in Hseq.
    apply (StronglySorted_unique_strong bySequence).
    + intros x y Hx Hy Hxy Hyx. rewrite merge_sort_Permutation in Hx.
      apply (numbered_inj _ _ x y Hseq Hx Hy).
      unfold bySequence in Hxy, Hyx. lia.
    + exact Hsorted.
    + by eapply numbered_StronglySorted.
    + apply merge_sort_Permutation.
Qed.

Lemma messages_GET_returns_thread_in_sequence_order_witness :
  ∃ l : list MessageRow,
    messages_GET tenv_alice "t1" db_three_threads = ApiData l
    ∧ l ≡ₚ messagesOf db_three_threads "t1"
    ∧ (∀ (i j : nat) (x y : MessageRow),
         (i < j)%nat → l !! i = Some x → l !! j = Some y →
         (sequence_index x ≤ sequence_index y)%nat)
    ∧ (WellSequenced db_three_threads "t1"
       → l = messagesOf db_three_threads "t1").
Proof.
  apply (messages_GET_returns_thread_in_sequence_order tenv_alice "t1"
           db_three_threads alice).
  - reflexivity.
  - reflexivity.
  - reflexivity.
  - reflexivity.
Defined.

(** X22. Reading a thread of another user, or its messages, answers 404
    as for a thread that does not exist, whatever the store holds. *)
Theorem foreign_thread_reads_as_missing
    (tenv : ThreadsEnv) (tid : string) (d : Database) (uid : string) :
  signedIn tenv = Some uid →
  ownsThread d uid tid = false →
  thread_GET tenv tid d = ApiError 404 (storeMessage tenv ReadThread)
  ∧ messages_GET tenv tid d = ApiError 404 "Thread not found".
Proof.
  intros Hin Howns. unfold thread_GET, messages_GET.
  rewrite Hin, Howns, orb_true_r. split; [| done].
  unfold ownsThread in Howns.
  destruct (callFails tenv ReadThread); [done |].
  destruct (threads d !! tid) as [t|]; [| done].
  by rewrite Howns.
Qed.

Lemma foreign_thread_reads_as_missing_witness :
  thread_GET tenv_alice "t3" db_three_threads = ApiError 404 "store error"
  ∧ messages_GET tenv_alice "t3" db_three_threads
    = ApiError 404 "Thread not found".
Proof.
  apply (foreign_thread_reads_as_missing tenv_alice "t3" db_three_threads
           alice).
  - reflexivity.
  - reflexivity.
Defined.

(** ** Removing empty threads *)

(** A thread collected by the cleanup loop has no message. *)
Lemma collectEmpty_empty (tenv : ThreadsEnv) (d : Database)
    (allThreads : list string) (k : string) :
  k ∈ collectEmpty tenv d allThreads → messagesOf d k = [].
Proof.
  unfold collectEmpty. intros [[_ Hlen] _]%list_elem_of_filter.
  by apply nil_length_inv.
Qed.

(** The cleanup route either leaves the store alone or deletes the
    threads it collected. *)
Lemma cleanup_POST_cases (tenv : ThreadsEnv) (d : Database) :
  ((cleanup_POST tenv d).2 = d
   ∧ ∀ n : nat, (cleanup_POST tenv d).1 = ApiData n →
       n = 0
       ∧ ∃ uid : string,
           signedIn tenv = Some uid
           ∧ collectEmpty tenv d (ownThreads d uid).*1 = [])
  ∨ ∃ uid : string,
      signedIn tenv = Some uid
      ∧ cleanup_POST tenv d
        = (ApiData (length (collectEmpty tenv d (ownThreads d uid).*1)),
           deleteOwned d uid (collectEmpty tenv d (ownThreads d uid).*1)).
Proof.
  unfold cleanup_POST.
  destruct (signedIn tenv) as [uid|];
    [| left; split; [done | intros n Hn; discriminate Hn]].
  destruct (callFails tenv CleanupList);
    [left; split; [done | intros n Hn; discriminate Hn] |].
  destruct ((ownThreads d uid).*1) as [|k0 ks] eqn:Hall.
  { left. split; [done |]. intros n [= <-]. split; [done |].
    exists uid. by rewrite Hall. }
  destruct (collectEmpty tenv d (k0 :: ks)) as [|e es] eqn:Hempty.
  { left. split; [done |]. intros n [= <-]. split; [done |].
    exists uid. by rewrite Hall, Hempty. }
  destruct (callFails tenv CleanupDelete);
    [left; split; [done | intros n Hn; discriminate Hn] |].
  right. exists uid. by rewrite Hall, Hempty.
Qed.

Lemma cleanup_POST_messages (tenv : ThreadsEnv) (d : Database) :
  messages (cleanup_POST tenv d).2 = messages d.
Proof.
  destruct (cleanup_POST_cases tenv d) as [[-> _] | (uid & _ & ->)];
    [done |].
  cbn [snd deleteOwned messages]. apply filter_all, Forall_forall.
  intros m Hm [Hin _]. apply collectEmpty_empty in Hin.
  assert (m ∈ messagesOf d (thread_id m)) as Hrow.
  { unfold messagesOf. by apply list_elem_of_filter. }
  rewrite Hin in Hrow. by apply not_elem_of_nil in Hrow.
Qed.

Lemma cleanup_POST_threads (tenv : ThreadsEnv) (d : Database) (k : string) :
  threads (cleanup_POST tenv d).2 !! k = threads d !! k
  ∨ (threads (cleanup_POST tenv d).2 !! k = None
     ∧ ∃ uid : string,
         signedIn tenv = Some uid
         ∧ ownsThread d uid k = true
         ∧ k ∈ collectEmpty tenv d (ownThreads d uid).*1).
Proof.
  destruct (cleanup_POST_cases tenv d) as [[-> _] | (uid & Hin & ->)];
    [by left |].
  cbn [snd]. rewrite deleteOwned_threads.
  case_bool_decide as Hk; [| by left].
  destruct (ownsThread d uid k) eqn:Howns; [| by left].
  right. split; [done |]. by exists uid.
Qed.

Lemma ownsThread_Some (d : Database) (uid k : string) (t : ThreadRow) :
  threads d !! k = Some t → ownsThread d uid k = true → user_id t = uid.
Proof.
  unfold ownsThread. intros ->. by intros ?%bool_decide_eq_true.
Qed.

(** X23. Whatever fails, the cleanup route deletes no message, changes no
    thread it keeps, and removes only threads that belong to the caller
    and have no message. *)
Theorem cleanup_POST_only_removes_own_empty_threads
    (tenv : ThreadsEnv) (d : Database) :
  messages (cleanup_POST tenv d).2 = messages d
  ∧ (∀ (k : string) (t : ThreadRow),
       threads (cleanup_POST tenv d).2 !! k = Some t →
       threads d !! k = Some t)
  ∧ (∀ (k : string) (t : ThreadRow),
       threads d !! k = Some t →
       threads (cleanup_POST tenv d).2 !! k = None →
       signedIn tenv = Some (user_id t) ∧ messagesOf d k = []).
Proof.
  split; [apply cleanup_POST_messages |]. split.
  - intros k t Hk.
    destruct (cleanup_POST_threads tenv d k) as [<- | [Hgone _]];
      [done | congruence].
  - intros k t Hk Hgone.
    destruct (cleanup_POST_threads tenv d k)
      as [Hkept | (_ & uid & Hin & Howns & Hempty)]; [congruence |].
    rewrite (ownsThread_Some d uid k t Hk Howns).
    split; [done |]. by eapply collectEmpty_empty.
Qed.

Lemma cleanup_POST_only_removes_own_empty_threads_witness :
  threads db_three_threads !! "t2"
    = Some {| user_id := alice; title := "New Chat"; model_id := "gpt-4o";
              updated_at := 7%N |}
  ∧ threads (cleanup_POST tenv_alice db_three_threads).2 !! "t2" = None
  ∧ signedIn tenv_alice = Some alice
  ∧ messagesOf db_three_threads "t2" = [].
Proof.
  destruct (cleanup_POST_only_removes_own_empty_threads tenv_alice
              db_three_threads) as (_ & _ & Hremoved).
  split; [reflexivity |]. split; [reflexivity |].
  apply (Hremoved "t2"
           {| user_id := alice; title := "New Chat"; model_id := "gpt-4o";
              updated_at := 7%N |}).
  - reflexivity.
  - reflexivity.
Defined.

Lemma filter_ext_elem_of {A} (P Q : A → Prop) `{∀ x, Decision (P x)}
    `{∀ x, Decision (Q x)} (l : list A) :
  (∀ x, x ∈ l → P x ↔ Q x) → filter P l = filter Q l.
Proof.
  induction l as [|x l IH]; intros HPQ; [done |].
  rewrite !filter_cons, IH.
  - destruct (decide (P x)) as [HP | HP], (decide (Q x)) as [HQ | HQ];
      try done; exfalso; apply (HPQ x (list_elem_of_here _ _)) in HP || 
      apply (HPQ x (list_elem_of_here _ _)) in HQ; done.
  - intros y Hy. apply HPQ. by apply list_elem_of_further.
Qed.

Lemma length_filter_fst {A B} (Q : A → Prop) `{∀ x, Decision (Q x)}
    (l : list (A * B)) :
  length (filter Q l.*1) = length (filter (λ kt, Q kt.1) l).
Proof.
  induction l as [|[k t] l IH]; [done |].
  cbn [fmap list_fmap]. rewrite !filter_cons. cbn [fst].
  destruct (decide (Q k)); cbn [length]; by rewrite IH.
Qed.

(** The number of rows a delete removes from the thread table. *)
Lemma deleteOwned_size (tenv : ThreadsEnv) (d : Database) (uid : string) :
  size (threads d)
  = (size (threads (deleteOwned d uid
                      (collectEmpty tenv d (ownThreads d uid).*1)))
     + length (collectEmpty tenv d (ownThreads d uid).*1))%nat.
Proof.
  set (ids := collectEmpty tenv d (ownThreads d uid).*1).
  set (removed := λ kt : string * ThreadRow, kt.1 ∈ ids ∧ user_id kt.2 = uid).
  assert (map_to_list (threads (deleteOwned d uid ids))
          ≡ₚ filter (λ kt, ¬ removed kt) (map_to_list (threads d))) as Hkept.
  { apply NoDup_Permutation.
    - apply NoDup_map_to_list.
    - apply NoDup_filter, NoDup_map_to_list.
    - intros [k t]. unfold deleteOwned. cbn [threads].
      rewrite elem_of_map_to_list, map_lookup_filter_Some.
      rewrite list_elem_of_filter, elem_of_map_to_list.
      unfold removed. cbn [fst snd]. tauto. }
  assert (length ids = length (filter removed (map_to_list (threads d))))
    as Hremoved.
  { unfold ids, collectEmpty, ownThreads.
    rewrite length_filter_fst, list_filter_filter.
    f_equal. apply filter_ext_elem_of. intros [k t] Hkt. unfold removed.
    cbn [fst snd]. fold (ownThreads d uid).
    fold (collectEmpty tenv d (ownThreads d uid).*1). fold ids.
    split.
    - intros [[Hcount Hlen] Howner]. split; [| done].
      unfold ids, collectEmpty. apply list_elem_of_filter. split; [done |].
      apply list_elem_of_fmap. exists (k, t). split; [done |].
      unfold ownThreads. by apply list_elem_of_filter.
    - intros [Hin Howner]. split; [| done].
      unfold ids, collectEmpty in Hin.
      by apply list_elem_of_filter in Hin as [? _]. }
  rewrite <- !length_map_to_list, Hkept, Hremoved.
  rewrite <- (filter_app_complement removed (map_to_list (threads d))) at 1.
  rewrite length_app. lia.
Qed.

(** X24. When the cleanup route answers with a count and every count read
    was answered, no thread of the caller is left without a message, and
    the count is the number of threads removed. *)
Theorem cleanup_POST_leaves_no_empty_thread
    (tenv : ThreadsEnv) (d : Database) (uid : string) (n : nat) :
  signedIn tenv = Some uid →
  (cleanup_POST tenv d).1 = ApiData n →
  (∀ k : string, callFails tenv (CleanupCount k) = false) →
  (∀ (k : string) (t : ThreadRow),
     threads (cleanup_POST tenv d).2 !! k = Some t →
     user_id t = uid →
     messagesOf (cleanup_POST tenv d).2 k ≠ [])
  ∧ size (threads d) = (size (threads (cleanup_POST tenv d).2) + n)%nat.
Proof.
  intros Hin Hn Hcounts.
  assert (∀ (k : string) (t : ThreadRow),
            threads d !! k = Some t → user_id t = uid →
            k ∉ collectEmpty tenv d (ownThreads d uid).*1 →
            messagesOf d k ≠ []) as Hfull.
  { intros k t Hk Howner Hout Hnone. apply Hout.
    unfold collectEmpty. apply list_elem_of_filter. split.
    - split; [apply Hcounts | by rewrite Hnone].
    - apply list_elem_of_fmap. exists (k, t). split; [done |].
      by apply elem_of_ownThreads. }
  split.
  - intros k t Hk Howner. unfold messagesOf.
    rewrite cleanup_POST_messages. fold (messagesOf d k).
    destruct (cleanup_POST_cases tenv d)
      as [[Hsame Hzero] | (uid' & Hin' & Hrun)].
    + rewrite Hsame in Hk.
      destruct (Hzero n Hn) as (_ & uid' & Hin' & Hnone).
      assert (uid' = uid) as -> by congruence.
      apply (Hfull k t Hk Howner). rewrite Hnone. apply not_elem_of_nil.
    + assert (uid' = uid) as -> by congruence.
      rewrite Hrun in Hk. cbn [snd] in Hk.
      rewrite deleteOwned_threads in Hk.
      case_bool_decide as Hcollected.
      * destruct (ownsThread d uid k) eqn:Howns; [done |].
        cbn [andb] in Hk. unfold ownsThread in Howns. rewrite Hk in Howns.
        by rewrite bool_decide_eq_true_2 in Howns.
      * cbn [andb] in Hk. by apply (Hfull k t Hk Howner).
  - destruct (cleanup_POST_cases tenv d)
      as [[Hsame Hzero] | (uid' & Hin' & Hrun)].
    + rewrite Hsame. destruct (Hzero n Hn) as [-> _]. lia.
    + assert (uid' = uid) as -> by congruence.
      rewrite Hrun in Hn |- *. cbn [fst snd] in Hn |- *.
      injection Hn as <-. apply deleteOwned_size.
Qed.

Lemma cleanup_POST_leaves_no_empty_thread_witness :
  (∀ (k : string) (t : ThreadRow),
     threads (cleanup_POST tenv_alice db_three_threads).2 !! k = Some t →
     user_id t = alice →
     messagesOf (cleanup_POST tenv_alice db_three_threads).2 k ≠ [])
  ∧ size (threads db_three_threads)
    = (size (threads (cleanup_POST tenv_alice db_three_threads).2) + 1)%nat.
Proof.
  apply (cleanup_POST_leaves_no_empty_thread tenv_alice db_three_threads
           alice 1).
  - reflexivity.
  - reflexivity.
  - intros k. reflexivity.
Defined.

(** X25. Cleaning up does not change what the thread list shows: the list
    answered after a cleanup has the same entries as the list answered
    before it. *)
Theorem cleanup_POST_is_invisible_in_thread_list
    (tenv : ThreadsEnv) (d : Database) (l l' : list (string * ThreadRow)) :
  threads_GET tenv d = ApiData l →
  threads_GET tenv (cleanup_POST tenv d).2 = ApiData l' →
  l' ≡ₚ l.
Proof.
  intros Hl Hl'.
  destruct (signedIn tenv) as [uid|] eqn:Hin;
    [| unfold threads_GET in Hl; by rewrite Hin in Hl].
  apply NoDup_Permutation.
  - eapply NoDup_fmap_1, threads_GET_NoDup, Hl'.
  - eapply NoDup_fmap_1, threads_GET_NoDup, Hl.
  - intros [k t].
    rewrite (threads_GET_elem_of tenv _ uid l' k t Hin Hl').
    rewrite (threads_GET_elem_of tenv _ uid l k t Hin Hl).
    unfold messagesOf. rewrite cleanup_POST_messages.
    fold (messagesOf d k).
    destruct (cleanup_POST_threads tenv d k)
      as [-> | (Hgone & uid' & _ & _ & Hempty)]; [done |].
    apply collectEmpty_empty in Hempty. rewrite Hgone, Hempty.
    split; intros (? & ? & ?); done.
Qed.

Lemma cleanup_POST_is_invisible_in_thread_list_witness :
  [("t1", {| user_id := alice; title := "Greeting"; model_id := "gpt-4o";
             updated_at := 1700000002001%N |})]
  ≡ₚ [("t1", {| user_id := alice; title := "Greeting"; model_id := "gpt-4o";
                updated_at := 1700000002001%N |})].
Proof.
  apply (cleanup_POST_is_invisible_in_thread_list tenv_alice
           db_three_threads).
  - reflexivity.
  - reflexivity.
Defined.

(** ** Reading the environment *)

Lemma readEntries_lookup (processEnv : gmap string string)
    (keys : list string) (entries : list (string * string)) (key : string) :
  readEntries processEnv keys = inr entries →
  (list_to_map entries : gmap string string) !! key
  = if bool_decide (key ∈ keys) then processEnv !! key else None.
Proof.
  revert entries. induction keys as [|k rest IH]; intros entries.
  - intros [= <-]. cbn [list_to_map foldr]. by rewrite lookup_empty.
  - cbn [readEntries].
    destruct (processEnv !! k) as [[|c v]|] eqn:Hk; [done | | done].
    destruct (readEntries processEnv rest) as [thrown | entries'];
      [done |].
    intros [= <-]. cbn [list_to_map foldr uncurry fst snd].
    destruct (decide (key = k)) as [-> | Hne].
    + rewrite lookup_insert_eq, Hk.
      by rewrite bool_decide_eq_true_2 by apply list_elem_of_here.
    + rewrite lookup_insert_ne by done. rewrite (IH entries' eq_refl).
      case_bool_decide as Hin.
      * by rewrite bool_decide_eq_true_2 by by apply list_elem_of_further.
      * rewrite bool_decide_eq_false_2; [done |].
        by intros [-> | ?]%elem_of_cons.
Qed.

Lemma readEntries_succeeds (processEnv : gmap string string)
    (keys : list string) :
  (∀ key : string, key ∈ keys →
     ∃ v : string, processEnv !! key = Some v ∧ v ≠ "") →
  ∃ entries, readEntries processEnv keys = inr entries.
Proof.
  induction keys as [|k rest IH]; intros Hset; [by eexists |].
  cbn [readEntries].
  destruct (Hset k (list_elem_of_here _ _)) as (v & -> & Hv).
  destruct v as [|c v]; [done |].
  destruct IH as [entries ->]; [| by eexists].
  intros key Hkey. apply Hset. by apply list_elem_of_further.
Qed.

Lemma readEntries_throws (processEnv : gmap string string)
    (keys : list string) (thrown : string) :
  readEntries processEnv keys = inl thrown →
  ∃ (before : list string) (key : string) (rest : list string),
    keys = before ++ key :: rest
    ∧ thrown = "Missing required environment variable: " +:+ key
    ∧ (processEnv !! key = None ∨ processEnv !! key = Some "")
    ∧ ∀ k : string, k ∈ before →
        ∃ v : string, processEnv !! k = Some v ∧ v ≠ "".
Proof.
  induction keys as [|k rest IH]; [done |]. cbn [readEntries].
  destruct (processEnv !! k) as [[|c v]|] eqn:Hk.
  - intros [= <-]. exists [], k, rest.
    repeat split; [by right |]. by intros k' ?%not_elem_of_nil.
  - destruct (readEntries processEnv rest) as [thrown' | entries];
      [| done].
    intros [= <-].
    destruct (IH eq_refl) as (before & key & rest' & -> & -> & Hkey & Hset).
    exists (k :: before), key, rest'. repeat split; [done |].
    intros k' [-> | Hk']%elem_of_cons; [by eexists | by apply Hset].
  - intros [= <-]. exists [], k, rest.
    repeat split; [by left |]. by intros k' ?%not_elem_of_nil.
Qed.

(** X26. When the three required variables are all set to non-empty
    values, reading the environment succeeds, and the result holds
    exactly these three variables with the values of the process
    environment. *)
Theorem readEnv_returns_the_required_variables
    (processEnv : gmap string string) :
  (∀ key : string, key ∈ REQUIRED_ENV_VARS →
     ∃ v : string, processEnv !! key = Some v ∧ v ≠ "") →
  ∃ env : gmap string string,
    readEnv processEnv = inr env
    ∧ ∀ key : string,
        env !! key
        = if bool_decide (key ∈ REQUIRED_ENV_VARS) then processEnv !! key
          else None.
Proof.
  intros Hset. unfold readEnv.
  destruct (readEntries_succeeds processEnv REQUIRED_ENV_VARS Hset)
    as [entries Hentries].
  rewrite Hentries. eexists. split; [reflexivity |].
  intros key. by apply readEntries_lookup.
Qed.

Lemma readEnv_returns_the_required_variables_witness :
  ∃ env : gmap string string,
    readEnv {[ "NEXT_PUBLIC_SUPABASE_URL" := "https://db.example";
               "NEXT_PUBLIC_SUPABASE_PUBLISHABLE_KEY" := "pk";
               "SUPABASE_SECRET_KEY" := "sk";
               "HOME" := "/root" ]}
      = inr env
    ∧ ∀ key : string,
        env !! key
        = if bool_decide (key ∈ REQUIRED_ENV_VARS)
          then ({[ "NEXT_PUBLIC_SUPABASE_URL" := "https://db.example";
                   "NEXT_PUBLIC_SUPABASE_PUBLISHABLE_KEY" := "pk";
                   "SUPABASE_SECRET_KEY" := "sk";
                   "HOME" := "/root" ]} : gmap string string) !! key
          else None.
Proof.
  apply (readEnv_returns_the_required_variables
           {[ "NEXT_PUBLIC_SUPABASE_URL" := "https://db.example";
              "NEXT_PUBLIC_SUPABASE_PUBLISHABLE_KEY" := "pk";
              "SUPABASE_SECRET_KEY" := "sk";
              "HOME" := "/root" ]}).
  intros key Hkey. unfold REQUIRED_ENV_VARS in Hkey.
  repeat (apply elem_of_cons in Hkey as [-> | Hkey];
          [eexists; split; [reflexivity | discriminate] |]).
  by apply not_elem_of_nil in Hkey.
Defined.

(** X27. When reading the environment throws, the message names a
    required variable that is missing or empty, and it is the first such
    variable in the order of the list. *)
Theorem readEnv_names_the_first_missing_variable
    (processEnv : gmap string string) (thrown : string) :
  readEnv processEnv = inl thrown →
  ∃ (before : list string) (key : string) (rest : list string),
    REQUIRED_ENV_VARS = before ++ key :: rest
    ∧ thrown = "Missing required environment variable: " +:+ key
    ∧ (processEnv !! key = None ∨ processEnv !! key = Some "")
    ∧ ∀ k : string, k ∈ before →
        ∃ v : string, processEnv !! k = Some v ∧ v ≠ "".
Proof.
  unfold readEnv.
  destruct (readEntries processEnv REQUIRED_ENV_VARS) as [thrown' | entries]
    eqn:Hentries; [| done].
  intros [= <-]. by apply readEntries_throws.
Qed.

Lemma readEnv_names_the_first_missing_variable_witness :
  ∃ (before : list string) (key : string) (rest : list string),
    REQUIRED_ENV_VARS = before ++ key :: rest
    ∧ "Missing required environment variable: NEXT_PUBLIC_SUPABASE_PUBLISHABLE_KEY"
      = "Missing required environment variable: " +:+ key
    ∧ (({[ "NEXT_PUBLIC_SUPABASE_URL" := "https://db.example";
           "NEXT_PUBLIC_SUPABASE_PUBLISHABLE_KEY" := "" ]}
          : gmap string string) !! key = None
       ∨ ({[ "NEXT_PUBLIC_SUPABASE_URL" := "https://db.example";
             "NEXT_PUBLIC_SUPABASE_PUBLISHABLE_KEY" := "" ]}
            : gmap string string) !! key = Some "")
    ∧ ∀ k : string, k ∈ before →
        ∃ v : string,
          ({[ "NEXT_PUBLIC_SUPABASE_URL" := "https://db.example";
              "NEXT_PUBLIC_SUPABASE_PUBLISHABLE_KEY" := "" ]}
             : gmap string string) !! k = Some v
          ∧ v ≠ "".
Proof.
  apply (readEnv_names_the_first_missing_variable
           {[ "NEXT_PUBLIC_SUPABASE_URL" := "https://db.example";
              "NEXT_PUBLIC_SUPABASE_PUBLISHABLE_KEY" := "" ]}).
  reflexivity.
Defined.

(** ** The client and the chat route *)

Lemma text_textParts (texts : list string) : text <$> textParts texts = texts.
Proof.
  unfold textParts. induction texts as [|s l IH]; [done |].
  cbn [fmap list_fmap text] in *. by rewrite IH.
Qed.

Lemma joinText_textParts (texts : list string) :
  joinText (textParts texts) = join texts.
Proof.
  unfold joinText. rewrite filter_all; [by rewrite text_textParts |].
  unfold textParts. apply Forall_fmap, Forall_true. done.
Qed.

(** X28. When the client accepts a new message and the state updater has
    run, the messages it sends are the ones it held, each with its role
    and its text items, followed by one user message that carries the
    text of the content items, a non-text item counting as empty; the
    last message is a user message, so the chat route stores it with that
    text. When the updater has not run yet, the client sends no message
    at all, and the chat route stores no user turn. *)
Theorem onNew_payload_ends_with_the_user_turn
    (held : option (list MyMessage)) (items : list Part)
    (msgs : list UIMessage) :
  onNew_payload held items = inr msgs →
  match held with
  | Some prev =>
      ∃ lastMessage : UIMessage,
        msgs = (payloadMessage <$> prev) ++ [lastMessage]
        ∧ role lastMessage = user
        ∧ parts lastMessage
          = Some (textParts
                    ((λ c, if bool_decide (type c = "text") then text c
                           else "") <$> items))
        ∧ content lastMessage = None
        ∧ length msgs = S (length prev)
        ∧ lastIsUser msgs = true
        ∧ last msgs = Some lastMessage
        ∧ userTextOf (extractContent lastMessage)
          = join ((λ c, if bool_decide (type c = "text") then text c
                        else "") <$> items)
  | None => msgs = [] ∧ lastIsUser msgs = false
  end.
Proof.
  unfold onNew_payload. destruct items as [|first rest]; [done |].
  case_bool_decide as Htext; [| done]. intros [= <-].
  destruct held as [prev|]; [| done].
  rewrite fmap_app, list_fmap_singleton. eexists.
  split; [reflexivity |]. cbn [payloadMessage my_role my_content role parts
                               content].
  split; [done |]. split; [done |]. split; [done |]. split.
  { rewrite length_app, length_fmap. cbn [length]. lia. }
  unfold lastIsUser. rewrite last_snoc. cbn [role].
  split; [done |]. split; [done |].
  unfold extractContent, userTextOf.
  cbn [payloadMessage parts my_content].
  by rewrite joinText_textParts.
Qed.

(** The client holds one exchange and sends a second message. *)
Lemma onNew_payload_ends_with_the_user_turn_witness :
  ∃ lastMessage : UIMessage,
    [hi; hello; {| role := user;
                   parts := Some [ {| type := "text"; text := "More" |} ];
                   content := None |}]
    = (payloadMessage
         <$> [ {| my_role := user; my_content := ["Hi"] |};
               {| my_role := assistant; my_content := ["Hello"] |} ])
      ++ [lastMessage]
    ∧ role lastMessage = user
    ∧ parts lastMessage
      = Some (textParts
                ((λ c, if bool_decide (type c = "text") then text c else "")
                   <$> [ {| type := "text"; text := "More" |} ]))
    ∧ content lastMessage = None
    ∧ length [hi; hello;
              {| role := user;
                 parts := Some [ {| type := "text"; text := "More" |} ];
                 content := None |}]
      = S (length [ {| my_role := user; my_content := ["Hi"] |};
                    {| my_role := assistant; my_content := ["Hello"] |} ])
    ∧ lastIsUser [hi; hello;
                  {| role := user;
                     parts := Some [ {| type := "text"; text := "More" |} ];
                     content := None |}] = true
    ∧ last [hi; hello;
            {| role := user;
               parts := Some [ {| type := "text"; text := "More" |} ];
               content := None |}] = Some lastMessage
    ∧ userTextOf (extractContent lastMessage)
      = join ((λ c, if bool_decide (type c = "text") then text c else "")
                <$> [ {| type := "text"; text := "More" |} ]).
Proof.
  apply (onNew_payload_ends_with_the_user_turn
           (Some [ {| my_role := user; my_content := ["Hi"] |};
                   {| my_role := assistant; my_content := ["Hello"] |} ])
           [ {| type := "text"; text := "More" |} ]).
  reflexivity.
Defined.

(** X29. A message of the client, once stored by the chat route as the
    user turn, is loaded back as the same message; and the assistant row
    the route writes is loaded as one text item holding the full text. *)
Theorem stored_turns_reload_as_sent
    (m : MyMessage) (tid modelId fullText : string) (count : option nat) :
  my_role m = user →
  loadedMessage (userRow tid (payloadMessage m) count) = m
  ∧ loadedMessage (assistantRow tid modelId fullText count)
    = {| my_role := assistant; my_content := [fullText] |}.
Proof.
  intros Hrole. split; [| done].
  unfold loadedMessage, userRow, extractContent.
  cbn [m_role m_content payloadMessage parts].
  rewrite text_textParts. destruct m as [r c]. cbn in Hrole. by subst.
Qed.

Lemma stored_turns_reload_as_sent_witness :
  loadedMessage
    (userRow "t1"
       (payloadMessage {| my_role := user; my_content := ["Hi"; " there"] |})
       (Some 2))
  = {| my_role := user; my_content := ["Hi"; " there"] |}
  ∧ loadedMessage (assistantRow "t1" "gpt-4o" "Hello" (Some 3))
    = {| my_role := assistant; my_content := ["Hello"] |}.
Proof.
  apply (stored_turns_reload_as_sent
           {| my_role := user; my_content := ["Hi"; " there"] |}
           "t1" "gpt-4o" "Hello" (Some 3)).
  reflexivity.
Defined.

(** X30. When the client loads stored rows and sends them again, the
    provider receives each row with its role and the concatenation of the
    text of all its stored parts, whatever their type, or the stored
    string itself. *)
Theorem reloaded_history_reaches_the_provider_with_all_stored_text
    (rows : list MessageRow) :
  projectMessages (payloadMessage <$> (loadedMessage <$> rows))
  = (λ row, (m_role row,
             match m_content row with
             | ContentParts ps => join (text <$> ps)
             | ContentString s => s
             end)) <$> rows.
Proof.
  unfold projectMessages. rewrite <- !list_fmap_compose.
  apply list_fmap_ext. intros _ row _. unfold compose.
  cbn [payloadMessage loadedMessage role parts my_role my_content].
  rewrite joinText_textParts. f_equal.
  destruct (m_content row) as [ps | s]; [done |].
  unfold join. cbn [foldr]. apply append_nil_r.
Qed.
